(** * A shallow embedding of the blockchain node's core

    The Python sources under [blockchain/] are transcribed function by
    function: [crypto/encoding.py], [crypto/signature.py],
    [advanced/script_engine.py], [native/assembly_simulator.py],
    [core/block.py], [core/genesis.py] and [core/blockchain.py].

    Conventions.
    - Python [bytes] are [list byte]; Python [str] is [string], one character
      per code point below 256.
    - Python [int] is [Z].  Timestamps and the block-time target are binary64
      floats ([float], the kernel's primitive type), with the operations
      Python applies to them.
    - Coin amounts are binary64 floats, as the code has them ([total_supply:
      float], the amounts 0.0 and 50.0 / 2 ** halvings), and are added,
      subtracted and compared with the rounding of binary64.  An int amount
      stands for the float of its value, the default 0 of
      [.get('amount', 0)] for 0.0.  Where a statement speaks of the number
      an amount stands for, that number is an exact rational ([Qc], through
      [Ledger.value_of]).
    - A dictionary whose keys may be missing is a record of [option] fields,
      read through the same defaults as the source's [.get(key, default)].
    - A raised exception is [None].
    - The parts of the Python runtime the code calls ([hashlib], [json],
      [base64], [float.__repr__]) and the ECDSA of the [cryptography]
      package are defined from their standards. *)

From Stdlib Require Import ZArith Lia List String Ascii QArith Qcanon Floats.
From Stdlib.Strings Require Import Byte.
From Bignums Require Import BigZ.
From stdpp Require Import gmap strings list.
Import ListNotations.
Local Open Scope string_scope.
Local Open Scope list_scope.
Local Open Scope Z_scope.

(** ** Python runtime: bytes *)

Module PyBytes.

Definition byte_to_Z (b : byte) : Z := Z.of_N (Byte.to_N b).

Definition Z_to_byte (z : Z) : byte :=
  match Byte.of_N (Z.to_N (z mod 256)) with
  | Some b => b
  | None => x00
  end.

Definition hex_digit (d : Z) : ascii :=
  ascii_of_N (Z.to_N (if d <? 10 then 48 + d else 87 + d)).

(* bytes.hex() *)
Fixpoint hex (bs : list byte) : string :=
  match bs with
  | [] => EmptyString
  | b :: r =>
      let z := byte_to_Z b in
      String (hex_digit (z / 16)) (String (hex_digit (z mod 16)) (hex r))
  end.

(* str.encode('utf-8'), for code points below 256 *)
Fixpoint encode (s : string) : list byte :=
  match s with
  | EmptyString => []
  | String c r =>
      let z := Z.of_N (N_of_ascii c) in
      if z <? 128 then Z_to_byte z :: encode r
      else Z_to_byte (192 + z / 64) :: Z_to_byte (128 + z mod 64) :: encode r
  end.

(* int.to_bytes(n, 'big') on the low 8n bits *)
Fixpoint to_bytes_big (n : nat) (v : Z) : list byte :=
  match n with
  | O => []
  | S n' => to_bytes_big n' (v / 256) ++ [Z_to_byte v]
  end.

(* int.from_bytes(bs, 'big') *)
Definition from_bytes_big (bs : list byte) : Z :=
  fold_left (fun acc b => acc * 256 + byte_to_Z b) bs 0.

End PyBytes.

Module SHA256.
Import PyBytes.

Definition mask32 : Z := 4294967295.
Definition add32 (a b : Z) : Z := Z.land (a + b) mask32.
Definition rotr (n x : Z) : Z :=
  Z.lor (Z.shiftr x n) (Z.land (Z.shiftl x (32 - n)) mask32).
Definition Ch (x y z : Z) : Z := Z.lxor (Z.land x y) (Z.land (Z.lxor x mask32) z).
Definition Maj (x y z : Z) : Z :=
  Z.lxor (Z.lxor (Z.land x y) (Z.land x z)) (Z.land y z).
Definition Sum0 (x : Z) : Z := Z.lxor (Z.lxor (rotr 2 x) (rotr 13 x)) (rotr 22 x).
Definition Sum1 (x : Z) : Z := Z.lxor (Z.lxor (rotr 6 x) (rotr 11 x)) (rotr 25 x).
Definition sig0 (x : Z) : Z := Z.lxor (Z.lxor (rotr 7 x) (rotr 18 x)) (Z.shiftr x 3).
Definition sig1 (x : Z) : Z := Z.lxor (Z.lxor (rotr 17 x) (rotr 19 x)) (Z.shiftr x 10).

(* The constants of FIPS 180-4 are fractional parts of square and cube roots
   of the first primes; they are computed here rather than tabulated. *)
Definition is_prime (n : Z) : bool :=
  forallb (fun d => negb (n mod Z.of_nat d =? 0)) (seq 2 (Z.to_nat n - 2)).

Definition first_primes : list Z :=
  filter is_prime (map Z.of_nat (seq 2 310)).

Fixpoint root_search (pw : Z -> Z) (n : Z) (k : nat) (acc : Z) : Z :=
  match k with
  | O => acc
  | S k' =>
      let cand := acc + 2 ^ Z.of_nat k' in
      root_search pw n k' (if pw cand <=? n then cand else acc)
  end.

Definition frac_sqrt (p : Z) : Z :=
  Z.land (root_search (fun x => x * x) (p * 2 ^ 64) 40 0) mask32.
Definition frac_cbrt (p : Z) : Z :=
  Z.land (root_search (fun x => x * x * x) (p * 2 ^ 96) 40 0) mask32.

Definition K : list Z := Eval vm_compute in map frac_cbrt first_primes.
Definition H0 : list Z := Eval vm_compute in map frac_sqrt (firstn 8 first_primes).

Definition pad (msg : list byte) : list byte :=
  let l := Z.of_nat (length msg) in
  msg ++ [x80] ++ repeat x00 (Z.to_nat ((55 - l) mod 64)) ++ to_bytes_big 8 (8 * l).

Fixpoint words (n : nat) (bs : list byte) : list Z :=
  match n with
  | O => []
  | S n' => from_bytes_big (firstn 4 bs) :: words n' (skipn 4 bs)
  end.

(* the schedule is kept most recent word first *)
Fixpoint schedule (n : nat) (w : list Z) : list Z :=
  match n with
  | O => w
  | S n' =>
      let x := add32 (add32 (sig1 (nth 1 w 0)) (nth 6 w 0))
                     (add32 (sig0 (nth 14 w 0)) (nth 15 w 0)) in
      schedule n' (x :: w)
  end.

Definition round (st : list Z) (kw : Z * Z) : list Z :=
  match st with
  | [a; b; c; d; e; f; g; h] =>
      let t1 := add32 (add32 (add32 h (Sum1 e)) (add32 (Ch e f g) (fst kw))) (snd kw) in
      let t2 := add32 (Sum0 a) (Maj a b c) in
      [add32 t1 t2; a; b; c; add32 d t1; e; f; g]
  | _ => st
  end.

Definition compress (hs : list Z) (block : list byte) : list Z :=
  let w := rev (schedule 48 (rev (words 16 block))) in
  let st := fold_left round (combine K w) hs in
  map (fun p => add32 (fst p) (snd p)) (combine hs st).

Fixpoint blocks (n : nat) (hs : list Z) (bs : list byte) : list Z :=
  match n with
  | O => hs
  | S n' => blocks n' (compress hs (firstn 64 bs)) (skipn 64 bs)
  end.

(* hashlib.sha256(msg).digest() *)
Definition sha256 (msg : list byte) : list byte :=
  let p := pad msg in
  flat_map (to_bytes_big 4) (blocks (length p / 64)%nat H0 p).

End SHA256.

Module SHA3.
Import PyBytes.

Definition mask64 : Z := 18446744073709551615.
Definition rotl64 (x n : Z) : Z :=
  Z.land (Z.lor (Z.shiftl x n) (Z.shiftr x (64 - n))) mask64.

(* lane (x, y) of the 5 x 5 state sits at position x + 5 y *)
Definition lane (a : list Z) (x y : Z) : Z :=
  nth (Z.to_nat (x mod 5 + 5 * (y mod 5))) a 0.

Definition coords : list (Z * Z) :=
  flat_map (fun y => map (fun x => (x, y)) [0; 1; 2; 3; 4]) [0; 1; 2; 3; 4].

(* rotation offsets: walk (x, y) -> (y, 2x + 3y) from (1, 0), the t-th lane
   visited rotating by the triangular number (t+1)(t+2)/2 *)
Fixpoint rho_walk (t : nat) (x y : Z) (k : Z) : list (Z * Z * Z) :=
  match t with
  | O => []
  | S t' => (x, y, ((k + 1) * (k + 2) / 2) mod 64)
            :: rho_walk t' y ((2 * x + 3 * y) mod 5) (k + 1)
  end.

Definition rho_table : list (Z * Z * Z) := Eval vm_compute in rho_walk 24 1 0 0.

Definition rho_offset (x y : Z) : Z :=
  match find (fun e => (fst (fst e) =? x) && (snd (fst e) =? y)) rho_table with
  | Some e => snd e
  | None => 0
  end.

(* round constants from the degree-8 LFSR of FIPS 202, algorithm 5 *)
Fixpoint lfsr (t : nat) (r : Z) : Z :=
  match t with
  | O => r
  | S t' =>
      let r2 := 2 * r in
      lfsr t' (if Z.testbit r2 8 then Z.lxor r2 369 else r2)
  end.
Definition rc_bit (t : Z) : Z := Z.land (lfsr (Z.to_nat (t mod 255)) 1) 1.
Definition round_constant (i : Z) : Z :=
  fold_left (fun acc j => Z.lor acc (Z.shiftl (rc_bit (j + 7 * i)) (2 ^ j - 1)))
            [0; 1; 2; 3; 4; 5; 6] 0.
Definition RC : list Z := Eval vm_compute in map round_constant (map Z.of_nat (seq 0 24)).

Definition theta (a : list Z) : list Z :=
  let c := map (fun x => fold_left Z.lxor (map (lane a x) [0; 1; 2; 3; 4]) 0) [0; 1; 2; 3; 4] in
  let d := fun x => Z.lxor (nth (Z.to_nat ((x + 4) mod 5)) c 0)
                           (rotl64 (nth (Z.to_nat ((x + 1) mod 5)) c 0) 1) in
  map (fun p => Z.lxor (lane a (fst p) (snd p)) (d (fst p))) coords.

(* rho and pi together: B[y, 2x + 3y] = rot(A[x, y]), read backwards *)
Definition rho_pi (a : list Z) : list Z :=
  map (fun p => let X := fst p in let Y := snd p in
                let x := (X + 3 * Y) mod 5 in
                let y := X in
                rotl64 (lane a x y) (rho_offset x y)) coords.

Definition chi (b : list Z) : list Z :=
  map (fun p => let x := fst p in let y := snd p in
                Z.lxor (lane b x y)
                       (Z.land (Z.lxor (lane b (x + 1) y) mask64) (lane b (x + 2) y)))
      coords.

Definition iota (rc : Z) (a : list Z) : list Z :=
  match a with
  | a0 :: r => Z.lxor a0 rc :: r
  | [] => []
  end.

Definition keccak_round (a : list Z) (rc : Z) : list Z :=
  iota rc (chi (rho_pi (theta a))).

Definition keccak_f (a : list Z) : list Z := fold_left keccak_round RC a.

Definition from_bytes_little (bs : list byte) : Z := from_bytes_big (rev bs).
Definition to_bytes_little (n : nat) (v : Z) : list byte := rev (to_bytes_big n v).

Fixpoint lanes_of (n : nat) (bs : list byte) : list Z :=
  match n with
  | O => []
  | S n' => from_bytes_little (firstn 8 bs) :: lanes_of n' (skipn 8 bs)
  end.

Definition rate : nat := 136.

Definition pad (msg : list byte) : list byte :=
  let q := (rate - (length msg) mod rate)%nat in
  if (q =? 1)%nat then msg ++ [x86]
  else msg ++ [x06] ++ repeat x00 (q - 2) ++ [x80].

Definition absorb_block (st : list Z) (block : list byte) : list Z :=
  let ls := lanes_of 17 block ++ repeat 0 8 in
  keccak_f (map (fun p => Z.lxor (fst p) (snd p)) (combine st ls)).

Fixpoint absorb (n : nat) (st : list Z) (bs : list byte) : list Z :=
  match n with
  | O => st
  | S n' => absorb n' (absorb_block st (firstn rate bs)) (skipn rate bs)
  end.

(* hashlib.sha3_256(msg).digest() *)
Definition sha3_256 (msg : list byte) : list byte :=
  let p := pad msg in
  let st := absorb (length p / rate)%nat (repeat 0 25) p in
  flat_map (to_bytes_little 8) (firstn 4 st).

End SHA3.

Module PyFloat.

(* Decimal digits of a natural number, most significant first (str(int)). *)
Fixpoint digits_fuel (fuel : nat) (n : Z) (acc : string) : string :=
  match fuel with
  | O => acc
  | S f =>
      let acc' := String (ascii_of_N (Z.to_N (48 + n mod 10))) acc in
      if n / 10 =? 0 then acc' else digits_fuel f (n / 10) acc'
  end.

Definition str_nat (n : Z) : string :=
  digits_fuel (S (Z.to_nat (Z.log2 n))) n EmptyString.

(* str(n) for an int *)
Definition str_int (n : Z) : string :=
  if n <? 0 then String "-" (str_nat (- n)) else str_nat n.

Definition zeros (n : Z) : string :=
  string_of_list_ascii (repeat "0"%char (Z.to_nat n)).

(* The shortest digit string that reads back as f * 2^e (f > 0), by exact
   integer arithmetic: r / s is the value, m_plus / s and m_minus / s the
   distances to the neighbouring doubles' midpoints. *)
Definition start (f e : Z) : Z * Z * Z * Z :=
  if 0 <=? e then
    if f =? 2 ^ 52 then (f * 2 ^ (e + 1) * 2, 4, 2 ^ (e + 1), 2 ^ e)
    else (f * 2 ^ e * 2, 2, 2 ^ e, 2 ^ e)
  else
    if (e =? -1074) || negb (f =? 2 ^ 52) then (f * 2, 2 ^ (- e) * 2, 1, 1)
    else (f * 4, 2 ^ (1 - e) * 2, 2, 1).

(* is the upper bound (r + m_plus) / s below 10^k ? *)
Definition below_pow10 (incl : bool) (r s mp : Z) (k : Z) : bool :=
  let lhs := if 0 <=? k then r + mp else (r + mp) * 10 ^ (- k) in
  let rhs := if 0 <=? k then s * 10 ^ k else s in
  if incl then lhs <? rhs else lhs <=? rhs.

Fixpoint find_decpt (fuel : nat) (incl : bool) (r s mp : Z) (k : Z) : Z :=
  match fuel with
  | O => k
  | S fuel' =>
      if below_pow10 incl r s mp k then k
      else find_decpt fuel' incl r s mp (k + 1)
  end.

Fixpoint generate (fuel : nat) (incl : bool) (r s mp mm : Z) : list Z :=
  match fuel with
  | O => []
  | S fuel' =>
      let r10 := r * 10 in
      let mp' := mp * 10 in
      let mm' := mm * 10 in
      let d := r10 / s in
      let r' := r10 mod s in
      let tc1 := if incl then r' <=? mm' else r' <? mm' in
      let tc2 := if incl then s <=? r' + mp' else s <? r' + mp' in
      match tc1, tc2 with
      | false, false => d :: generate fuel' incl r' s mp' mm'
      | false, true => [d + 1]
      | true, false => [d]
      | true, true =>
          if 2 * r' <? s then [d]
          else if s <? 2 * r' then [d + 1]
          else if Z.odd d then [d + 1] else [d]
      end
  end.

(* digits and the position of the decimal point *)
Definition shortest (f e : Z) : list Z * Z :=
  let '(r, s, mp, mm) := start f e in
  let incl := Z.even f in
  let est := ((Z.log2 f + e) * 30103) / 100000 - 1 in
  let k := find_decpt 6 incl r s mp est in
  let s' := if 0 <=? k then s * 10 ^ k else s in
  let sc := if 0 <=? k then 1 else 10 ^ (- k) in
  (generate 30 incl (r * sc) s' (mp * sc) (mm * sc), k).

Definition digit_string (ds : list Z) : string :=
  string_of_list_ascii (map (fun d => ascii_of_N (Z.to_N (48 + d))) ds).

Definition substring_from (n : Z) (s : string) : string :=
  string_of_list_ascii (skipn (Z.to_nat n) (list_ascii_of_string s)).
Definition substring_to (n : Z) (s : string) : string :=
  string_of_list_ascii (firstn (Z.to_nat n) (list_ascii_of_string s)).

Definition format_short (ds : list Z) (decpt : Z) : string :=
  let digs := digit_string ds in
  let n := Z.of_nat (List.length ds) in
  if (decpt <=? -4) || (16 <? decpt) then
    let ex := decpt - 1 in
    let mant := if n =? 1 then digs
                else substring_to 1 digs +:+ "." +:+ substring_from 1 digs in
    let exs := str_nat (Z.abs ex) in
    mant +:+ "e" +:+ (if ex <? 0 then "-" else "+")
         +:+ (if Z.abs ex <? 10 then "0" else "") +:+ exs
  else if decpt <=? 0 then "0." +:+ zeros (- decpt) +:+ digs
  else if decpt <? n then substring_to decpt digs +:+ "." +:+ substring_from decpt digs
  else digs +:+ zeros (decpt - n) +:+ ".0".

(* float.__repr__ *)
Definition repr (x : float) : string :=
  match Prim2SF x with
  | S754_zero s => if s then "-0.0" else "0.0"
  | S754_infinity s => if s then "-inf" else "inf"
  | S754_nan => "nan"
  | S754_finite s m e =>
      let '(ds, k) := shortest (Z.pos m) e in
      (if s then "-" else "") +:+ format_short ds k
  end.

End PyFloat.

(** ** Python runtime: [json.dumps(obj, sort_keys=True)] and [base64] *)

Module Json.
Import PyBytes.

Inductive json : Type :=
  | JNull
  | JBool (b : bool)
  | JInt (z : Z)
  | JFloat (f : float)
  | JStr (s : string)
  | JList (l : list json)
  | JDict (d : list (string * json)).

Definition dquote : string := String "034"%char EmptyString.

Definition hex4 (n : Z) : string :=
  string_of_list_ascii
    (map hex_digit [n / 4096 mod 16; n / 256 mod 16; n / 16 mod 16; n mod 16]).

(* ensure_ascii=True: everything outside ' ' .. '~' is escaped *)
Definition escape_char (c : ascii) : string :=
  let n := Z.of_N (N_of_ascii c) in
  if n =? 34 then "\" +:+ dquote
  else if n =? 92 then "\\"
  else if n =? 10 then "\n"
  else if n =? 13 then "\r"
  else if n =? 9 then "\t"
  else if n =? 8 then "\b"
  else if n =? 12 then "\f"
  else if (n <? 32) || (126 <? n) then "\u" +:+ hex4 n
  else String c EmptyString.

Fixpoint escape (s : string) : string :=
  match s with
  | EmptyString => EmptyString
  | String c r => escape_char c +:+ escape r
  end.

Definition quoted (s : string) : string := dquote +:+ escape s +:+ dquote.

Fixpoint join (sep : string) (l : list string) : string :=
  match l with
  | [] => EmptyString
  | [x] => x
  | x :: r => x +:+ sep +:+ join sep r
  end.

Fixpoint insert_item (kv : string * string) (l : list (string * string))
  : list (string * string) :=
  match l with
  | [] => [kv]
  | x :: r => if String.leb (fst kv) (fst x) then kv :: l else x :: insert_item kv r
  end.

Definition sort_items (l : list (string * string)) : list (string * string) :=
  fold_right insert_item [] l.

Definition dumps_float (f : float) : string :=
  match Prim2SF f with
  | S754_nan => "NaN"
  | S754_infinity s => if s then "-Infinity" else "Infinity"
  | _ => PyFloat.repr f
  end.

(* json.dumps(j, sort_keys=True) with the default separators *)
Fixpoint dumps (j : json) : string :=
  match j with
  | JNull => "null"
  | JBool b => if b then "true" else "false"
  | JInt z => PyFloat.str_int z
  | JFloat f => dumps_float f
  | JStr s => quoted s
  | JList l => "[" +:+ join ", " (map dumps l) +:+ "]"
  | JDict d =>
      let items := map (fun kv => match kv with (k, v) => (k, dumps v) end) d in
      "{" +:+ join ", " (map (fun kv => quoted (fst kv) +:+ ": " +:+ snd kv)
                             (sort_items items)) +:+ "}"
  end.

End Json.

Module Base64.
Import PyBytes.

Definition alphabet : string :=
  "ABCDEFGHIJKLMNOPQRSTUVWXYZabcdefghijklmnopqrstuvwxyz0123456789+/".

Definition sextet (v : Z) : byte :=
  match String.get (Z.to_nat (v mod 64)) alphabet with
  | Some c => Z_to_byte (Z.of_N (N_of_ascii c))
  | None => x00
  end.

Definition pad_byte : byte := x3d.

(* base64.b64encode *)
Fixpoint b64encode (bs : list byte) : list byte :=
  match bs with
  | [] => []
  | [a] =>
      let v := byte_to_Z a * 65536 in
      [sextet (v / 262144); sextet (v / 4096); pad_byte; pad_byte]
  | [a; b] =>
      let v := byte_to_Z a * 65536 + byte_to_Z b * 256 in
      [sextet (v / 262144); sextet (v / 4096); sextet (v / 64); pad_byte]
  | a :: b :: c :: r =>
      let v := byte_to_Z a * 65536 + byte_to_Z b * 256 + byte_to_Z c in
      sextet (v / 262144) :: sextet (v / 4096) :: sextet (v / 64) :: sextet v
        :: b64encode r
  end.

End Base64.

(** ** [crypto/hashing.py] *)

Module Hashing.
Import PyBytes.

Definition sha256 (data : list byte) : list byte := SHA256.sha256 data.
Definition sha3_256 (data : list byte) : list byte := SHA3.sha3_256 data.

Definition double_sha256 (data : list byte) : list byte :=
  SHA256.sha256 (SHA256.sha256 data).

End Hashing.

(** ** [crypto/encoding.py] *)

Module Encoding.
Import PyBytes.

Definition BASE58_ALPHABET : string :=
  "123456789ABCDEFGHJKLMNPQRSTUVWXYZabcdefghijkmnopqrstuvwxyz".

(* BASE58_ALPHABET[i] *)
Definition alphabet_at (i : Z) : ascii :=
  match String.get (Z.to_nat i) BASE58_ALPHABET with
  | Some c => c
  | None => "000"%char
  end.

(* BASE58_ALPHABET.index(c), None for the ValueError of a foreign character *)
Fixpoint index_from (c : ascii) (s : string) (i : Z) : option Z :=
  match s with
  | EmptyString => None
  | String d r => if Ascii.eqb d c then Some i else index_from c r (i + 1)
  end.

Definition alphabet_index (c : ascii) : option Z := index_from c BASE58_ALPHABET 0.

(* for byte in data: if byte == 0: leading_zeros += 1 else: break *)
Fixpoint leading_zero_bytes (data : list byte) : nat :=
  match data with
  | b :: r => if byte_to_Z b =? 0 then S (leading_zero_bytes r) else O
  | [] => O
  end.

(* while num > 0: num, remainder = divmod(num, 58); encoded = ALPHABET[remainder] + encoded
   The loop body runs at most log2(num) + 1 times, which is the fuel given. *)
Fixpoint encode_loop (fuel : nat) (num : Z) (encoded : string) : string :=
  match fuel with
  | O => encoded
  | S fuel' =>
      if 0 <? num
      then encode_loop fuel' (num / 58) (String (alphabet_at (num mod 58)) encoded)
      else encoded
  end.

Definition base58_encode (data : list byte) : string :=
  match data with
  | [] => EmptyString
  | _ =>
      let leading_zeros := leading_zero_bytes data in
      let num := from_bytes_big data in
      let encoded := encode_loop (S (Z.to_nat (Z.log2 num))) num EmptyString in
      string_of_list_ascii (repeat (alphabet_at 0) leading_zeros) +:+ encoded
  end.

(* for char in encoded: if char == BASE58_ALPHABET[0]: leading_zeros += 1 else: break *)
Fixpoint leading_ones (encoded : string) : nat :=
  match encoded with
  | String c r => if Ascii.eqb c (alphabet_at 0) then S (leading_ones r) else O
  | EmptyString => O
  end.

(* for char in encoded: num = num * 58 + BASE58_ALPHABET.index(char) *)
Fixpoint decode_loop (encoded : string) (num : Z) : option Z :=
  match encoded with
  | EmptyString => Some num
  | String c r =>
      match alphabet_index c with
      | Some i => decode_loop r (num * 58 + i)
      | None => None
      end
  end.

(* int.bit_length() of a non-negative int *)
Definition bit_length (num : Z) : Z := if num =? 0 then 0 else Z.log2 num + 1.

Definition base58_decode (encoded : string) : option (list byte) :=
  match encoded with
  | EmptyString => Some []
  | _ =>
      let leading_zeros := leading_ones encoded in
      match decode_loop encoded 0 with
      | Some num =>
          let decoded := to_bytes_big (Z.to_nat ((bit_length num + 7) / 8)) num in
          Some (repeat x00 leading_zeros ++ decoded)
      | None => None
      end
  end.

End Encoding.

(** ** Data carried by the chain: transactions as dictionaries *)

Module Tx.

(* an entry of tx['inputs'] *)
Record TxInput : Type := {
  prev_tx_id : option string;
  prev_output_index : option Z
}.

(* an entry of tx['outputs'] *)
Record TxOutput : Type := {
  address : option string;
  amount : option float;
  script_pubkey : option string
}.

(* A transaction dictionary: the keys the chain reads, and the text that
   json.dumps(tx, sort_keys=True) yields for the whole dictionary, which is
   all that hashing and signing read of it. *)
Record Transaction : Type := {
  tx_id : option string;
  inputs : option (list TxInput);
  outputs : option (list TxOutput);
  tx_json : string
}.

(* d.get(key, default) *)
Definition get {A : Type} (field : option A) (default : A) : A :=
  match field with
  | Some v => v
  | None => default
  end.

End Tx.

(** ** [advanced/script_engine.py] *)

Module ScriptEngine.
Import PyBytes.

(* what the stack holds: strings pushed from the script, and the int 1 that
   OP_CHECKSIG pushes *)
Inductive item : Type :=
  | IStr (s : string)
  | IInt (z : Z).

Definition item_eqb (a b : item) : bool :=
  match a, b with
  | IStr s, IStr t => String.eqb s t
  | IInt x, IInt y => x =? y
  | _, _ => false
  end.

(* str.isspace(), for code points below 256 *)
Definition is_space (c : ascii) : bool :=
  let n := Z.of_N (N_of_ascii c) in
  ((9 <=? n) && (n <=? 13)) || ((28 <=? n) && (n <=? 32)) || (n =? 133) || (n =? 160).

(* str.split(): the maximal runs of non-whitespace; [cur] is the run being
   read, last character first *)
Fixpoint split_from (s : string) (cur : list ascii) : list string :=
  match s with
  | EmptyString =>
      match cur with
      | [] => []
      | _ => [string_of_list_ascii (rev cur)]
      end
  | String c r =>
      if is_space c then
        match cur with
        | [] => split_from r []
        | _ => string_of_list_ascii (rev cur) :: split_from r []
        end
      else split_from r (c :: cur)
  end.

Definition split (s : string) : list string := split_from s [].

(* One operation on the stack, kept top first.  The result is the returned
   bool with the stack left behind; None is the TypeError hashlib raises on
   a non-string. *)
Definition _execute_operation (stack : list item) (op : string)
  : option (bool * list item) :=
  if String.eqb op "OP_DUP" then
    match stack with
    | [] => Some (false, stack)
    | top :: _ => Some (true, top :: stack)
    end
  else if String.eqb op "OP_HASH160" then
    match stack with
    | [] => Some (false, stack)
    | IStr data :: rest =>
        let hash_result := firstn 20 (SHA256.sha256 (encode data)) in
        Some (true, IStr (hex hash_result) :: rest)
    | IInt _ :: _ => None
    end
  else if String.eqb op "OP_EQUALVERIFY" then
    match stack with
    | a :: b :: rest => if item_eqb a b then Some (true, rest) else Some (false, rest)
    | _ => Some (false, stack)
    end
  else if String.eqb op "OP_CHECKSIG" then
    match stack with
    | pubkey :: sig :: rest => Some (true, IInt 1 :: rest)
    | _ => Some (false, stack)
    end
  else if String.eqb op "OP_GENESIS" then
    Some (true, IStr "GENESIS" :: stack)
  else if String.eqb op "OP_RETURN" then
    match stack with
    | [] => Some (false, stack)
    | _ :: rest => Some (true, rest)
    end
  else if String.prefix "OP_" op then
    Some (false, stack)
  else
    Some (true, IStr op :: stack).

(* for op in operations: if not self._execute_operation(op): return False *)
Fixpoint run (operations : list string) (stack : list item)
  : option (bool * list item) :=
  match operations with
  | [] => Some (true, stack)
  | op :: rest =>
      match _execute_operation stack op with
      | None => None
      | Some (false, stack') => Some (false, stack')
      | Some (true, stack') => run rest stack'
      end
  end.

Definition execute (script : string) : option bool :=
  match run (split script) [] with
  | None => None
  | Some (false, _) => Some false
  | Some (true, []) => Some false
  | Some (true, IInt result :: _) => Some (negb (result =? 0))
  | Some (true, IStr result :: _) => Some (0 <? Z.of_nat (String.length result))
  end.

End ScriptEngine.

(** ** [crypto/signature.py], with the ECDSA of the [cryptography] package *)

Module Signature.
Import PyBytes Tx.

(* The curve secp256k1 (SEC 2): y^2 = x^3 + 7 over the field of p elements,
   base point G of prime order n. *)
Definition p : Z := 2 ^ 256 - 2 ^ 32 - 977.
Definition n : Z := 0xFFFFFFFFFFFFFFFFFFFFFFFFFFFFFFFEBAAEDCE6AF48A03BBFD25E8CD0364141.
Definition Gx : Z := 0x79BE667EF9DCBBAC55A06295CE870B07029BFCDB2DCE28D959F2815B16F81798.
Definition Gy : Z := 0x483ADA7726A3C4655DA4FBFC0E1108A8FD17B448A68554199C47D08FFB10D4B8.
(* a point of the curve in affine coordinates; None is the point at infinity *)
Definition point : Type := option (Z * Z).
Definition G : point := Some (Gx, Gy).

(* Field arithmetic runs on machine-word integers (bigZ). *)
Definition field_p : bigZ := Eval vm_compute in BigZ.of_Z p.
Definition fmul (a b : bigZ) : bigZ := BigZ.modulo (BigZ.mul a b) field_p.
Definition fsub (a b : bigZ) : bigZ := BigZ.modulo (BigZ.sub a b) field_p.
Definition fadd (a b : bigZ) : bigZ := BigZ.modulo (BigZ.add a b) field_p.

Fixpoint pow_mod (b : bigZ) (e : positive) (m : bigZ) : bigZ :=
  match e with
  | xH => BigZ.modulo b m
  | xO e' => let r := pow_mod b e' m in BigZ.modulo (BigZ.mul r r) m
  | xI e' =>
      let r := pow_mod b e' m in
      BigZ.modulo (BigZ.mul (BigZ.modulo (BigZ.mul r r) m) b) m
  end.

(* inverse modulo a prime m, by Fermat's little theorem *)
Definition inv_mod (x : Z) (m : Z) : Z :=
  match m - 2 with
  | Z.pos e => BigZ.to_Z (pow_mod (BigZ.of_Z x) e (BigZ.of_Z m))
  | _ => 0
  end.

(* Jacobian coordinates (X, Y, Z) stand for the affine (X / Z^2, Y / Z^3);
   Z = 0 is the point at infinity. *)
Definition jacobian : Type := bigZ * bigZ * bigZ.

Definition jac_infinity : jacobian := (BigZ.one, BigZ.one, BigZ.zero).

Definition jac_of_point (P : point) : jacobian :=
  match P with
  | None => jac_infinity
  | Some (x, y) => (BigZ.of_Z x, BigZ.of_Z y, BigZ.one)
  end.

Definition jac_double (P : jacobian) : jacobian :=
  let '(x1, y1, z1) := P in
  if BigZ.eqb z1 BigZ.zero || BigZ.eqb y1 BigZ.zero then jac_infinity
  else
    let a := fmul x1 x1 in
    let b := fmul y1 y1 in
    let c := fmul b b in
    let xb := fadd x1 b in
    let d := fmul 2 (fsub (fsub (fmul xb xb) a) c) in
    let e := fmul 3 a in
    let f := fmul e e in
    let x3 := fsub f (fmul 2 d) in
    let y3 := fsub (fmul e (fsub d x3)) (fmul 8 c) in
    let z3 := fmul 2 (fmul y1 z1) in
    (x3, y3, z3).

Definition jac_add (P Q : jacobian) : jacobian :=
  let '(x1, y1, z1) := P in
  let '(x2, y2, z2) := Q in
  if BigZ.eqb z1 BigZ.zero then Q
  else if BigZ.eqb z2 BigZ.zero then P
  else
    let z1z1 := fmul z1 z1 in
    let z2z2 := fmul z2 z2 in
    let u1 := fmul x1 z2z2 in
    let u2 := fmul x2 z1z1 in
    let s1 := fmul y1 (fmul z2 z2z2) in
    let s2 := fmul y2 (fmul z1 z1z1) in
    let h := fsub u2 u1 in
    let r := fsub s2 s1 in
    if BigZ.eqb h BigZ.zero then
      if BigZ.eqb r BigZ.zero then jac_double P else jac_infinity
    else
      let hh := fmul h h in
      let hhh := fmul h hh in
      let v := fmul u1 hh in
      let x3 := fsub (fsub (fmul r r) hhh) (fmul 2 v) in
      let y3 := fsub (fmul r (fsub v x3)) (fmul s1 hhh) in
      let z3 := fmul h (fmul z1 z2) in
      (x3, y3, z3).

Fixpoint jac_mul_pos (k : positive) (P : jacobian) : jacobian :=
  match k with
  | xH => P
  | xO k' => jac_double (jac_mul_pos k' P)
  | xI k' => jac_add (jac_double (jac_mul_pos k' P)) P
  end.

Definition point_of_jac (P : jacobian) : point :=
  let '(x, y, z) := P in
  if BigZ.eqb z BigZ.zero then None
  else
    let zi := BigZ.of_Z (inv_mod (BigZ.to_Z z) p) in
    let zi2 := fmul zi zi in
    Some (BigZ.to_Z (fmul x zi2), BigZ.to_Z (fmul y (fmul zi zi2))).

Definition jac_mul (k : Z) (P : jacobian) : jacobian :=
  match k with
  | Z.pos k' => jac_mul_pos k' P
  | _ => jac_infinity
  end.

Definition point_add (P Q : point) : point :=
  point_of_jac (jac_add (jac_of_point P) (jac_of_point Q)).

Definition point_mul (k : Z) (P : point) : point :=
  point_of_jac (jac_mul k (jac_of_point P)).

(* A DER INTEGER at the head of [bs]: its value and the bytes after it.
   Negative and non-minimal encodings are refused. *)
Definition der_integer (bs : list byte) : option (Z * list byte) :=
  match bs with
  | tag :: len :: rest =>
      let l := Z.to_nat (byte_to_Z len) in
      let body := firstn l rest in
      if (byte_to_Z tag =? 2) && (byte_to_Z len <? 128) && (0 <? byte_to_Z len)
         && (length body =? l)%nat
      then
        match body with
        | b0 :: b1 :: _ =>
            if 128 <=? byte_to_Z b0 then None
            else if (byte_to_Z b0 =? 0) && (byte_to_Z b1 <? 128) then None
            else Some (from_bytes_big body, skipn l rest)
        | [b0] =>
            if 128 <=? byte_to_Z b0 then None
            else Some (from_bytes_big body, skipn l rest)
        | [] => None
        end
      else None
  | _ => None
  end.

(* the DER SEQUENCE { INTEGER r, INTEGER s } of an ECDSA signature *)
Definition der_decode (signature : list byte) : option (Z * Z) :=
  match signature with
  | tag :: len :: rest =>
      if (byte_to_Z tag =? 48) && (byte_to_Z len <? 128)
         && (Z.of_nat (length rest) =? byte_to_Z len)
      then
        match der_integer rest with
        | Some (r, rest') =>
            match der_integer rest' with
            | Some (s, []) => Some (r, s)
            | _ => None
            end
        | None => None
        end
      else None
  | _ => None
  end.

(* the curve equation of ECDSA verification (SEC 1, 4.1.4, steps 4 to 8):
   the point (e / s) G + (r / s) Q has x-coordinate r modulo n *)
Definition ecdsa_equation (Q : point) (e r s : Z) : bool :=
  let w := inv_mod s n in
  let u1 := (e * w) mod n in
  let u2 := (r * w) mod n in
  match point_of_jac (jac_add (jac_mul u1 (jac_of_point G))
                               (jac_mul u2 (jac_of_point Q))) with
  | None => false
  | Some (x, _) => x mod n =? r
  end.

(* ECDSA verification of the pair (r, s) on the digest e: both components
   in [1, n - 1] (step 1), then the equation *)
Definition ecdsa_verify (Q : point) (e r s : Z) : bool :=
  if (1 <=? r) && (r <? n) && (1 <=? s) && (s <? n)
  then ecdsa_equation Q e r s
  else false.

(* what public_key.verify(signature, data, ec.ECDSA(hashes.SHA256())) does *)
Inductive verify_outcome : Type :=
  | Returns
  | RaisesInvalidSignature
  | RaisesOther.

(* a public key object: anything with a verify method *)
Record PublicKey : Type := {
  verify : list byte -> list byte -> verify_outcome
}.

(* the key object of the cryptography package for the curve point Q *)
Definition EllipticCurvePublicKey (Q : point) : PublicKey :=
  {| verify := fun signature data =>
       match der_decode signature with
       | Some (r, s) =>
           if ecdsa_verify Q (from_bytes_big (SHA256.sha256 data)) r s
           then Returns else RaisesInvalidSignature
       | None => RaisesInvalidSignature
       end |}.

(* verify_signature(transaction, signature, public_key); None is an
   exception other than InvalidSignature, which the source lets through *)
Definition verify_signature (transaction : Transaction) (signature : list byte)
    (public_key : PublicKey) : option bool :=
  let tx_data := encode (tx_json transaction) in
  let message_hash := SHA256.sha256 tx_data in
  match verify public_key signature message_hash with
  | Returns => Some true
  | RaisesInvalidSignature => Some false
  | RaisesOther => None
  end.

(* the S component of a signature exceeds half the group order *)
Definition high_s (signature : list byte) : bool :=
  match der_decode signature with
  | Some (_, s) => n / 2 <? s
  | None => false
  end.

End Signature.

(** ** [native/assembly_simulator.py] and [native/rust_simulator.py] *)

Module AssemblySimulator.
Import PyBytes.

(* bit_rotate_left(value, count, bits); a width of zero divides by zero and
   a negative one is a negative shift count, so both raise *)
Definition bit_rotate_left (value count bits : Z) : option Z :=
  if bits <=? 0 then None
  else
    let mask := Z.shiftl 1 bits - 1 in
    let value := Z.land value mask in
    let count := count mod bits in
    Some (Z.land (Z.lor (Z.shiftl value count) (Z.shiftr value (bits - count))) mask).

Definition bit_rotate_right (value count bits : Z) : option Z :=
  if bits <=? 0 then None
  else
    let mask := Z.shiftl 1 bits - 1 in
    let value := Z.land value mask in
    let count := count mod bits in
    Some (Z.land (Z.lor (Z.shiftr value count) (Z.shiftl value (bits - count))) mask).

(* for i, byte in enumerate(data): result |= byte << (i * 8) *)
Fixpoint little_endian_from (data : list byte) (i : Z) (result : Z) : Z :=
  match data with
  | [] => result
  | b :: rest =>
      little_endian_from rest (i + 1) (Z.lor result (Z.shiftl (byte_to_Z b) (i * 8)))
  end.

Definition little_endian_to_int (data : list byte) : Z := little_endian_from data 0 0.

(* result[i] = (value >> (i * 8)) & 0xFF for i in range(length) *)
Definition int_to_little_endian (value : Z) (length : nat) : list byte :=
  map (fun i => Z_to_byte (Z.land (Z.shiftr value (Z.of_nat i * 8)) 255)) (seq 0 length).

(* fast_add_mod and fast_mul_mod; Python's % raises on a zero modulus *)
Definition fast_add_mod (a b md : Z) : option Z :=
  if md =? 0 then None else Some ((a + b) mod md).
Definition fast_mul_mod (a b md : Z) : option Z :=
  if md =? 0 then None else Some ((a * b) mod md).

End AssemblySimulator.

Module RustSimulator.

(* fast_hash on bytes *)
Definition fast_hash (data : list byte) : list byte := SHA256.sha256 data.

End RustSimulator.

(** ** [core/block.py] *)

(* s[:k] and c * k of Python, for any int k *)
Module PyStr.

Definition prefix_to (s : string) (k : Z) : string :=
  let len := Z.of_nat (String.length s) in
  let stop := if k <? 0 then Z.max 0 (len + k) else k in
  string_of_list_ascii (firstn (Z.to_nat stop) (list_ascii_of_string s)).

Definition repeat_char (c : ascii) (k : Z) : string :=
  string_of_list_ascii (repeat c (Z.to_nat k)).

(* hex(n)[2:] for n >= 0 *)
Fixpoint hex_digits (fuel : nat) (n : Z) (acc : string) : string :=
  match fuel with
  | O => acc
  | S f =>
      let acc' := String (PyBytes.hex_digit (n mod 16)) acc in
      if n / 16 =? 0 then acc' else hex_digits f (n / 16) acc'
  end.

Definition hex_int (n : Z) : string :=
  hex_digits (S (Z.to_nat (Z.log2 n))) n EmptyString.

(* l[i] for a Python list, None for the IndexError *)
Definition index {A : Type} (l : list A) (i : Z) : option A :=
  let len := Z.of_nat (length l) in
  if i <? 0 then
    if len + i <? 0 then None else nth_error l (Z.to_nat (len + i))
  else nth_error l (Z.to_nat i).

(* float(n) for an int of magnitude below 2^63 *)
Definition float_of_int (n : Z) : float :=
  if n <? 0 then PrimFloat.opp (PrimFloat.of_uint63 (Uint63.of_Z (- n)))
  else PrimFloat.of_uint63 (Uint63.of_Z n).

End PyStr.

Module BlockHeader.
Import PyBytes Json.

Record t : Type := {
  version : Z;
  prev_block_hash : string;
  merkle_root : string;
  timestamp : float;
  difficulty_target : Z;
  nonce : Z;
  block_height : Z;
  extra_nonce : Z;
  chain_work : string
}.

Definition to_dict (h : t) : json :=
  JDict [ ("version", JInt (version h));
          ("prev_block_hash", JStr (prev_block_hash h));
          ("merkle_root", JStr (merkle_root h));
          ("timestamp", JFloat (timestamp h));
          ("difficulty_target", JInt (difficulty_target h));
          ("nonce", JInt (nonce h));
          ("block_height", JInt (block_height h));
          ("extra_nonce", JInt (extra_nonce h));
          ("chain_work", JStr (chain_work h)) ].

Definition serialize (h : t) : list byte :=
  let data := encode (dumps (to_dict h)) in
  let encoded := Base64.b64encode data in
  encoded ++ [x00] ++ SHA256.sha256 data.

Definition hash (h : t) : string :=
  let serialized := serialize h in
  let hash1 := RustSimulator.fast_hash serialized in
  let hash2 := SHA3.sha3_256 hash1 in
  let hash3 := SHA256.sha256 (SHA256.sha256 hash2) in
  let hash3_int := AssemblySimulator.little_endian_to_int (firstn 8 hash3) in
  match AssemblySimulator.bit_rotate_left hash3_int 7 64 with
  | Some rotated =>
      let hash3_final := AssemblySimulator.int_to_little_endian rotated 8 ++ skipn 8 hash3 in
      hex hash3_final
  | None => EmptyString
  end.

Definition set_nonce (h : t) (n en : Z) (ts : float) : t :=
  {| version := version h; prev_block_hash := prev_block_hash h;
     merkle_root := merkle_root h; timestamp := ts;
     difficulty_target := difficulty_target h; nonce := n;
     block_height := block_height h; extra_nonce := en;
     chain_work := chain_work h |}.

End BlockHeader.

Module Block.
Import PyBytes Tx.

Record t : Type := {
  index : Z;
  transactions : list Transaction;
  previous_hash : string;
  timestamp : float;
  difficulty : Z;
  nonce : Z;
  extra_nonce : Z;
  merkle_root : string;
  chain_work : string;
  header : BlockHeader.t;
  hash : string
}.

Definition empty_digest : string := hex (SHA256.sha256 []).

Definition _hash_transaction (tx : Transaction) : string :=
  let tx_str := tx_json tx in
  let hash1 := SHA256.sha256 (encode tx_str) in
  let hash2 := SHA3.sha3_256 hash1 in
  hex (SHA256.sha256 hash2).

(* hashlib.sha256(hashlib.sha256(combined.encode()).digest()).hexdigest()
   for combined = left + right *)
Definition pair_hash (left right : string) : string :=
  let combined := left +:+ right in
  hex (SHA256.sha256 (SHA256.sha256 (encode combined))).

(* for i in range(0, len(tx_hashes), 2): ... new_level.append(new_hash)
   A lone last element is the IndexError of tx_hashes[i + 1]. *)
Fixpoint pair_level (tx_hashes : list string) : option (list string) :=
  match tx_hashes with
  | [] => Some []
  | [_] => None
  | a :: b :: rest =>
      match pair_level rest with
      | Some new_level => Some (pair_hash a b :: new_level)
      | None => None
      end
  end.

(* one turn of the while loop: duplicate the last hash of an odd level,
   then pair *)
Definition merkle_turn (tx_hashes : list string) : option (list string) :=
  let tx_hashes' :=
    if Nat.odd (length tx_hashes)
    then tx_hashes ++ [List.last tx_hashes EmptyString]
    else tx_hashes in
  pair_level tx_hashes'.

(* while len(tx_hashes) > 1: ...   Each turn halves the level (rounding up),
   so a level of n hashes is done within n turns, the fuel given. *)
Fixpoint merkle_loop (fuel : nat) (tx_hashes : list string) : option (list string) :=
  match fuel with
  | O => Some tx_hashes
  | S fuel' =>
      if (1 <? length tx_hashes)%nat then
        match merkle_turn tx_hashes with
        | Some new_level => merkle_loop fuel' new_level
        | None => None
        end
      else Some tx_hashes
  end.

Definition merkle_of_hashes (tx_hashes : list string) : option string :=
  match merkle_loop (length tx_hashes) tx_hashes with
  | Some (root :: _) => Some root
  | Some [] => Some empty_digest
  | None => None
  end.

Definition _calculate_merkle_root (txs : list Transaction) : option string :=
  match txs with
  | [] => Some empty_digest
  | _ => merkle_of_hashes (map _hash_transaction txs)
  end.

(* work = 2 ** (256 - difficulty); hex(int(work))[2:]
   A negative exponent makes the power a float below one, whose int is 0. *)
Definition _calculate_chain_work (difficulty : Z) : string :=
  let work := if 0 <=? 256 - difficulty then 2 ^ (256 - difficulty) else 0 in
  PyStr.hex_int work.

(* Block(index, transactions, previous_hash, difficulty, nonce, extra_nonce),
   with the reading of time.time() *)
Definition init (index : Z) (transactions : list Transaction) (previous_hash : string)
    (difficulty nonce extra_nonce : Z) (now : float) : option t :=
  match _calculate_merkle_root transactions with
  | None => None
  | Some root =>
      let work := _calculate_chain_work difficulty in
      let hd := {| BlockHeader.version := 1;
                   BlockHeader.prev_block_hash := previous_hash;
                   BlockHeader.merkle_root := root;
                   BlockHeader.timestamp := now;
                   BlockHeader.difficulty_target := difficulty;
                   BlockHeader.nonce := nonce;
                   BlockHeader.block_height := index;
                   BlockHeader.extra_nonce := extra_nonce;
                   BlockHeader.chain_work := work |} in
      Some {| index := index; transactions := transactions;
              previous_hash := previous_hash; timestamp := now;
              difficulty := difficulty; nonce := nonce; extra_nonce := extra_nonce;
              merkle_root := root; chain_work := work; header := hd;
              hash := BlockHeader.hash hd |}
  end.

(* self.hash[:self.difficulty] == '0' * self.difficulty *)
Definition meets_target (hash : string) (difficulty : Z) : bool :=
  String.eqb (PyStr.prefix_to hash difficulty) (PyStr.repeat_char "0" difficulty).

Definition with_attempt (b : t) (iteration : Z) (now : float) : t :=
  let n := iteration in
  let en := (iteration / 1000) mod 1000000 in
  let hd := BlockHeader.set_nonce (header b) n en now in
  {| index := index b; transactions := transactions b;
     previous_hash := previous_hash b; timestamp := timestamp b;
     difficulty := difficulty b; nonce := n; extra_nonce := en;
     merkle_root := merkle_root b; chain_work := chain_work b; header := hd;
     hash := BlockHeader.hash hd |}.

(* for iteration in range(max_iterations): ...; [clock i] is the reading of
   time.time() in turn i.  The block is returned as the loop leaves it. *)
Fixpoint mine_from (clock : Z -> float) (turns : nat) (iteration : Z) (b : t) : t * bool :=
  match turns with
  | O => (b, false)
  | S turns' =>
      let b' := with_attempt b iteration (clock iteration) in
      if meets_target (hash b') (difficulty b') then (b', true)
      else mine_from clock turns' (iteration + 1) b'
  end.

Definition mine (b : t) (max_iterations : Z) (clock : Z -> float) : t * bool :=
  mine_from clock (Z.to_nat max_iterations) 0 b.

Definition validate (b : t) (now : float) : option bool :=
  if negb (String.eqb (hash b) (BlockHeader.hash (header b))) then Some false
  else if negb (meets_target (hash b) (difficulty b)) then Some false
  else
    match _calculate_merkle_root (transactions b) with
    | None => None
    | Some root =>
        if negb (String.eqb (merkle_root b) root) then Some false
        else if PrimFloat.ltb (PrimFloat.add now 7200) (timestamp b) then Some false
        else if (length (transactions b) =? 0)%nat && negb (index b =? 0) then Some false
        else Some true
    end.

End Block.

(** ** [core/genesis.py] *)

Module Genesis.
Import Tx Json.

Definition genesis_address : string := "genesis_address_00000000000000000000000000000000".
Definition zero_hash : string := PyStr.repeat_char "0" 64.

Definition genesis_transaction : Transaction :=
  {| tx_id := Some zero_hash;
     inputs := Some [];
     outputs := Some [ {| address := Some genesis_address;
                          amount := Some 0%float;
                          script_pubkey := Some "OP_GENESIS" |} ];
     tx_json :=
       dumps (JDict [ ("tx_id", JStr zero_hash);
                      ("inputs", JList []);
                      ("outputs", JList [ JDict [ ("address", JStr genesis_address);
                                                  ("amount", JFloat 0);
                                                  ("script_pubkey", JStr "OP_GENESIS") ] ]);
                      ("is_coinbase", JBool true);
                      ("is_genesis", JBool true) ]) |}.

(* [t_init] is the clock reading inside Block(...), [t_set] the later one
   assigned to genesis_block.timestamp *)
Definition create_genesis_block (t_init t_set : float) : option Block.t :=
  match Block.init 0 [genesis_transaction] zero_hash 4 0 0 t_init with
  | None => None
  | Some b =>
      Some {| Block.index := Block.index b;
              Block.transactions := Block.transactions b;
              Block.previous_hash := Block.previous_hash b;
              Block.timestamp := t_set;
              Block.difficulty := Block.difficulty b;
              Block.nonce := Block.nonce b;
              Block.extra_nonce := Block.extra_nonce b;
              Block.merkle_root := Block.merkle_root b;
              Block.chain_work := Block.chain_work b;
              Block.header := Block.header b;
              Block.hash := BlockHeader.hash (Block.header b) |}
  end.

End Genesis.

(** ** [core/blockchain.py]: the UTXO set *)

Module UTXO.

(* the dictionary _update_utxo_set stores for an output *)
Record t : Type := {
  address : string;
  amount : float;
  script_pubkey : string;
  tx_id : string;
  output_index : Z
}.

End UTXO.

Module UTXOSet.

Record t : Type := {
  utxos : gmap string (gmap Z UTXO.t);
  address_utxos : gmap string (gset (string * Z));
  total_supply : float
}.

Definition init : t :=
  {| utxos := ∅; address_utxos := ∅; total_supply := 0%float |}.

Definition add_utxo (s : t) (tx_id : string) (output_index : Z) (utxo_data : UTXO.t) : t :=
  let inner := default ∅ (utxos s !! tx_id) in
  let address := UTXO.address utxo_data in
  {| utxos := <[tx_id := <[output_index := utxo_data]> inner]> (utxos s);
     address_utxos :=
       if String.eqb address EmptyString then address_utxos s
       else <[address := default ∅ (address_utxos s !! address) ∪ {[(tx_id, output_index)]}]>
              (address_utxos s);
     total_supply := PrimFloat.add (total_supply s) (UTXO.amount utxo_data) |}.

Definition remove_utxo (s : t) (tx_id : string) (output_index : Z) : t :=
  match utxos s !! tx_id with
  | None => s
  | Some inner =>
      match inner !! output_index with
      | None => s
      | Some utxo_data =>
          let address := UTXO.address utxo_data in
          let inner' := delete output_index inner in
          {| utxos := if decide (inner' = ∅) then delete tx_id (utxos s)
                      else <[tx_id := inner']> (utxos s);
             address_utxos :=
               if String.eqb address EmptyString then address_utxos s
               else <[address := default ∅ (address_utxos s !! address)
                                 ∖ {[(tx_id, output_index)]}]> (address_utxos s);
             total_supply := PrimFloat.sub (total_supply s) (UTXO.amount utxo_data) |}
      end
  end.

Definition get_utxo (s : t) (tx_id : string) (output_index : Z) : option UTXO.t :=
  default ∅ (utxos s !! tx_id) !! output_index.

(* the entries of address_utxos.get(address, set()), in the set's order *)
Definition address_entries (s : t) (address : string) : list (string * Z) :=
  elements (default ∅ (address_utxos s !! address)).

Definition get_utxos_for_address (s : t) (address : string)
  : list (string * Z * UTXO.t) :=
  flat_map (fun e =>
              match get_utxo s (fst e) (snd e) with
              | Some utxo => [(fst e, snd e, utxo)]
              | None => []
              end)
           (address_entries s address).

End UTXOSet.

(** ** [core/blockchain.py]: the chain *)

Module Blockchain.
Import PyBytes Tx Json.

Record t : Type := {
  chain : list Block.t;
  difficulty : Z;
  block_time_target : float;
  utxo_set : UTXOSet.t;
  pending_transactions : list Transaction;
  mempool : gmap string Transaction;
  difficulty_adjustment_interval : Z;
  last_adjustment_block : Z
}.

(* an input that the loops act on: prev_tx_id and prev_output_index >= 0 *)
Definition addressable (input_tx : TxInput) : bool :=
  negb (String.eqb (get (prev_tx_id input_tx) EmptyString) EmptyString)
  && (0 <=? get (prev_output_index input_tx) (-1)).

Definition spend_input (s : UTXOSet.t) (input_tx : TxInput) : UTXOSet.t :=
  if addressable input_tx
  then UTXOSet.remove_utxo s (get (prev_tx_id input_tx) EmptyString)
                           (get (prev_output_index input_tx) (-1))
  else s.

(* utxo_data = {'address': ..., 'amount': ..., 'script_pubkey': ..., 'tx_id': tx_id,
   'output_index': i} *)
Definition utxo_data_of (id : string) (i : Z) (output : TxOutput) : UTXO.t :=
  {| UTXO.address := get (address output) EmptyString;
     UTXO.amount := get (amount output) 0%float;
     UTXO.script_pubkey := get (script_pubkey output) EmptyString;
     UTXO.tx_id := id;
     UTXO.output_index := i |}.

(* for i, output in enumerate(tx.get('outputs', [])): ... add_utxo(tx_id, i, utxo_data) *)
Fixpoint create_outputs (s : UTXOSet.t) (id : string) (i : Z) (outs : list TxOutput)
  : UTXOSet.t :=
  match outs with
  | [] => s
  | output :: rest =>
      create_outputs (UTXOSet.add_utxo s id i (utxo_data_of id i output)) id (i + 1) rest
  end.

(* the body of the loop over block.transactions *)
Definition apply_transaction (s : UTXOSet.t) (tx : Transaction) : UTXOSet.t :=
  let id := get (tx_id tx) EmptyString in
  let s1 := fold_left spend_input (get (inputs tx) []) s in
  create_outputs s1 id 0 (get (outputs tx) []).

Definition _update_utxo_set_on (s : UTXOSet.t) (block : Block.t) : UTXOSet.t :=
  fold_left apply_transaction (Block.transactions block) s.

Definition with_utxo_set (bc : t) (s : UTXOSet.t) : t :=
  {| chain := chain bc; difficulty := difficulty bc;
     block_time_target := block_time_target bc; utxo_set := s;
     pending_transactions := pending_transactions bc; mempool := mempool bc;
     difficulty_adjustment_interval := difficulty_adjustment_interval bc;
     last_adjustment_block := last_adjustment_block bc |}.

Definition _update_utxo_set (bc : t) (block : Block.t) : t :=
  with_utxo_set bc (_update_utxo_set_on (utxo_set bc) block).

(* Blockchain(difficulty, block_time_target), with the two clock readings
   of create_genesis_block *)
Definition init (difficulty : Z) (block_time_target : float) (t_init t_set : float)
  : option t :=
  match Genesis.create_genesis_block t_init t_set with
  | None => None
  | Some genesis =>
      Some (_update_utxo_set
              {| chain := [genesis]; difficulty := difficulty;
                 block_time_target := block_time_target;
                 utxo_set := UTXOSet.init;
                 pending_transactions := []; mempool := ∅;
                 difficulty_adjustment_interval := 2016;
                 last_adjustment_block := 0 |}
              genesis)
  end.

Definition with_difficulty (bc : t) (d : Z) (last : Z) : t :=
  {| chain := chain bc; difficulty := d;
     block_time_target := block_time_target bc; utxo_set := utxo_set bc;
     pending_transactions := pending_transactions bc; mempool := mempool bc;
     difficulty_adjustment_interval := difficulty_adjustment_interval bc;
     last_adjustment_block := last |}.

(* None is the IndexError of an index outside the chain *)
Definition _adjust_difficulty (bc : t) : option t :=
  let len := Z.of_nat (length (chain bc)) in
  let interval := difficulty_adjustment_interval bc in
  if len <? interval then Some bc
  else if len - last_adjustment_block bc <? interval then Some bc
  else
    match PyStr.index (chain bc) (- interval), PyStr.index (chain bc) (-1) with
    | Some start_block, Some end_block =>
        let time_span :=
          PrimFloat.sub (Block.timestamp end_block) (Block.timestamp start_block) in
        let expected_time :=
          PrimFloat.mul (block_time_target bc) (PyStr.float_of_int interval) in
        let ratio :=
          if PrimFloat.ltb 0 time_span then PrimFloat.div expected_time time_span
          else 1%float in
        let d :=
          if PrimFloat.ltb 1.1 ratio then Z.max 1 (difficulty bc - 1)
          else if PrimFloat.ltb ratio 0.9 then Z.min 32 (difficulty bc + 1)
          else difficulty bc in
        Some (with_difficulty bc d len)
    | _, _ => None
    end.

(* for input_tx in tx.get('inputs', []): ... input_sum += utxo.get('amount', 0);
   None is the early return False *)
Fixpoint sum_inputs (s : UTXOSet.t) (ins : list TxInput) (input_sum : float)
  : option float :=
  match ins with
  | [] => Some input_sum
  | input_tx :: rest =>
      if addressable input_tx then
        match UTXOSet.get_utxo s (get (prev_tx_id input_tx) EmptyString)
                               (get (prev_output_index input_tx) (-1)) with
        | None => None
        | Some utxo => sum_inputs s rest (PrimFloat.add input_sum (UTXO.amount utxo))
        end
      else sum_inputs s rest input_sum
  end.

(* sum(output.get('amount', 0) for output in tx.get('outputs', [])): the
   amounts added from left to right, each addition rounded to binary64
   (CPython 3.12 and later carry a correction term through a sum of floats;
   the additions here are the plain ones of the earlier versions) *)
Definition sum_outputs (outs : list TxOutput) : float :=
  fold_left (fun acc output => PrimFloat.add acc (get (amount output) 0%float)) outs 0%float.

Definition _validate_transaction (bc : t) (tx : Transaction) : bool :=
  match inputs tx, outputs tx with
  | Some ins, Some outs =>
      match sum_inputs (utxo_set bc) ins 0%float with
      | None => false
      | Some input_sum =>
          let output_sum := sum_outputs outs in
          if PrimFloat.ltb input_sum output_sum then false else true
      end
  | _, _ => false
  end.

Definition add_transaction (bc : t) (transaction : Transaction) : t * bool :=
  if negb (_validate_transaction bc transaction) then (bc, false)
  else
    let id := get (tx_id transaction) EmptyString in
    match mempool bc !! id with
    | Some _ => (bc, false)
    | None =>
        ({| chain := chain bc; difficulty := difficulty bc;
            block_time_target := block_time_target bc; utxo_set := utxo_set bc;
            pending_transactions := pending_transactions bc ++ [transaction];
            mempool := <[id := transaction]> (mempool bc);
            difficulty_adjustment_interval := difficulty_adjustment_interval bc;
            last_adjustment_block := last_adjustment_block bc |}, true)
    end.

Definition halving_interval : Z := 210000.

(* 50.0 / (2 ** halvings); float(2 ** halvings) overflows from 2 ** 1024 on,
   which is the None *)
Definition block_reward (halvings : Z) : option float :=
  if 1024 <=? halvings then None
  else Some (PrimFloat.div 50 (Z.ldexp 1 halvings)).

Definition p2pkh_script (miner_address : string) : string :=
  "OP_DUP OP_HASH160 " +:+ miner_address +:+ " OP_EQUALVERIFY OP_CHECKSIG".

Definition _create_coinbase_transaction (bc : t) (miner_address : string) (now : float)
  : option Transaction :=
  let len := Z.of_nat (length (chain bc)) in
  let halvings := len / halving_interval in
  match block_reward halvings with
  | None => None
  | Some reward =>
      let id := hex (SHA256.sha256
                       (encode (PyFloat.repr now +:+ miner_address +:+ PyFloat.str_int len))) in
      let script := p2pkh_script miner_address in
      Some {| tx_id := Some id;
              inputs := Some [];
              outputs := Some [ {| address := Some miner_address;
                                   amount := Some reward;
                                   script_pubkey := Some script |} ];
              tx_json :=
                dumps (JDict [ ("tx_id", JStr id);
                               ("inputs", JList []);
                               ("outputs", JList [ JDict [ ("address", JStr miner_address);
                                                           ("amount", JFloat reward);
                                                           ("script_pubkey", JStr script) ] ]);
                               ("is_coinbase", JBool true) ]) |}
  end.

(* len(json.dumps(tx).encode('utf-8')): the dump is ASCII, and as long as
   the sorted one *)
Definition tx_size (tx : Transaction) : Z := Z.of_nat (String.length (tx_json tx)).

(* len(json.dumps(block_transactions).encode('utf-8')) *)
Definition list_size (txs : list Transaction) : Z :=
  match txs with
  | [] => 2
  | _ => 2 + fold_left (fun acc tx => acc + tx_size tx) txs 0
           + 2 * (Z.of_nat (length txs) - 1)
  end.

Definition max_block_size : Z := 1000000.

(* for tx in self.pending_transactions[:]: ...; the transactions taken, in
   order.  Each one taken is then the first of the pending list, which is
   where list.remove finds it. *)
Fixpoint take_pending (copy : list Transaction) (block_transactions : list Transaction)
  : list Transaction :=
  match copy with
  | [] => block_transactions
  | tx :: rest =>
      if max_block_size <? list_size block_transactions + tx_size tx
      then block_transactions
      else take_pending rest (block_transactions ++ [tx])
  end.

Definition create_block (bc : t) (miner_address : string) (t_coinbase t_block : float)
  : option (t * Block.t) :=
  let taken := take_pending (pending_transactions bc) [] in
  let bc' :=
    {| chain := chain bc; difficulty := difficulty bc;
       block_time_target := block_time_target bc; utxo_set := utxo_set bc;
       pending_transactions := skipn (length taken) (pending_transactions bc);
       mempool := mempool bc;
       difficulty_adjustment_interval := difficulty_adjustment_interval bc;
       last_adjustment_block := last_adjustment_block bc |} in
  match _create_coinbase_transaction bc' miner_address t_coinbase,
        PyStr.index (chain bc) (-1) with
  | Some coinbase, Some tip =>
      match Block.init (Z.of_nat (length (chain bc))) (coinbase :: taken)
                       (Block.hash tip) (difficulty bc) 0 0 t_block with
      | Some block => Some (bc', block)
      | None => None
      end
  | _, _ => None
  end.

Definition add_block (bc : t) (block : Block.t) (now : float) : option (t * bool) :=
  match Block.validate block now with
  | None => None
  | Some false => Some (bc, false)
  | Some true =>
      match PyStr.index (chain bc) (-1) with
      | None => None
      | Some tip =>
          if negb (String.eqb (Block.previous_hash block) (Block.hash tip))
          then Some (bc, false)
          else if negb (Block.index block =? Z.of_nat (length (chain bc)))
          then Some (bc, false)
          else if negb (forallb (_validate_transaction bc) (skipn 1 (Block.transactions block)))
          then Some (bc, false)
          else
            let bc1 :=
              {| chain := chain bc ++ [block]; difficulty := difficulty bc;
                 block_time_target := block_time_target bc; utxo_set := utxo_set bc;
                 pending_transactions := pending_transactions bc; mempool := mempool bc;
                 difficulty_adjustment_interval := difficulty_adjustment_interval bc;
                 last_adjustment_block := last_adjustment_block bc |} in
            match _adjust_difficulty (_update_utxo_set bc1 block) with
            | Some bc2 => Some (bc2, true)
            | None => None
            end
      end
  end.

(* the clock readings of one mine_block call *)
Record clock : Type := {
  at_coinbase : float;
  at_block : float;
  at_attempt : Z -> float;
  at_validate : float
}.

Definition mine_block (bc : t) (miner_address : string) (ck : clock)
  : option (t * option Block.t) :=
  match create_block bc miner_address (at_coinbase ck) (at_block ck) with
  | None => None
  | Some (bc1, block) =>
      match Block.mine block 1000000 (at_attempt ck) with
      | (mined, true) =>
          match add_block bc1 mined (at_validate ck) with
          | None => None
          | Some (bc2, true) => Some (bc2, Some mined)
          | Some (bc2, false) => Some (bc2, None)
          end
      | (_, false) => Some (bc1, None)
      end
  end.

(* for i in range(1, len(self.chain)): ...; [now i] is the clock reading
   when block i is validated *)
Fixpoint validate_from (now : Z -> float) (i : Z) (previous : Block.t) (rest : list Block.t)
  : option bool :=
  match rest with
  | [] => Some true
  | current :: rest' =>
      match Block.validate current (now i) with
      | None => None
      | Some false => Some false
      | Some true =>
          if negb (String.eqb (Block.previous_hash current) (Block.hash previous))
          then Some false
          else validate_from now (i + 1) current rest'
      end
  end.

Definition validate_chain (bc : t) (now : Z -> float) : option bool :=
  match chain bc with
  | [] => Some true
  | first :: rest => validate_from now 1 first rest
  end.

End Blockchain.

(** ** What the statements below speak of *)

Module Ledger.
Import Tx.

(* the number a finite binary64 amount stands for (0 for an infinity or a
   NaN, which [finite] tells apart) *)
Definition value_of (f : float) : Qc :=
  match Prim2SF f with
  | S754_finite s m e =>
      let v := (inject_Z (Z.pos m) * Qpower 2 e)%Q in
      Q2Qc (if s then Qopp v else v)
  | _ => Q2Qc 0
  end.

Definition finite (f : float) : bool :=
  match Prim2SF f with
  | S754_zero _ | S754_finite _ _ _ => true
  | _ => false
  end.

(* the sum of the amounts of the outputs stored under one transaction id *)
Definition inner_sum (m : gmap Z UTXO.t) : Qc :=
  map_fold (fun _ u acc => (acc + value_of (UTXO.amount u))%Qc) (Q2Qc 0) m.

Definition outer_sum (ms : gmap string (gmap Z UTXO.t)) : Qc :=
  map_fold (fun _ m acc => (acc + inner_sum m)%Qc) (Q2Qc 0) ms.

(* the sum of the amounts of all UTXOs of the set *)
Definition utxo_sum (s : UTXOSet.t) : Qc := outer_sum (UTXOSet.utxos s).

(* the subsidy of the block at height h: 50 coins, halved every 210000 blocks *)
Definition subsidy (h : Z) : Qc :=
  (Q2Qc 50 / Q2Qc (inject_Z (2 ^ (h / Blockchain.halving_interval))))%Qc.

(* the sum of the subsidies of the n heights from h on *)
Fixpoint subsidies (h : Z) (n : nat) : Qc :=
  match n with
  | O => Q2Qc 0
  | S n' => (subsidy h + subsidies (h + 1) n')%Qc
  end.

(* the reward the code computes after [halvings] halvings is a finite float
   that stands for 50 / 2 ^ halvings *)
Definition reward_is_exact (halvings : Z) : bool :=
  match Blockchain.block_reward halvings with
  | Some reward =>
      finite reward
      && Qc_eq_bool (value_of reward) (Q2Qc 50 / Q2Qc (inject_Z (2 ^ halvings)))%Qc
  | None => false
  end.

(* every addressable input names an output that is still unspent when its
   turn comes (so no outpoint is named twice) *)
Fixpoint inputs_spendable (s : UTXOSet.t) (ins : list TxInput) : bool :=
  match ins with
  | [] => true
  | input_tx :: rest =>
      if Blockchain.addressable input_tx then
        match UTXOSet.get_utxo s (get (prev_tx_id input_tx) EmptyString)
                               (get (prev_output_index input_tx) (-1)) with
        | Some _ => inputs_spendable (Blockchain.spend_input s input_tx) rest
        | None => false
        end
      else inputs_spendable s rest
  end.

(* the amounts those inputs take out of the set *)
Fixpoint spent (s : UTXOSet.t) (ins : list TxInput) : Qc :=
  match ins with
  | [] => Q2Qc 0
  | input_tx :: rest =>
      if Blockchain.addressable input_tx then
        match UTXOSet.get_utxo s (get (prev_tx_id input_tx) EmptyString)
                               (get (prev_output_index input_tx) (-1)) with
        | Some u =>
            (value_of (UTXO.amount u) + spent (Blockchain.spend_input s input_tx) rest)%Qc
        | None => spent s rest
        end
      else spent s rest
  end.

(* the transaction spends unspent outputs, and no output is stored under
   its id once its inputs are spent *)
Definition applies_cleanly (s : UTXOSet.t) (tx : Transaction) : bool :=
  let ins := get (inputs tx) [] in
  inputs_spendable s ins
  && match UTXOSet.utxos (fold_left Blockchain.spend_input ins s)
           !! get (tx_id tx) EmptyString with
     | None => true
     | Some _ => false
     end.

(* every unspent output of t is one of s *)
Definition sub_utxos (t s : UTXOSet.t) : Prop :=
  forall id i u, UTXOSet.get_utxo t id i = Some u -> UTXOSet.get_utxo s id i = Some u.

(* the amount of the output an input names, 0.0 when there is none *)
Definition named_amount (s : UTXOSet.t) (input_tx : TxInput) : float :=
  match UTXOSet.get_utxo s (get (prev_tx_id input_tx) EmptyString)
                         (get (prev_output_index input_tx) (-1)) with
  | Some u => UTXO.amount u
  | None => 0%float
  end.


(* the inputs validation looks at: a non-empty prev_tx_id and a
   prev_output_index that is not negative *)
Definition addressable_inputs (ins : list TxInput) : list TxInput :=
  filter (fun i => Blockchain.addressable i = true) ins.

(* the binary64 sum of the amounts named by those inputs, from 0.0 and from
   left to right, one term per input *)
Definition input_sum (s : UTXOSet.t) (ins : list TxInput) : float :=
  fold_left (fun acc i => PrimFloat.add acc (named_amount s i)) (addressable_inputs ins)
            0%float.

(* the same amounts and the amounts of the outputs, added as numbers *)
Definition input_total (s : UTXOSet.t) (ins : list TxInput) : Qc :=
  fold_right (fun i acc => (value_of (named_amount s i) + acc)%Qc) (Q2Qc 0)
             (addressable_inputs ins).

Definition output_total (outs : list TxOutput) : Qc :=
  fold_right (fun o acc => (value_of (get (amount o) 0%float) + acc)%Qc) (Q2Qc 0) outs.

(* the fee of a transaction: what its inputs name less what its outputs carry *)
Definition fee (s : UTXOSet.t) (tx : Transaction) : Qc :=
  (input_total s (get (inputs tx) []) - output_total (get (outputs tx) []))%Qc.

Fixpoint all_clean (s : UTXOSet.t) (txs : list Transaction) : bool :=
  match txs with
  | [] => true
  | tx :: rest =>
      applies_cleanly s tx && all_clean (Blockchain.apply_transaction s tx) rest
  end.

Fixpoint fees (s : UTXOSet.t) (txs : list Transaction) : Qc :=
  match txs with
  | [] => Q2Qc 0
  | tx :: rest => (fee s tx + fees (Blockchain.apply_transaction s tx) rest)%Qc
  end.

(* the first transaction is a coinbase as _create_coinbase_transaction
   builds it at height h: no inputs, one output of the reward of that height *)
Definition coinbase_of (h : Z) (tx : Transaction) : bool :=
  match inputs tx, outputs tx with
  | Some [], Some [output] =>
      match amount output, Blockchain.block_reward (h / Blockchain.halving_interval) with
      | Some a, Some reward => PrimFloat.Leibniz.eqb a reward
      | _, _ => false
      end
  | _, _ => false
  end.

Definition block_clean (s : UTXOSet.t) (h : Z) (block : Block.t) : bool :=
  match Block.transactions block with
  | coinbase :: rest => coinbase_of h coinbase && all_clean s (coinbase :: rest)
  | [] => false
  end.

Definition block_fees (s : UTXOSet.t) (block : Block.t) : Qc :=
  match Block.transactions block with
  | coinbase :: rest => fees (Blockchain.apply_transaction s coinbase) rest
  | [] => Q2Qc 0
  end.

Fixpoint blocks_clean (s : UTXOSet.t) (h : Z) (blocks : list Block.t) : bool :=
  match blocks with
  | [] => true
  | b :: rest =>
      block_clean s h b && blocks_clean (Blockchain._update_utxo_set_on s b) (h + 1) rest
  end.

Fixpoint blocks_fees (s : UTXOSet.t) (blocks : list Block.t) : Qc :=
  match blocks with
  | [] => Q2Qc 0
  | b :: rest =>
      (block_fees s b + blocks_fees (Blockchain._update_utxo_set_on s b) rest)%Qc
  end.

(* an update of total_supply that does not round: the binary64 result is
   finite and stands for the sum, or the difference, of the two numbers *)
Definition adds_exactly (x a : float) : bool :=
  finite (PrimFloat.add x a)
  && Qc_eq_bool (value_of (PrimFloat.add x a)) (value_of x + value_of a)%Qc.

Definition subtracts_exactly (x a : float) : bool :=
  finite (PrimFloat.sub x a)
  && Qc_eq_bool (value_of (PrimFloat.sub x a)) (value_of x - value_of a)%Qc.

(* no update of total_supply rounds while the inputs are spent, ... *)
Fixpoint spends_exactly (s : UTXOSet.t) (ins : list TxInput) : bool :=
  match ins with
  | [] => true
  | input_tx :: rest =>
      (if Blockchain.addressable input_tx then
         match UTXOSet.get_utxo s (get (prev_tx_id input_tx) EmptyString)
                                (get (prev_output_index input_tx) (-1)) with
         | Some u => subtracts_exactly (UTXOSet.total_supply s) (UTXO.amount u)
         | None => true
         end
       else true)
      && spends_exactly (Blockchain.spend_input s input_tx) rest
  end.

(* ... while the outputs are created, ... *)
Fixpoint creates_exactly (s : UTXOSet.t) (id : string) (i : Z) (outs : list TxOutput)
  : bool :=
  match outs with
  | [] => true
  | output :: rest =>
      adds_exactly (UTXOSet.total_supply s) (get (amount output) 0%float)
      && creates_exactly (UTXOSet.add_utxo s id i (Blockchain.utxo_data_of id i output))
                         id (i + 1) rest
  end.

(* ... while a transaction, a list of transactions, a list of blocks is applied *)
Definition applies_exactly (s : UTXOSet.t) (tx : Transaction) : bool :=
  let ins := get (inputs tx) [] in
  spends_exactly s ins
  && creates_exactly (fold_left Blockchain.spend_input ins s)
                     (get (tx_id tx) EmptyString) 0 (get (outputs tx) []).

Fixpoint all_exact (s : UTXOSet.t) (txs : list Transaction) : bool :=
  match txs with
  | [] => true
  | tx :: rest =>
      applies_exactly s tx && all_exact (Blockchain.apply_transaction s tx) rest
  end.

Fixpoint blocks_exact (s : UTXOSet.t) (blocks : list Block.t) : bool :=
  match blocks with
  | [] => true
  | b :: rest =>
      all_exact s (Block.transactions b)
      && blocks_exact (Blockchain._update_utxo_set_on s b) rest
  end.

End Ledger.

Module Chain.

(* chain[i].previous_hash == chain[i-1].hash and chain[i].index == i for i >= 1 *)
Definition linked (c : list Block.t) : Prop :=
  forall (i : nat) (previous current : Block.t),
    c !! i = Some previous -> c !! S i = Some current ->
    Block.previous_hash current = Block.hash previous
    /\ Block.index current = Z.of_nat (S i).

(* a sequence of add_block calls, each with its block and clock reading *)
Fixpoint add_blocks (bc : Blockchain.t) (calls : list (Block.t * float))
  : option Blockchain.t :=
  match calls with
  | [] => Some bc
  | (block, now) :: rest =>
      match Blockchain.add_block bc block now with
      | Some (bc', _) => add_blocks bc' rest
      | None => None
      end
  end.

(* the bound a hash with [difficulty] leading zero digits stays under, the
   target in the spec's terms *)
Definition target_of (difficulty : Z) : Z := 16 ^ (64 - difficulty).

(* ratio = expected_time / time_span if time_span > 0 else 1.0, for the two
   blocks the adjustment reads *)
Definition retarget_ratio (bc : Blockchain.t) (start_block end_block : Block.t) : float :=
  let time_span :=
    PrimFloat.sub (Block.timestamp end_block) (Block.timestamp start_block) in
  let expected_time :=
    PrimFloat.mul (Blockchain.block_time_target bc)
                  (PyStr.float_of_int (Blockchain.difficulty_adjustment_interval bc)) in
  if PrimFloat.ltb 0 time_span then PrimFloat.div expected_time time_span else 1%float.

(* what add_block relies on and keeps: a last block, a positive adjustment
   interval, a linked chain *)
Definition chain_ok (bc : Blockchain.t) : Prop :=
  (exists tip, last (Blockchain.chain bc) = Some tip)
  /\ 0 < Blockchain.difficulty_adjustment_interval bc
  /\ linked (Blockchain.chain bc).

End Chain.

Module Alphabet.
Import Encoding.

(* a digit value is found again at its place in the alphabet, and only the
   value 0 is written as the first character *)
Definition digit_checks (d : Z) : bool :=
  match alphabet_index (alphabet_at d) with
  | Some i => (i =? d) && ((d =? 0) || negb (Ascii.eqb (alphabet_at d) (alphabet_at 0)))
  | None => false
  end.

(* k times the first character of the alphabet *)
Definition ones (k : nat) : string := string_of_list_ascii (repeat (alphabet_at 0) k).

End Alphabet.

Module HashLayers.
Import PyBytes.

(* the first eight bytes, read as a little-endian 64-bit word, rotated left
   by seven bits; the other bytes as they are *)
Definition rotate_head (digest : list byte) : list byte :=
  let w := SHA3.from_bytes_little (firstn 8 digest) in
  SHA3.to_bytes_little 8 ((w * 2 ^ 7) mod 2 ^ 64 + w / 2 ^ 57) ++ skipn 8 digest.

(* double SHA-256 over the SHA3-256 of the SHA-256 of the serialized header,
   its head rotated, in hex *)
Definition hash_in_layers (h : BlockHeader.t) : string :=
  hex (rotate_head
         (Hashing.double_sha256
            (Hashing.sha3_256 (Hashing.sha256 (BlockHeader.serialize h))))).

End HashLayers.

(** ** A run of the node used in the examples

    Blockchain(difficulty=0): with no leading zero demanded, mine() succeeds
    at its first attempt, so the run is short. *)

Module Scenario.
Import PyBytes Tx Json.

Definition clock_at (t : float) : Blockchain.clock :=
  {| Blockchain.at_coinbase := t; Blockchain.at_block := t;
     Blockchain.at_attempt := fun _ => t; Blockchain.at_validate := t |}.

(* blockchain = Blockchain(difficulty=0) *)
Definition fresh : option Blockchain.t :=
  Blockchain.init 0 1 1700000000 1700000000.

(* the state of a run that went through; the empty record stands for a run
   that raised *)
Definition state_of (run : option Blockchain.t) : Blockchain.t :=
  match run with
  | Some bc => bc
  | None =>
      {| Blockchain.chain := []; Blockchain.difficulty := 0;
         Blockchain.block_time_target := 0; Blockchain.utxo_set := UTXOSet.init;
         Blockchain.pending_transactions := []; Blockchain.mempool := ∅;
         Blockchain.difficulty_adjustment_interval := 2016;
         Blockchain.last_adjustment_block := 0 |}
  end.

(* the header of the first block of a chain *)
Definition first_header (run : option Blockchain.t) : option BlockHeader.t :=
  match run with
  | Some bc => option_map Block.header (head (Blockchain.chain bc))
  | None => None
  end.

Definition genesis_header : option BlockHeader.t := first_header fresh.

(* run.mine_block(miner) on a run that went through so far *)
Definition mine_on (run : option Blockchain.t) (miner : string) (ck : Blockchain.clock)
  : option (Blockchain.t * option Block.t) :=
  match run with
  | Some bc => Blockchain.mine_block bc miner ck
  | None => None
  end.

(* run.add_transaction(tx), the verdict dropped *)
Definition submit (run : option Blockchain.t) (tx : Transaction) : option Blockchain.t :=
  option_map (fun bc => fst (Blockchain.add_transaction bc tx)) run.

(* the id of the coinbase of a mined block *)
Definition coinbase_id_of (mined : option (Blockchain.t * option Block.t)) : string :=
  match mined with
  | Some (_, Some block) =>
      match Block.transactions block with
      | coinbase :: _ => get (tx_id coinbase) EmptyString
      | [] => EmptyString
      end
  | _ => EmptyString
  end.

Definition block_of (mined : option (Blockchain.t * option Block.t)) : list Block.t :=
  match mined with
  | Some (_, Some block) => [block]
  | _ => []
  end.

(* blockchain.mine_block('alice') *)
Definition alice_mined : option (Blockchain.t * option Block.t) :=
  mine_on fresh "alice" (clock_at 1700000600).

Definition state_after_alice : option Blockchain.t := option_map fst alice_mined.

(* the id of alice's coinbase *)
Definition alice_coinbase_id : string := coinbase_id_of alice_mined.

(* a transaction dictionary with the keys tx_id, inputs and outputs; the
   amounts are whole coins, written as floats *)
Definition input_json (i : string * Z) : json :=
  JDict [("prev_tx_id", JStr (fst i)); ("prev_output_index", JInt (snd i))].
Definition output_json (o : string * Z) : json :=
  JDict [("address", JStr (fst o)); ("amount", JFloat (PyStr.float_of_int (snd o)))].

Definition transaction (id : string) (ins : list (string * Z)) (outs : list (string * Z))
  : Transaction :=
  {| tx_id := Some id;
     inputs := Some (map (fun i => {| prev_tx_id := Some (fst i);
                                      prev_output_index := Some (snd i) |}) ins);
     outputs := Some (map (fun o => {| address := Some (fst o);
                                       amount := Some (PyStr.float_of_int (snd o));
                                       script_pubkey := None |}) outs);
     tx_json := dumps (JDict [ ("tx_id", JStr id);
                               ("inputs", JList (map input_json ins));
                               ("outputs", JList (map output_json outs)) ]) |}.

(* alice pays carol 40 of her 50 coins; the other 10 are the fee *)
Definition pay_carol : Transaction :=
  transaction "pay-carol" [(alice_coinbase_id, 0)] [("carol", 40)].

(* a second transaction spending the same output *)
Definition pay_dave : Transaction :=
  transaction "pay-dave" [(alice_coinbase_id, 0)] [("dave", 50)].


(* blockchain.add_transaction(pay_carol); blockchain.mine_block('bob') *)
Definition bob_mined : option (Blockchain.t * option Block.t) :=
  mine_on (submit state_after_alice pay_carol) "bob" (clock_at 1700001200).

Definition state_after_bob : option Blockchain.t := option_map fst bob_mined.

(* a transaction dictionary like the ones above, its amounts given as floats *)
Definition float_output_json (o : string * float) : json :=
  JDict [("address", JStr (fst o)); ("amount", JFloat (snd o))].

Definition payment (id : string) (ins : list (string * Z)) (outs : list (string * float))
  : Transaction :=
  {| tx_id := Some id;
     inputs := Some (map (fun i => {| prev_tx_id := Some (fst i);
                                      prev_output_index := Some (snd i) |}) ins);
     outputs := Some (map (fun o => {| address := Some (fst o);
                                       amount := Some (snd o);
                                       script_pubkey := None |}) outs);
     tx_json := dumps (JDict [ ("tx_id", JStr id);
                               ("inputs", JList (map input_json ins));
                               ("outputs", JList (map float_output_json outs)) ]) |}.

(* a block object with the given index and transactions; _update_utxo_set
   reads the transactions only *)
Definition carrying (index : Z) (txs : list Transaction) : Block.t :=
  let hd := {| BlockHeader.version := 1; BlockHeader.prev_block_hash := EmptyString;
               BlockHeader.merkle_root := EmptyString; BlockHeader.timestamp := 0;
               BlockHeader.difficulty_target := 4; BlockHeader.nonce := 0;
               BlockHeader.block_height := index; BlockHeader.extra_nonce := 0;
               BlockHeader.chain_work := EmptyString |} in
  {| Block.index := index; Block.transactions := txs;
     Block.previous_hash := EmptyString; Block.timestamp := 0;
     Block.difficulty := 4; Block.nonce := 0; Block.extra_nonce := 0;
     Block.merkle_root := EmptyString; Block.chain_work := EmptyString;
     Block.header := hd; Block.hash := EmptyString |}.

(* the UTXO set of a fresh chain: the genesis transaction applied *)
Definition genesis_utxos : UTXOSet.t :=
  Blockchain.apply_transaction UTXOSet.init Genesis.genesis_transaction.

(* Two blocks for heights 1 and 2: a coinbase of 50.0; then a coinbase of
   50.0 and a payment of 0.4 out of the first coinbase.  The running supply
   goes 50.0, 100.0, 50.0 and then 50.0 + 0.4, which rounds. *)
Definition rounding_blocks : list Block.t :=
  [ carrying 1 [payment "cb-1" [] [("ann", 50%float)]];
    carrying 2 [payment "cb-2" [] [("bea", 50%float)];
                payment "pay-erin" [("cb-1", 0)] [("erin", 0.4%float)]] ].

(* the blocks mined after the genesis block, in order *)
Definition mined_blocks : list Block.t := block_of alice_mined ++ block_of bob_mined.

(* A chain of 2016 evenly spaced blocks whose first and last timestamps are
   8064 seconds apart, four times the 2016 seconds a target of one second
   per block expects.  Only the timestamps and the length are read by the
   adjustment. *)
Definition slow_block (i : nat) : Block.t :=
  let ts := PrimFloat.div (PyStr.float_of_int (8064 * Z.of_nat i)) 2015 in
  let hd := {| BlockHeader.version := 1; BlockHeader.prev_block_hash := EmptyString;
               BlockHeader.merkle_root := EmptyString; BlockHeader.timestamp := ts;
               BlockHeader.difficulty_target := 4; BlockHeader.nonce := 0;
               BlockHeader.block_height := Z.of_nat i; BlockHeader.extra_nonce := 0;
               BlockHeader.chain_work := EmptyString |} in
  {| Block.index := Z.of_nat i; Block.transactions := [];
     Block.previous_hash := EmptyString; Block.timestamp := ts;
     Block.difficulty := 4; Block.nonce := 0; Block.extra_nonce := 0;
     Block.merkle_root := EmptyString; Block.chain_work := EmptyString;
     Block.header := hd; Block.hash := EmptyString |}.

Definition slow_chain : Blockchain.t :=
  {| Blockchain.chain := map slow_block (seq 0 2016);
     Blockchain.difficulty := 4;
     Blockchain.block_time_target := 1;
     Blockchain.utxo_set := UTXOSet.init;
     Blockchain.pending_transactions := [];
     Blockchain.mempool := ∅;
     Blockchain.difficulty_adjustment_interval := 2016;
     Blockchain.last_adjustment_block := 0 |}.

(* An ECDSA signature (r, s) made with private key d and nonce k on the
   digest e (SEC 1, 4.1.3), and its DER encoding. *)
Definition sign_with (d k e : Z) : Z * Z :=
  match Signature.point_mul k Signature.G with
  | Some (x, _) =>
      let r := x mod Signature.n in
      (r, (Signature.inv_mod k Signature.n * (e + r * d)) mod Signature.n)
  | None => (0, 0)
  end.

Definition der_integer (v : Z) : list byte :=
  let body := to_bytes_big (Z.to_nat ((Z.log2 v + 9) / 8)) v in
  [x02; Z_to_byte (Z.of_nat (length body))] ++ body.

Definition der_encode (rs : Z * Z) : list byte :=
  let body := der_integer (fst rs) ++ der_integer (snd rs) in
  [x30; Z_to_byte (Z.of_nat (length body))] ++ body.

Definition private_key : Z := 123456789.
Definition public_key : Signature.PublicKey :=
  Signature.EllipticCurvePublicKey (Signature.point_mul private_key Signature.G).

(* the digest ECDSA(SHA256) signs for a transaction *)
Definition digest_of (tx : Transaction) : Z :=
  from_bytes_big (SHA256.sha256 (SHA256.sha256 (encode (tx_json tx)))).

Definition signed_tx : Transaction := transaction "signed" [] [("carol", 1)].

Definition low_s_pair : Z * Z :=
  let rs := sign_with private_key 987654321 (digest_of signed_tx) in
  if Signature.n / 2 <? snd rs then (fst rs, Signature.n - snd rs) else rs.

(* the same signature with S replaced by n - S *)
Definition high_s_signature : list byte :=
  der_encode (fst low_s_pair, Signature.n - snd low_s_pair).

Definition low_s_signature : list byte := der_encode low_s_pair.

End Scenario.

(** ** What the further statements speak of *)

Module UtxoInv.

(* no transaction id is left with an empty dictionary of outputs *)
Definition no_empty_entry (s : UTXOSet.t) : Prop :=
  forall id inner, UTXOSet.utxos s !! id = Some inner -> inner <> ∅.

(* every unspent output that has an address is listed under that address *)
Definition indexed (s : UTXOSet.t) : Prop :=
  forall id i u,
    UTXOSet.get_utxo s id i = Some u ->
    UTXO.address u <> EmptyString ->
    (id, i) ∈ default ∅ (UTXOSet.address_utxos s !! UTXO.address u).

End UtxoInv.

(** ** Small objects for examples *)

Module Examples.
Import Tx.

(* a block object carrying the given transactions at the given height, with
   the given hash; _update_utxo_set reads the transactions only *)
Definition block_with (index : Z) (hash : string) (txs : list Transaction) : Block.t :=
  let hd := {| BlockHeader.version := 1; BlockHeader.prev_block_hash := EmptyString;
               BlockHeader.merkle_root := EmptyString; BlockHeader.timestamp := 0;
               BlockHeader.difficulty_target := 0; BlockHeader.nonce := 0;
               BlockHeader.block_height := index; BlockHeader.extra_nonce := 0;
               BlockHeader.chain_work := EmptyString |} in
  {| Block.index := index; Block.transactions := txs;
     Block.previous_hash := EmptyString; Block.timestamp := 0;
     Block.difficulty := 0; Block.nonce := 0; Block.extra_nonce := 0;
     Block.merkle_root := EmptyString; Block.chain_work := EmptyString;
     Block.header := hd; Block.hash := hash |}.

(* the UTXO the genesis transaction creates *)
Definition genesis_utxo : UTXO.t :=
  {| UTXO.address := Genesis.genesis_address; UTXO.amount := 0%float;
     UTXO.script_pubkey := "OP_GENESIS"; UTXO.tx_id := Genesis.zero_hash;
     UTXO.output_index := 0 |}.

(* a chain object of one block, with two transactions waiting *)
Definition waiting : list Transaction :=
  [ {| tx_id := Some "w1"; inputs := Some []; outputs := Some []; tx_json := "{}" |};
    {| tx_id := Some "w2"; inputs := Some []; outputs := Some []; tx_json := "{}" |} ].

Definition tiny_chain : Blockchain.t :=
  {| Blockchain.chain := [block_with 0 "00" [Genesis.genesis_transaction]];
     Blockchain.difficulty := 0;
     Blockchain.block_time_target := 1;
     Blockchain.utxo_set := UTXOSet.init;
     Blockchain.pending_transactions := waiting;
     Blockchain.mempool := ∅;
     Blockchain.difficulty_adjustment_interval := 2016;
     Blockchain.last_adjustment_block := 0 |}.

(* Block(index=0, transactions=[], previous_hash='', difficulty=0) at clock
   reading 0; the constructor returns on every input *)
Definition built : Block.t :=
  match Block.init 0 [] EmptyString 0 0 0 0 with
  | Some b => b
  | None => block_with 0 EmptyString []
  end.

End Examples.

Module Supply.


(* 50 coins after q halvings *)
Definition era_reward (q : Z) : Qc := (Q2Qc 50 / Q2Qc (inject_Z (2 ^ q)))%Qc.



End Supply.

Module Mining.

(* the header mine() hashes in turn [iteration] *)
Definition attempt_header (h : BlockHeader.t) (clock : Z -> float) (iteration : Z)
  : BlockHeader.t :=
  BlockHeader.set_nonce h iteration ((iteration / 1000) mod 1000000) (clock iteration).

(* whether turn [iteration] of mine() on block b finds a hash with the
   leading zeros asked for *)
Definition tries (b : Block.t) (clock : Z -> float) (iteration : Z) : bool :=
  Block.meets_target (BlockHeader.hash (attempt_header (Block.header b) clock iteration))
                     (Block.difficulty b).

End Mining.

Module Script.

(* the operation names _execute_operation knows *)
Definition known_operations : list string :=
  ["OP_DUP"; "OP_HASH160"; "OP_EQUALVERIFY"; "OP_CHECKSIG"; "OP_GENESIS"; "OP_RETURN"].

(* the pay-to-public-key-hash run: a signature and a key pushed, then the
   script that p2pkh_script writes for the hash h *)
Definition p2pkh_run (sig pubkey h : string) : list string :=
  [sig; pubkey; "OP_DUP"; "OP_HASH160"; h; "OP_EQUALVERIFY"; "OP_CHECKSIG"].

(* what OP_HASH160 leaves for a string: the first 20 bytes of its SHA-256, in hex *)
Definition hash160_hex (data : string) : string :=
  PyBytes.hex (firstn 20 (SHA256.sha256 (PyBytes.encode data))).

End Script.

(** * Theorems *)

(** ** Base58 *)

Section Base58Facts.
Import PyBytes Encoding Alphabet.

Lemma byte_to_Z_range (b : byte) : 0 <= byte_to_Z b < 256.
Proof.
  unfold byte_to_Z. pose proof (Byte.to_N_bounded b) as H.
  split; [apply N2Z.is_nonneg | ]. lia.
Qed.

Lemma Z_to_byte_of_byte (b : byte) (q : Z) : Z_to_byte (q * 256 + byte_to_Z b) = b.
Proof.
  unfold Z_to_byte. pose proof (byte_to_Z_range b) as Hb.
  rewrite Z.add_comm, Z_mod_plus_full, Z.mod_small by lia.
  unfold byte_to_Z. rewrite N2Z.id, Byte.of_to_N. reflexivity.
Qed.

Lemma from_bytes_big_snoc (bs : list byte) (b : byte) :
  from_bytes_big (bs ++ [b]) = from_bytes_big bs * 256 + byte_to_Z b.
Proof. unfold from_bytes_big. rewrite fold_left_app. reflexivity. Qed.

Lemma from_bytes_big_range (bs : list byte) :
  0 <= from_bytes_big bs < 256 ^ Z.of_nat (length bs).
Proof.
  induction bs as [|b bs IH] using rev_ind.
  - cbn. lia.
  - rewrite from_bytes_big_snoc, length_app, Nat2Z.inj_add, Z.pow_add_r by lia.
    pose proof (byte_to_Z_range b). change (Z.of_nat (length [b])) with 1.
    change (256 ^ 1) with 256. nia.
Qed.

Lemma to_bytes_from_bytes (bs : list byte) :
  to_bytes_big (length bs) (from_bytes_big bs) = bs.
Proof.
  induction bs as [|b bs IH] using rev_ind; [reflexivity | ].
  rewrite length_app, Nat.add_comm. cbn [length Nat.add to_bytes_big].
  rewrite from_bytes_big_snoc, Z_to_byte_of_byte.
  pose proof (byte_to_Z_range b).
  replace ((from_bytes_big bs * 256 + byte_to_Z b) / 256) with (from_bytes_big bs)
    by (apply Z.div_unique with (r := byte_to_Z b); lia).
  rewrite IH. reflexivity.
Qed.

Lemma from_bytes_big_cons (b : byte) (bs : list byte) :
  from_bytes_big (b :: bs)
  = byte_to_Z b * 256 ^ Z.of_nat (length bs) + from_bytes_big bs.
Proof.
  induction bs as [|c bs IH] using rev_ind.
  - cbn. lia.
  - rewrite app_comm_cons, !from_bytes_big_snoc, IH, length_app, Nat2Z.inj_add,
      Z.pow_add_r by lia.
    change (Z.of_nat (length [c])) with 1. change (256 ^ 1) with 256.
    pose proof (byte_to_Z_range c). ring.
Qed.

Lemma from_bytes_big_zeros (k : nat) (bs : list byte) :
  from_bytes_big (repeat x00 k ++ bs) = from_bytes_big bs.
Proof.
  induction k as [|k IH]; [reflexivity | ].
  cbn [repeat app]. rewrite from_bytes_big_cons, IH. cbn. lia.
Qed.

(** The split of a byte string into its zero prefix and the rest. *)
Lemma leading_zero_bytes_split (data : list byte) :
  exists rest, data = repeat x00 (leading_zero_bytes data) ++ rest
               /\ match rest with [] => True | b :: _ => byte_to_Z b <> 0 end.
Proof.
  induction data as [|b data [rest [E H]]].
  - exists []. split; [reflexivity | exact I].
  - cbn [leading_zero_bytes]. destruct (byte_to_Z b =? 0) eqn:Eb.
    + exists rest. split; [ | exact H].
      apply Z.eqb_eq in Eb. cbn [repeat app]. rewrite <- E. f_equal.
      rewrite <- (Z_to_byte_of_byte b 0). cbn [Z.mul Z.add]. rewrite Eb. reflexivity.
    + exists (b :: data). split; [reflexivity | ]. apply Z.eqb_neq. exact Eb.
Qed.

Lemma digit_checks_all (d : Z) : 0 <= d < 58 -> digit_checks d = true.
Proof.
  intros Hd.
  assert (Hall : forallb digit_checks (map Z.of_nat (seq 0 58)) = true)
    by (vm_compute; reflexivity).
  rewrite forallb_forall in Hall. apply Hall.
  rewrite <- (Z2Nat.id d) by lia. apply in_map, in_seq. lia.
Qed.

Lemma alphabet_index_at (d : Z) : 0 <= d < 58 -> alphabet_index (alphabet_at d) = Some d.
Proof.
  intros Hd. pose proof (digit_checks_all d Hd) as H. unfold digit_checks in H.
  destruct (alphabet_index (alphabet_at d)) as [i|]; [ | discriminate].
  apply andb_prop in H. destruct H as [H _]. apply Z.eqb_eq in H. congruence.
Qed.

Lemma alphabet_at_nonzero (d : Z) :
  1 <= d < 58 -> Ascii.eqb (alphabet_at d) (alphabet_at 0) = false.
Proof.
  intros Hd. assert (Hd' : 0 <= d < 58) by lia.
  pose proof (digit_checks_all d Hd') as H. unfold digit_checks in H.
  destruct (alphabet_index (alphabet_at d)); [ | discriminate].
  apply andb_prop in H. destruct H as [_ H].
  destruct (d =? 0) eqn:E; [apply Z.eqb_eq in E; lia | ].
  cbn in H. apply negb_true_iff in H. exact H.
Qed.

(** The digits written by the encoding loop read back as the number. *)
Lemma decode_encode_loop (fuel : nat) :
  forall (num : Z) (acc : string),
    0 <= num < 2 ^ Z.of_nat fuel ->
    decode_loop (encode_loop fuel num acc) 0 = decode_loop acc num.
Proof.
  induction fuel as [|fuel IH]; intros num acc Hn.
  - cbn in Hn. assert (num = 0) by lia. subst. reflexivity.
  - cbn [encode_loop]. destruct (0 <? num) eqn:Epos.
    + apply Z.ltb_lt in Epos.
      rewrite IH.
      * cbn [decode_loop]. rewrite alphabet_index_at by (apply Z.mod_pos_bound; lia).
        f_equal. pose proof (Z.div_mod num 58). lia.
      * rewrite Nat2Z.inj_succ, Z.pow_succ_r in Hn by lia.
        split; [apply Z.div_pos; lia | ].
        apply Z.div_lt_upper_bound; lia.
    + apply Z.ltb_ge in Epos. assert (num = 0) by lia. subst. reflexivity.
Qed.

(** The most significant digit written is not the zero digit. *)
Lemma encode_loop_head (fuel : nat) :
  forall (num : Z) (acc : string),
    0 < num < 2 ^ Z.of_nat fuel ->
    exists d r, 1 <= d < 58 /\ encode_loop fuel num acc = String (alphabet_at d) r.
Proof.
  induction fuel as [|fuel IH]; intros num acc Hn.
  - cbn in Hn. lia.
  - cbn [encode_loop]. destruct (0 <? num) eqn:Epos; [ | apply Z.ltb_ge in Epos; lia].
    destruct (Z.eq_dec (num / 58) 0) as [Hq|Hq].
    + rewrite Hq. exists (num mod 58), acc. split.
      * pose proof (Z.div_mod num 58). pose proof (Z.mod_pos_bound num 58). lia.
      * destruct fuel; reflexivity.
    + apply IH. rewrite Nat2Z.inj_succ, Z.pow_succ_r in Hn by lia.
      assert (0 <= num / 58) by (apply Z.div_pos; lia).
      split; [lia | apply Z.div_lt_upper_bound; lia].
Qed.

Lemma leading_ones_app (k : nat) (s : string) :
  match s with
  | EmptyString => True
  | String c _ => Ascii.eqb c (alphabet_at 0) = false
  end ->
  leading_ones (ones k +:+ s) = k.
Proof.
  intros Hs. induction k as [|k IH].
  - change (ones 0 +:+ s) with s.
    destruct s as [|c r]; [reflexivity | ]. cbn [leading_ones]. rewrite Hs. reflexivity.
  - change (ones (S k) +:+ s) with (String (alphabet_at 0) (ones k +:+ s)).
    cbn [leading_ones]. rewrite Ascii.eqb_refl, IH. reflexivity.
Qed.

Lemma decode_loop_ones (k : nat) (s : string) :
  decode_loop (ones k +:+ s) 0 = decode_loop s 0.
Proof.
  induction k as [|k IH]; [reflexivity | ].
  change (ones (S k) +:+ s) with (String (alphabet_at 0) (ones k +:+ s)).
  cbn [decode_loop]. rewrite alphabet_index_at by lia. exact IH.
Qed.

Lemma log2_fuel (num : Z) : 0 <= num -> num < 2 ^ Z.of_nat (S (Z.to_nat (Z.log2 num))).
Proof.
  intros Hn. rewrite Nat2Z.inj_succ, Z2Nat.id by apply Z.log2_nonneg.
  destruct (Z.eq_dec num 0) as [->|Hz]; [cbn; lia | ].
  apply Z.log2_spec. lia.
Qed.

Lemma byte_length_of_num (b : byte) (bs : list byte) :
  byte_to_Z b <> 0 ->
  Z.to_nat ((bit_length (from_bytes_big (b :: bs)) + 7) / 8) = length (b :: bs).
Proof.
  intros Hb. pose proof (byte_to_Z_range b) as Rb.
  pose proof (from_bytes_big_range bs) as Rbs.
  pose proof (from_bytes_big_range (b :: bs)) as Rall.
  rewrite from_bytes_big_cons in *.
  set (n := Z.of_nat (length bs)) in *.
  set (v := byte_to_Z b * 256 ^ n + from_bytes_big bs) in *.
  assert (Hn : 0 <= n) by (subst n; lia).
  assert (Hlow : 256 ^ n <= v) by (subst v; nia).
  assert (Hpos : 0 < 256 ^ n) by (apply Z.pow_pos_nonneg; lia).
  cbn [length] in Rall. rewrite Nat2Z.inj_succ in Rall. fold n in Rall.
  unfold bit_length. destruct (v =? 0) eqn:Ev; [apply Z.eqb_eq in Ev; lia | ].
  assert (E256 : forall k, 0 <= k -> 256 ^ k = 2 ^ (8 * k)).
  { intros k Hk. change 256 with (2 ^ 8). rewrite <- Z.pow_mul_r by lia. reflexivity. }
  assert (L1 : 8 * n <= Z.log2 v).
  { apply Z.log2_le_pow2; [lia | ]. rewrite <- E256 by lia. exact Hlow. }
  assert (L2 : Z.log2 v < 8 * Z.succ n).
  { apply Z.log2_lt_pow2; [lia | ]. rewrite <- E256 by lia. lia. }
  cbn [length]. rewrite <- (Nat2Z.id (S (length bs))). f_equal.
  rewrite Nat2Z.inj_succ. fold n.
  symmetry. apply Z.div_unique with (r := Z.log2 v + 1 + 7 - 8 * Z.succ n); lia.
Qed.

(** C9. Base58 decoding inverts Base58 encoding on every byte string,
    including the empty one and those with leading zero bytes. *)
Theorem base58_roundtrip (d : list byte) :
  base58_decode (base58_encode d) = Some d.
Proof.
  destruct d as [|b0 d0]; [reflexivity | ].
  set (data := b0 :: d0).
  destruct (leading_zero_bytes_split data) as [rest [Hsplit Hrest]].
  set (k := leading_zero_bytes data) in *.
  set (num := from_bytes_big data).
  assert (Hnum : num = from_bytes_big rest)
    by (subst num; rewrite Hsplit; apply from_bytes_big_zeros).
  assert (Hrange : 0 <= num < 2 ^ Z.of_nat (S (Z.to_nat (Z.log2 num)))).
  { pose proof (from_bytes_big_range data). split; [lia | apply log2_fuel; lia]. }
  set (digits := encode_loop (S (Z.to_nat (Z.log2 num))) num EmptyString).
  assert (Henc : base58_encode data = ones k +:+ digits) by reflexivity.
  assert (Hdec : decode_loop digits 0 = Some num)
    by (subst digits; rewrite decode_encode_loop by exact Hrange; reflexivity).
  assert (Hhead : match digits with
                  | EmptyString => True
                  | String c _ => Ascii.eqb c (alphabet_at 0) = false
                  end).
  { destruct (Z.eq_dec num 0) as [Hz|Hz].
    - subst digits. rewrite Hz. exact I.
    - destruct (encode_loop_head (S (Z.to_nat (Z.log2 num))) num EmptyString)
        as [dg [r [Hdg E]]]; [lia | ].
      subst digits. rewrite E. apply alphabet_at_nonzero. exact Hdg. }
  assert (Hne : ones k +:+ digits <> EmptyString).
  { destruct rest as [|b rest'].
    - rewrite app_nil_r in Hsplit. destruct k; [discriminate Hsplit | discriminate].
    - assert (Hz : num <> 0).
      { rewrite Hnum, from_bytes_big_cons.
        pose proof (byte_to_Z_range b). pose proof (from_bytes_big_range rest').
        assert (0 < 256 ^ Z.of_nat (length rest')) by (apply Z.pow_pos_nonneg; lia).
        nia. }
      destruct (encode_loop_head (S (Z.to_nat (Z.log2 num))) num EmptyString)
        as [dg [r [_ E]]]; [lia | ].
      subst digits. rewrite E. destruct k; discriminate. }
  rewrite Henc. unfold base58_decode.
  destruct (ones k +:+ digits) as [|c s] eqn:Eenc; [congruence | ].
  rewrite <- Eenc, leading_ones_app, decode_loop_ones, Hdec by exact Hhead.
  f_equal. transitivity (repeat x00 k ++ rest); [ | symmetry; exact Hsplit]. f_equal.
  destruct rest as [|b rest'].
  - rewrite Hnum. reflexivity.
  - rewrite Hnum, byte_length_of_num by exact Hrest. apply to_bytes_from_bytes.
Qed.

End Base58Facts.

(** ** The header hash *)

Section HashFacts.
Import PyBytes AssemblySimulator.

Lemma lor_disjoint (a b k : Z) :
  0 <= k -> 0 <= a < 2 ^ k -> Z.lor a (b * 2 ^ k) = a + b * 2 ^ k.
Proof.
  intros Hk Ha.
  assert (Hland : Z.land a (b * 2 ^ k) = 0).
  { apply Z.bits_inj'. intros m Hm. rewrite Z.land_spec, Z.bits_0.
    destruct (Z.ltb_spec m k) as [Hlt | Hge].
    - rewrite Z.mul_pow2_bits_low by lia. apply andb_false_r.
    - destruct (Z.eq_dec a 0) as [-> | Hne]; [rewrite Z.bits_0; reflexivity | ].
      rewrite Z.bits_above_log2; [reflexivity | lia | ].
      apply Z.log2_lt_pow2; [lia | ].
      apply Z.lt_le_trans with (2 ^ k); [lia | ].
      apply Z.pow_le_mono_r; lia. }
  rewrite <- Z.lxor_lor by exact Hland.
  symmetry. apply Z.add_nocarry_lxor. exact Hland.
Qed.

Lemma from_bytes_little_cons (b : byte) (bs : list byte) :
  SHA3.from_bytes_little (b :: bs) = SHA3.from_bytes_little bs * 256 + byte_to_Z b.
Proof. unfold SHA3.from_bytes_little. cbn [rev]. apply from_bytes_big_snoc. Qed.

Lemma little_endian_from_spec (data : list byte) :
  forall i result,
    0 <= i -> 0 <= result < 2 ^ (i * 8) ->
    little_endian_from data i result
    = result + SHA3.from_bytes_little data * 2 ^ (i * 8).
Proof.
  induction data as [|b data IH]; intros i result Hi Hr; cbn [little_endian_from].
  - unfold SHA3.from_bytes_little. cbn. lia.
  - pose proof (byte_to_Z_range b) as Hb.
    rewrite Z.shiftl_mul_pow2 by lia.
    rewrite lor_disjoint by lia.
    assert (Hp : 2 ^ ((i + 1) * 8) = 2 ^ (i * 8) * 256).
    { replace ((i + 1) * 8) with (i * 8 + 8) by lia.
      rewrite Z.pow_add_r by lia. reflexivity. }
    rewrite IH, from_bytes_little_cons, Hp by (rewrite ?Hp; nia). ring.
Qed.

Lemma little_endian_to_int_spec (data : list byte) :
  little_endian_to_int data = SHA3.from_bytes_little data.
Proof.
  unfold little_endian_to_int.
  rewrite little_endian_from_spec by (cbn; lia). cbn. lia.
Qed.

Lemma from_bytes_little_range (data : list byte) :
  0 <= SHA3.from_bytes_little data < 256 ^ Z.of_nat (length data).
Proof.
  unfold SHA3.from_bytes_little. rewrite <- length_rev. apply from_bytes_big_range.
Qed.

Lemma rotate_left_7_64 (w : Z) :
  0 <= w < 2 ^ 64 ->
  bit_rotate_left w 7 64 = Some ((w * 2 ^ 7) mod 2 ^ 64 + w / 2 ^ 57).
Proof.
  intros Hw. unfold bit_rotate_left. cbn [Z.leb Z.compare].
  change (Z.shiftl 1 64 - 1) with (Z.ones 64). change (7 mod 64) with 7.
  change (64 - 7) with 57.
  rewrite (Z.land_ones w) by lia. rewrite (Z.mod_small w) by lia.
  rewrite Z.shiftl_mul_pow2, Z.shiftr_div_pow2 by lia.
  assert (Hhi : 0 <= w / 2 ^ 57 < 2 ^ 7).
  { split; [apply Z.div_pos; lia | apply Z.div_lt_upper_bound; lia]. }
  rewrite Z.lor_comm, lor_disjoint by lia.
  rewrite Z.land_ones by lia. f_equal.
  pose proof (Z.div_mod w (2 ^ 57) ltac:(lia)) as Hdm.
  pose proof (Z.mod_pos_bound w (2 ^ 57) ltac:(lia)) as Hlo.
  assert (Hm : (w * 2 ^ 7) mod 2 ^ 64 = (w mod 2 ^ 57) * 2 ^ 7).
  { symmetry. apply Z.mod_unique with (q := w / 2 ^ 57); [left; lia | lia]. }
  rewrite Hm. symmetry. apply Z.mod_unique with (q := w / 2 ^ 57); [left; lia | lia].
Qed.

Lemma Z_to_byte_mod (z : Z) : Z_to_byte (z mod 256) = Z_to_byte z.
Proof. unfold Z_to_byte. rewrite Z.mod_mod by lia. reflexivity. Qed.

Lemma int_to_little_endian_spec (k : nat) :
  forall v, int_to_little_endian v k = SHA3.to_bytes_little k v.
Proof.
  unfold int_to_little_endian, SHA3.to_bytes_little.
  induction k as [|k IH]; intros v; [reflexivity | ].
  cbn [seq map to_bytes_big]. rewrite rev_app_distr. cbn [rev app].
  f_equal.
  - change (Z.of_nat 0 * 8) with 0. rewrite Z.shiftr_0_r.
    change 255 with (Z.ones 8). rewrite Z.land_ones by lia. apply Z_to_byte_mod.
  - rewrite <- IH, <- seq_shift, map_map. apply map_ext. intros i.
    do 2 f_equal.
    rewrite !Z.shiftr_div_pow2 by lia.
    replace (Z.of_nat (S i) * 8) with (8 + Z.of_nat i * 8) by lia.
    rewrite Z.pow_add_r, Z.div_div by lia. reflexivity.
Qed.

(** C2, as the code has it.  The hash of a header is the hex digest of the
    double SHA-256 of the SHA3-256 of the SHA-256 of the serialized header,
    with the first eight bytes of that digest, read as a little-endian
    64-bit word, rotated left by seven bits. *)
Theorem header_hash_in_layers (h : BlockHeader.t) :
  BlockHeader.hash h = HashLayers.hash_in_layers h.
Proof.
  unfold BlockHeader.hash, HashLayers.hash_in_layers, HashLayers.rotate_head,
    Hashing.double_sha256, Hashing.sha3_256, Hashing.sha256, RustSimulator.fast_hash.
  set (d := SHA256.sha256 (SHA256.sha256 _)).
  rewrite little_endian_to_int_spec.
  pose proof (from_bytes_little_range (firstn 8 d)) as Hr.
  assert (Hlen : (length (firstn 8 d) <= 8)%nat) by apply firstn_le_length.
  assert (Hw : 0 <= SHA3.from_bytes_little (firstn 8 d) < 2 ^ 64).
  { split; [lia | ]. apply Z.lt_le_trans with (256 ^ Z.of_nat (length (firstn 8 d))); [lia | ].
    change (2 ^ 64) with (256 ^ 8). apply Z.pow_le_mono_r; lia. }
  rewrite (rotate_left_7_64 _ Hw), int_to_little_endian_spec. reflexivity.
Qed.

End HashFacts.

(** ** The ledger: sums over the UTXO set *)

Section LedgerFacts.
Import Tx Ledger.
Local Open Scope Qc_scope.

Lemma inner_sum_insert (m : gmap Z UTXO.t) (i : Z) (u : UTXO.t) :
  m !! i = None -> inner_sum (<[i := u]> m) = inner_sum m + value_of (UTXO.amount u).
Proof.
  intros Hi. unfold inner_sum. rewrite map_fold_insert_L; [reflexivity | | exact Hi].
  intros. ring.
Qed.

Lemma inner_sum_delete (m : gmap Z UTXO.t) (i : Z) (u : UTXO.t) :
  m !! i = Some u -> inner_sum m = inner_sum (delete i m) + value_of (UTXO.amount u).
Proof.
  intros Hi. unfold inner_sum. rewrite (map_fold_delete_L _ _ i u m); [reflexivity | | exact Hi].
  intros. ring.
Qed.

Lemma outer_sum_insert (ms : gmap string (gmap Z UTXO.t)) (k : string) (m : gmap Z UTXO.t) :
  ms !! k = None -> outer_sum (<[k := m]> ms) = outer_sum ms + inner_sum m.
Proof.
  intros Hk. unfold outer_sum. rewrite map_fold_insert_L; [reflexivity | | exact Hk].
  intros. ring.
Qed.

Lemma outer_sum_delete (ms : gmap string (gmap Z UTXO.t)) (k : string) (m : gmap Z UTXO.t) :
  ms !! k = Some m -> outer_sum ms = outer_sum (delete k ms) + inner_sum m.
Proof.
  intros Hk. unfold outer_sum. rewrite (map_fold_delete_L _ _ k m ms); [reflexivity | | exact Hk].
  intros. ring.
Qed.

Lemma outer_sum_replace (ms : gmap string (gmap Z UTXO.t)) (k : string)
    (m m' : gmap Z UTXO.t) :
  ms !! k = Some m ->
  outer_sum (<[k := m']> ms) = outer_sum ms - inner_sum m + inner_sum m'.
Proof.
  intros Hk. rewrite <- insert_delete_eq, outer_sum_insert by apply lookup_delete_eq.
  rewrite (outer_sum_delete ms k m Hk). ring.
Qed.

Lemma inner_sum_empty : inner_sum ∅ = Q2Qc 0.
Proof. reflexivity. Qed.

Lemma add_utxo_sum (s : UTXOSet.t) (id : string) (i : Z) (u : UTXO.t) :
  UTXOSet.get_utxo s id i = None ->
  utxo_sum (UTXOSet.add_utxo s id i u) = utxo_sum s + value_of (UTXO.amount u).
Proof.
  unfold UTXOSet.get_utxo, utxo_sum, UTXOSet.add_utxo. cbn [UTXOSet.utxos].
  intros Hget. destruct (UTXOSet.utxos s !! id) as [m|] eqn:Hm;
    cbn [default from_option Datatypes.id] in *.
  - rewrite (outer_sum_replace _ _ m) by exact Hm.
    rewrite inner_sum_insert by exact Hget. ring.
  - rewrite outer_sum_insert by exact Hm.
    rewrite inner_sum_insert by apply lookup_empty. rewrite inner_sum_empty. ring.
Qed.

Lemma remove_utxo_sum (s : UTXOSet.t) (id : string) (i : Z) (u : UTXO.t) :
  UTXOSet.get_utxo s id i = Some u ->
  utxo_sum (UTXOSet.remove_utxo s id i) = utxo_sum s - value_of (UTXO.amount u)
  /\ UTXOSet.total_supply (UTXOSet.remove_utxo s id i)
     = PrimFloat.sub (UTXOSet.total_supply s) (UTXO.amount u).
Proof.
  unfold UTXOSet.get_utxo, utxo_sum, UTXOSet.remove_utxo.
  intros Hget. destruct (UTXOSet.utxos s !! id) as [m|] eqn:Hm;
    cbn [default from_option Datatypes.id] in *;
    [ | rewrite lookup_empty in Hget; discriminate].
  rewrite Hget. cbn [UTXOSet.utxos UTXOSet.total_supply]. split; [ | reflexivity].
  pose proof (inner_sum_delete m i u Hget) as Hd.
  destruct (decide (delete i m = ∅)) as [He|He].
  - rewrite (outer_sum_delete _ id m Hm), Hd, He, inner_sum_empty. ring.
  - rewrite (outer_sum_replace _ _ m) by exact Hm. rewrite Hd. ring.
Qed.

Lemma get_utxo_remove (s : UTXOSet.t) (id id' : string) (i i' : Z) :
  UTXOSet.get_utxo (UTXOSet.remove_utxo s id i) id' i'
  = if decide (id = id' /\ i = i') then None else UTXOSet.get_utxo s id' i'.
Proof.
  unfold UTXOSet.get_utxo, UTXOSet.remove_utxo.
  destruct (UTXOSet.utxos s !! id) as [m|] eqn:Hm.
  - destruct (m !! i) as [u|] eqn:Hu; cbn [UTXOSet.utxos].
    + destruct (decide (id = id')) as [<-|Hne].
      * destruct (decide (delete i m = ∅)) as [He|He].
        -- rewrite lookup_delete_eq. cbn [default from_option Datatypes.id]. rewrite lookup_empty.
           case_decide as Hd; [reflexivity | ].
           rewrite Hm. cbn [default from_option Datatypes.id].
           assert (i <> i') by (intros ->; apply Hd; split; reflexivity).
           rewrite <- (lookup_delete_ne m i i') by assumption. rewrite He.
           rewrite lookup_empty. reflexivity.
        -- rewrite lookup_insert_eq. cbn [default from_option Datatypes.id]. rewrite Hm. cbn [default from_option Datatypes.id].
           case_decide as Hd.
           ++ destruct Hd as [_ <-]. apply lookup_delete_eq.
           ++ apply lookup_delete_ne. intros ->. apply Hd. split; reflexivity.
      * rewrite (decide_False (P := id = id' /\ i = i')) by (intros [? ?]; congruence).
        destruct (decide (delete i m = ∅)).
        -- rewrite lookup_delete_ne by assumption. reflexivity.
        -- rewrite lookup_insert_ne by assumption. reflexivity.
    + case_decide as Hd; [ | reflexivity].
      destruct Hd as [<- <-]. rewrite Hm. cbn [default from_option Datatypes.id]. exact Hu.
  - case_decide as Hd; [ | reflexivity].
    destruct Hd as [<- <-]. rewrite Hm. cbn [default from_option Datatypes.id]. apply lookup_empty.
Qed.

Lemma get_utxo_add (s : UTXOSet.t) (id id' : string) (i i' : Z) (u : UTXO.t) :
  UTXOSet.get_utxo (UTXOSet.add_utxo s id i u) id' i'
  = if decide (id = id' /\ i = i') then Some u else UTXOSet.get_utxo s id' i'.
Proof.
  unfold UTXOSet.get_utxo, UTXOSet.add_utxo. cbn [UTXOSet.utxos].
  destruct (decide (id = id')) as [<-|Hne].
  - rewrite lookup_insert_eq. cbn [default from_option Datatypes.id].
    case_decide as Hd.
    + destruct Hd as [_ <-]. apply lookup_insert_eq.
    + rewrite lookup_insert_ne by (intros ->; apply Hd; split; reflexivity). reflexivity.
  - rewrite lookup_insert_ne by assumption. rewrite decide_False by (intros [? ?]; congruence). reflexivity.
Qed.

Lemma adds_exactly_spec (x a : float) :
  adds_exactly x a = true ->
  finite (PrimFloat.add x a) = true
  /\ value_of (PrimFloat.add x a) = value_of x + value_of a.
Proof.
  unfold adds_exactly. intros H. apply andb_prop in H. destruct H as [Hf He].
  split; [exact Hf | apply Qc_eq_bool_correct; exact He].
Qed.

Lemma subtracts_exactly_spec (x a : float) :
  subtracts_exactly x a = true ->
  finite (PrimFloat.sub x a) = true
  /\ value_of (PrimFloat.sub x a) = value_of x - value_of a.
Proof.
  unfold subtracts_exactly. intros H. apply andb_prop in H. destruct H as [Hf He].
  split; [exact Hf | apply Qc_eq_bool_correct; exact He].
Qed.

Lemma create_outputs_sum (outs : list TxOutput) :
  forall (s : UTXOSet.t) (id : string) (i : Z),
    (forall j, (i <= j)%Z -> UTXOSet.get_utxo s id j = None) ->
    utxo_sum (Blockchain.create_outputs s id i outs) = utxo_sum s + output_total outs.
Proof.
  induction outs as [|o outs IH]; intros s id i Hfree;
    cbn [Blockchain.create_outputs output_total fold_right].
  - ring.
  - rewrite IH.
    + rewrite add_utxo_sum by (apply Hfree; lia). cbn [Blockchain.utxo_data_of UTXO.amount].
      fold (output_total outs). ring.
    + intros j Hj. rewrite get_utxo_add.
      rewrite decide_False by (intros [_ ?]; lia). apply Hfree. lia.
Qed.

Lemma create_outputs_supply (outs : list TxOutput) :
  forall (s : UTXOSet.t) (id : string) (i : Z),
    creates_exactly s id i outs = true ->
    finite (UTXOSet.total_supply s) = true ->
    finite (UTXOSet.total_supply (Blockchain.create_outputs s id i outs)) = true
    /\ value_of (UTXOSet.total_supply (Blockchain.create_outputs s id i outs))
       = value_of (UTXOSet.total_supply s) + output_total outs.
Proof.
  induction outs as [|o outs IH]; intros s id i Hex Hfin;
    cbn [Blockchain.create_outputs creates_exactly output_total fold_right] in *.
  - split; [exact Hfin | ring].
  - apply andb_prop in Hex. destruct Hex as [Ha Hrest].
    destruct (adds_exactly_spec _ _ Ha) as [Hf Hv].
    destruct (IH _ id (i + 1)%Z Hrest) as [H1 H2]; [exact Hf | ].
    split; [exact H1 | ]. rewrite H2.
    cbn [UTXOSet.add_utxo UTXOSet.total_supply Blockchain.utxo_data_of UTXO.amount].
    rewrite Hv. fold (output_total outs). ring.
Qed.

Lemma spend_input_removes (s : UTXOSet.t) (x : TxInput) :
  Blockchain.addressable x = true ->
  Blockchain.spend_input s x
  = UTXOSet.remove_utxo s (get (prev_tx_id x) EmptyString)
                        (get (prev_output_index x) (-1)%Z).
Proof. intros Ha. unfold Blockchain.spend_input. rewrite Ha. reflexivity. Qed.

Lemma spend_input_skips (s : UTXOSet.t) (x : TxInput) :
  Blockchain.addressable x = false -> Blockchain.spend_input s x = s.
Proof. intros Ha. unfold Blockchain.spend_input. rewrite Ha. reflexivity. Qed.

(** Spending takes out of the set what the inputs name, one after the other. *)
Lemma spend_sum (ins : list TxInput) :
  forall (s : UTXOSet.t),
    inputs_spendable s ins = true ->
    utxo_sum (fold_left Blockchain.spend_input ins s) = utxo_sum s - spent s ins.
Proof.
  induction ins as [|x ins IH]; intros s Hok; cbn [fold_left spent inputs_spendable] in *.
  - ring.
  - destruct (Blockchain.addressable x) eqn:Ha.
    + destruct (UTXOSet.get_utxo s _ _) as [u|] eqn:Hu; [ | discriminate].
      rewrite (IH _ Hok), (spend_input_removes s x Ha).
      destruct (remove_utxo_sum _ _ _ _ Hu) as [R1 _]. rewrite R1. ring.
    + rewrite (spend_input_skips s x Ha). apply IH. exact Hok.
Qed.

Lemma spend_supply (ins : list TxInput) :
  forall (s : UTXOSet.t),
    inputs_spendable s ins = true ->
    spends_exactly s ins = true ->
    finite (UTXOSet.total_supply s) = true ->
    finite (UTXOSet.total_supply (fold_left Blockchain.spend_input ins s)) = true
    /\ value_of (UTXOSet.total_supply (fold_left Blockchain.spend_input ins s))
       = value_of (UTXOSet.total_supply s) - spent s ins.
Proof.
  induction ins as [|x ins IH]; intros s Hok Hex Hfin;
    cbn [fold_left spent inputs_spendable spends_exactly] in *.
  - split; [exact Hfin | ring].
  - apply andb_prop in Hex. destruct Hex as [Hx Hrest].
    destruct (Blockchain.addressable x) eqn:Ha.
    + destruct (UTXOSet.get_utxo s _ _) as [u|] eqn:Hu; [ | discriminate].
      destruct (subtracts_exactly_spec _ _ Hx) as [Hf Hv].
      destruct (remove_utxo_sum _ _ _ _ Hu) as [_ R2].
      destruct (IH _ Hok Hrest) as [H1 H2].
      { rewrite (spend_input_removes s x Ha), R2. exact Hf. }
      split; [exact H1 | ].
      rewrite H2, (spend_input_removes s x Ha), R2, Hv. ring.
    + rewrite (spend_input_skips s x Ha) in *. apply IH; assumption.
Qed.

Lemma spent_is_input_total (ins : list TxInput) :
  forall (t s : UTXOSet.t),
    sub_utxos t s ->
    inputs_spendable t ins = true ->
    spent t ins = input_total s ins.
Proof.
  unfold input_total, addressable_inputs.
  induction ins as [|x ins IH]; intros t s Hsub Hok; cbn [spent inputs_spendable] in *.
  - reflexivity.
  - destruct (Blockchain.addressable x) eqn:Ha.
    + rewrite filter_cons_True by exact Ha. cbn [fold_right].
      destruct (UTXOSet.get_utxo t _ _) as [u|] eqn:Hu; [ | discriminate].
      unfold named_amount at 1. rewrite (Hsub _ _ _ Hu).
      rewrite (IH (Blockchain.spend_input t x) s); [reflexivity | | exact Hok].
      intros id i v Hv. apply Hsub.
      rewrite (spend_input_removes t x Ha), get_utxo_remove in Hv.
      case_decide; [discriminate | exact Hv].
    + rewrite filter_cons_False by (rewrite Ha; discriminate). apply IH; assumption.
Qed.

Lemma fresh_id_is_free (s : UTXOSet.t) (id : string) :
  UTXOSet.utxos s !! id = None -> forall j, UTXOSet.get_utxo s id j = None.
Proof.
  intros H j. unfold UTXOSet.get_utxo. rewrite H. apply lookup_empty.
Qed.

Lemma apply_transaction_sum (s : UTXOSet.t) (tx : Transaction) :
  applies_cleanly s tx = true ->
  utxo_sum (Blockchain.apply_transaction s tx) = utxo_sum s - fee s tx.
Proof.
  unfold applies_cleanly, Blockchain.apply_transaction, fee.
  intros Hc. apply andb_prop in Hc. destruct Hc as [Hin Hfresh].
  rewrite <- (spent_is_input_total _ s s) by (try exact Hin; intros ? ? ? H; exact H).
  rewrite create_outputs_sum, (spend_sum _ _ Hin); [ring | ].
  intros j _. apply fresh_id_is_free.
  destruct (UTXOSet.utxos _ !! _); [discriminate | reflexivity].
Qed.

Lemma apply_transaction_supply (s : UTXOSet.t) (tx : Transaction) :
  applies_cleanly s tx = true ->
  applies_exactly s tx = true ->
  finite (UTXOSet.total_supply s) = true ->
  finite (UTXOSet.total_supply (Blockchain.apply_transaction s tx)) = true
  /\ value_of (UTXOSet.total_supply (Blockchain.apply_transaction s tx))
     = value_of (UTXOSet.total_supply s) - fee s tx.
Proof.
  unfold applies_cleanly, applies_exactly, Blockchain.apply_transaction, fee.
  intros Hc Hex Hfin. apply andb_prop in Hc. destruct Hc as [Hin _].
  apply andb_prop in Hex. destruct Hex as [Hsp Hcr].
  rewrite <- (spent_is_input_total _ s s) by (try exact Hin; intros ? ? ? H; exact H).
  destruct (spend_supply _ _ Hin Hsp Hfin) as [S1 S2].
  destruct (create_outputs_supply _ _ _ _ Hcr S1) as [C1 C2].
  split; [exact C1 | ]. rewrite C2, S2. ring.
Qed.

Lemma all_clean_sum (txs : list Transaction) :
  forall (s : UTXOSet.t),
    all_clean s txs = true ->
    utxo_sum (fold_left Blockchain.apply_transaction txs s) = utxo_sum s - fees s txs.
Proof.
  induction txs as [|tx txs IH]; intros s Hc; cbn [fold_left all_clean fees] in *.
  - ring.
  - apply andb_prop in Hc. destruct Hc as [Htx Hrest].
    rewrite (IH _ Hrest), (apply_transaction_sum _ _ Htx). ring.
Qed.

Lemma all_clean_supply (txs : list Transaction) :
  forall (s : UTXOSet.t),
    all_clean s txs = true ->
    all_exact s txs = true ->
    finite (UTXOSet.total_supply s) = true ->
    finite (UTXOSet.total_supply (fold_left Blockchain.apply_transaction txs s)) = true
    /\ value_of (UTXOSet.total_supply (fold_left Blockchain.apply_transaction txs s))
       = value_of (UTXOSet.total_supply s) - fees s txs.
Proof.
  induction txs as [|tx txs IH]; intros s Hc Hex Hfin;
    cbn [fold_left all_clean all_exact fees] in *.
  - split; [exact Hfin | ring].
  - apply andb_prop in Hc. destruct Hc as [Htx Hrest].
    apply andb_prop in Hex. destruct Hex as [Hetx Herest].
    destruct (apply_transaction_supply _ _ Htx Hetx Hfin) as [A1 A2].
    destruct (IH _ Hrest Herest A1) as [H1 H2].
    split; [exact H1 | ]. rewrite H2, A2. ring.
Qed.

Lemma rewards_are_exact (halvings : Z) :
  (0 <= halvings < 1024)%Z -> reward_is_exact halvings = true.
Proof.
  intros Hh.
  assert (Hall : forallb reward_is_exact (map Z.of_nat (seq 0 1024)) = true)
    by (vm_compute; reflexivity).
  rewrite forallb_forall in Hall. apply Hall.
  rewrite <- (Z2Nat.id halvings) by lia. apply in_map, in_seq. lia.
Qed.

Lemma coinbase_fee (s : UTXOSet.t) (h : Z) (tx : Transaction) :
  (0 <= h)%Z -> coinbase_of h tx = true -> fee s tx = - subsidy h.
Proof.
  unfold coinbase_of, fee, subsidy. intros Hh Hc.
  destruct (inputs tx) as [[|? ?]|]; try discriminate.
  destruct (outputs tx) as [[|o [|? ?]]|]; try discriminate.
  destruct (amount o) as [a|] eqn:Ea; [ | discriminate].
  destruct (Blockchain.block_reward _) as [reward|] eqn:Er; [ | discriminate].
  apply FloatAxioms.Leibniz.eqb_spec in Hc. subst a.
  assert (Hq : (0 <= h / Blockchain.halving_interval < 1024)%Z).
  { split; [apply Z.div_pos; [exact Hh | reflexivity] | ].
    unfold Blockchain.block_reward in Er.
    destruct (1024 <=? h / Blockchain.halving_interval)%Z eqn:E; [discriminate | ].
    apply Z.leb_gt in E. exact E. }
  pose proof (rewards_are_exact _ Hq) as Hx. unfold reward_is_exact in Hx.
  rewrite Er in Hx. apply andb_prop in Hx. destruct Hx as [_ Hx].
  apply Qc_eq_bool_correct in Hx.
  cbn [get]. unfold input_total, output_total, addressable_inputs.
  rewrite filter_nil. cbn [fold_right]. rewrite Ea. cbn [get]. rewrite Hx. ring.
Qed.

Lemma block_sum (s : UTXOSet.t) (h : Z) (b : Block.t) :
  (0 <= h)%Z ->
  block_clean s h b = true ->
  utxo_sum (Blockchain._update_utxo_set_on s b) = utxo_sum s + subsidy h - block_fees s b.
Proof.
  unfold block_clean, block_fees, Blockchain._update_utxo_set_on.
  destruct (Block.transactions b) as [|cb rest]; [discriminate | ].
  intros Hh Hc. apply andb_prop in Hc. destruct Hc as [Hcb Hall].
  rewrite (all_clean_sum _ _ Hall). cbn [fees]. rewrite (coinbase_fee _ _ _ Hh Hcb). ring.
Qed.

Lemma block_supply (s : UTXOSet.t) (h : Z) (b : Block.t) :
  (0 <= h)%Z ->
  block_clean s h b = true ->
  all_exact s (Block.transactions b) = true ->
  finite (UTXOSet.total_supply s) = true ->
  finite (UTXOSet.total_supply (Blockchain._update_utxo_set_on s b)) = true
  /\ value_of (UTXOSet.total_supply (Blockchain._update_utxo_set_on s b))
     = value_of (UTXOSet.total_supply s) + subsidy h - block_fees s b.
Proof.
  unfold block_clean, block_fees, Blockchain._update_utxo_set_on.
  destruct (Block.transactions b) as [|cb rest]; [discriminate | ].
  intros Hh Hc Hex Hfin. apply andb_prop in Hc. destruct Hc as [Hcb Hall].
  destruct (all_clean_supply _ _ Hall Hex Hfin) as [H1 H2].
  split; [exact H1 | ]. rewrite H2. cbn [fees]. rewrite (coinbase_fee _ _ _ Hh Hcb). ring.
Qed.

Lemma blocks_sum (blocks : list Block.t) :
  forall (s : UTXOSet.t) (h : Z),
    (0 <= h)%Z ->
    blocks_clean s h blocks = true ->
    utxo_sum (fold_left Blockchain._update_utxo_set_on blocks s)
    = utxo_sum s + subsidies h (length blocks) - blocks_fees s blocks.
Proof.
  induction blocks as [|b blocks IH]; intros s h Hh Hc;
    cbn [fold_left blocks_clean blocks_fees subsidies length] in *.
  - ring.
  - apply andb_prop in Hc. destruct Hc as [Hb Hrest].
    rewrite (IH _ (h + 1)%Z) by (try lia; exact Hrest).
    rewrite (block_sum _ _ _ Hh Hb). ring.
Qed.

Lemma blocks_supply (blocks : list Block.t) :
  forall (s : UTXOSet.t) (h : Z),
    (0 <= h)%Z ->
    blocks_clean s h blocks = true ->
    blocks_exact s blocks = true ->
    finite (UTXOSet.total_supply s) = true ->
    finite (UTXOSet.total_supply (fold_left Blockchain._update_utxo_set_on blocks s)) = true
    /\ value_of (UTXOSet.total_supply (fold_left Blockchain._update_utxo_set_on blocks s))
       = value_of (UTXOSet.total_supply s) + subsidies h (length blocks)
         - blocks_fees s blocks.
Proof.
  induction blocks as [|b blocks IH]; intros s h Hh Hc Hex Hfin;
    cbn [fold_left blocks_clean blocks_exact blocks_fees subsidies length] in *.
  - split; [exact Hfin | ring].
  - apply andb_prop in Hc. destruct Hc as [Hb Hrest].
    apply andb_prop in Hex. destruct Hex as [Heb Herest].
    destruct (block_supply _ _ _ Hh Hb Heb Hfin) as [B1 B2].
    destruct (IH _ (h + 1)%Z ltac:(lia) Hrest Herest B1) as [H1 H2].
    split; [exact H1 | ]. rewrite H2, B2. ring.
Qed.

End LedgerFacts.

(** ** The Merkle root *)

Section MerkleFacts.
Import Tx Block.

Lemma pair_level_app (pre : list string) :
  forall (level rest : list string),
    pair_level pre = Some level ->
    pair_level (pre ++ rest) = option_map (app level) (pair_level rest).
Proof.
  induction pre as [pre IH] using (induction_ltof1 _ (@length string)).
  unfold ltof in IH. intros level rest Hpre.
  destruct pre as [|a [|b pre']]; cbn [pair_level app] in *.
  - injection Hpre as <-. destruct (pair_level rest); reflexivity.
  - discriminate.
  - destruct (pair_level pre') as [l'|] eqn:E; [ | discriminate].
    injection Hpre as <-.
    rewrite (IH pre' ltac:(cbn; lia) l' rest E).
    destruct (pair_level rest); reflexivity.
Qed.

Lemma pair_level_length (l : list string) :
  forall (level : list string),
    pair_level l = Some level -> length l = (2 * length level)%nat.
Proof.
  induction l as [l IH] using (induction_ltof1 _ (@length string)).
  unfold ltof in IH. intros level Hl.
  destruct l as [|a [|b l']]; cbn [pair_level] in *.
  - injection Hl as <-. reflexivity.
  - discriminate.
  - destruct (pair_level l') as [r|] eqn:E; [ | discriminate].
    injection Hl as <-. cbn [length]. rewrite (IH l' ltac:(cbn; lia) r E). lia.
Qed.

Lemma pair_level_even (l : list string) :
  Nat.even (length l) = true -> exists level, pair_level l = Some level.
Proof.
  induction l as [l IH] using (induction_ltof1 _ (@length string)).
  unfold ltof in IH. intros He.
  destruct l as [|a [|b l']]; cbn [pair_level].
  - eexists; reflexivity.
  - discriminate.
  - destruct (IH l' ltac:(cbn; lia) He) as [r Hr]. rewrite Hr. eexists; reflexivity.
Qed.

(** A turn of the loop never meets the IndexError, and halves the level. *)
Lemma merkle_turn_total (l : list string) :
  exists level, merkle_turn l = Some level /\ (2 * length level = length l + Nat.b2n (Nat.odd (length l)))%nat.
Proof.
  unfold merkle_turn. destruct (Nat.odd (length l)) eqn:Eo.
  - destruct (pair_level_even (l ++ [List.last l EmptyString])) as [r Hr].
    { rewrite length_app. cbn [length]. rewrite Nat.add_1_r, Nat.even_succ. exact Eo. }
    exists r. split; [exact Hr | ].
    apply pair_level_length in Hr. rewrite length_app in Hr. cbn in *. lia.
  - destruct (pair_level_even l) as [r Hr].
    { rewrite <- Nat.negb_odd, Eo. reflexivity. }
    exists r. split; [exact Hr | ].
    apply pair_level_length in Hr. cbn. lia.
Qed.

Lemma merkle_loop_total (fuel : nat) :
  forall l, exists r, merkle_loop fuel l = Some r.
Proof.
  induction fuel as [|fuel IH]; intros l; cbn [merkle_loop].
  - eexists; reflexivity.
  - destruct (1 <? length l)%nat; [ | eexists; reflexivity].
    destruct (merkle_turn_total l) as [r [Hr _]]. rewrite Hr. apply IH.
Qed.

(** Any fuel from the length of the level on gives the same result. *)
Lemma merkle_loop_fuel (f1 : nat) :
  forall (f2 : nat) (l : list string),
    (length l <= f1)%nat -> (length l <= f2)%nat ->
    merkle_loop f1 l = merkle_loop f2 l.
Proof.
  induction f1 as [|f1 IH]; intros f2 l H1 H2.
  - destruct l; [ | cbn in H1; lia]. destruct f2; reflexivity.
  - cbn [merkle_loop]. destruct (1 <? length l)%nat eqn:E.
    + apply Nat.ltb_lt in E. destruct f2 as [|f2]; [lia | ].
      cbn [merkle_loop]. apply Nat.ltb_lt in E. rewrite E. apply Nat.ltb_lt in E.
      destruct (merkle_turn_total l) as [r [Hr Hlen]]. rewrite Hr.
      assert (Nat.b2n (Nat.odd (length l)) <= 1)%nat by (destruct (Nat.odd _); cbn; lia).
      apply IH; lia.
    + destruct f2; cbn [merkle_loop]; [reflexivity | ]. rewrite E. reflexivity.
Qed.

Lemma merkle_loop_step (fuel : nat) (l r : list string) :
  (1 < length l)%nat -> merkle_turn l = Some r ->
  merkle_loop (S fuel) l = merkle_loop fuel r.
Proof.
  intros Hl Hr. cbn [merkle_loop]. apply Nat.ltb_lt in Hl. rewrite Hl, Hr. reflexivity.
Qed.

Lemma merkle_root_total (txs : list Transaction) :
  exists root, _calculate_merkle_root txs = Some root.
Proof.
  unfold _calculate_merkle_root, merkle_of_hashes.
  destruct txs as [|tx txs]; [eexists; reflexivity | ].
  destruct (merkle_loop_total (length (map _hash_transaction (tx :: txs)))
                              (map _hash_transaction (tx :: txs))) as [r Hr].
  rewrite Hr. destruct r; eexists; reflexivity.
Qed.

Lemma even_level_turn (pre level : list string) :
  pair_level pre = Some level -> merkle_turn pre = Some level.
Proof.
  intros Hpre. unfold merkle_turn.
  rewrite (pair_level_length pre level Hpre), Nat.odd_mul. exact Hpre.
Qed.

Lemma odd_level_turn (pre level : list string) (x : string) :
  pair_level pre = Some level ->
  merkle_turn (pre ++ [x]) = Some (level ++ [pair_hash x x]).
Proof.
  intros Hpre. unfold merkle_turn.
  assert (Nat.odd (length (pre ++ [x])) = true) as ->.
  { rewrite length_app. cbn [length].
    rewrite Nat.add_1_r, Nat.odd_succ, (pair_level_length pre level Hpre), Nat.even_mul.
    reflexivity. }
  rewrite last_last, <- app_assoc, (pair_level_app pre level _ Hpre). reflexivity.
Qed.

Lemma root_after_turn (hashes next : list string) :
  (1 < length hashes)%nat -> (length next < length hashes)%nat ->
  merkle_turn hashes = Some next ->
  merkle_of_hashes hashes = merkle_of_hashes next.
Proof.
  intros Hlen Hnext Hturn. unfold merkle_of_hashes.
  destruct (length hashes) as [|n] eqn:E; [lia | ].
  rewrite (merkle_loop_step n hashes next) by (try exact Hturn; lia).
  rewrite (merkle_loop_fuel n (length next)) by lia. reflexivity.
Qed.

(** C5. The Merkle root of a single transaction is that transaction's hash,
    and the root of a transaction list is the root of the list of its
    transactions' hashes, which always exists.  The root of one hash is that
    hash.  The root of a level of two or more hashes is the root of the
    level that pairing gives: for an even level [pre] the hashes of its
    pairs, for an odd level [pre ++ [x]] those and the hash of [x] paired
    with itself, the last hash doubled, so [pre ++ [x]] and [pre ++ [x; x]]
    have the same root.  A pair is hashed as the double SHA-256 of the plain
    concatenation of the two hex strings. *)
Theorem merkle_single_and_odd_levels
    (tx : Transaction) (txs : list Transaction)
    (pre level : list string) (x a b : string) :
  pair_level pre = Some level ->
  pre <> [] ->
  _calculate_merkle_root [tx] = Some (_hash_transaction tx)
  /\ (txs <> [] ->
      _calculate_merkle_root txs = merkle_of_hashes (map _hash_transaction txs)
      /\ exists root, _calculate_merkle_root txs = Some root)
  /\ merkle_of_hashes [x] = Some x
  /\ merkle_turn pre = Some level
  /\ merkle_of_hashes pre = merkle_of_hashes level
  /\ merkle_turn (pre ++ [x]) = Some (level ++ [pair_hash x x])
  /\ merkle_of_hashes (pre ++ [x]) = merkle_of_hashes (level ++ [pair_hash x x])
  /\ merkle_of_hashes (pre ++ [x]) = merkle_of_hashes (pre ++ [x; x])
  /\ merkle_of_hashes [a; b] = Some (pair_hash a b)
  /\ pair_hash a b
     = PyBytes.hex (SHA256.sha256 (SHA256.sha256 (PyBytes.encode (a +:+ b)))).
Proof.
  intros Hpre Hne.
  assert (Hlen : length pre = (2 * length level)%nat) by (apply pair_level_length; exact Hpre).
  assert (Hpos : (0 < length level)%nat) by (destruct pre; [congruence | cbn in Hlen; lia]).
  pose proof (even_level_turn pre level Hpre) as Heven.
  pose proof (odd_level_turn pre level x Hpre) as Hodd.
  assert (Hdup : pair_level (pre ++ [x; x]) = Some (level ++ [pair_hash x x]))
    by (rewrite (pair_level_app pre level _ Hpre); reflexivity).
  assert (Hroot_odd : merkle_of_hashes (pre ++ [x])
                      = merkle_of_hashes (level ++ [pair_hash x x])).
  { apply root_after_turn; [ | | exact Hodd]; rewrite !length_app; cbn [length]; lia. }
  assert (Hroot_dup : merkle_of_hashes (pre ++ [x; x])
                      = merkle_of_hashes (level ++ [pair_hash x x])).
  { apply root_after_turn; [ | | apply even_level_turn; exact Hdup];
      rewrite !length_app; cbn [length]; lia. }
  split; [reflexivity | ]. split.
  { intros Htxs. split.
    - destruct txs; [congruence | reflexivity].
    - apply merkle_root_total. }
  split; [reflexivity | ]. split; [exact Heven | ]. split.
  { apply root_after_turn; [lia | lia | exact Heven]. }
  split; [exact Hodd | ]. split; [exact Hroot_odd | ].
  split; [rewrite Hroot_odd, Hroot_dup; reflexivity | ].
  split; reflexivity.
Qed.

Lemma merkle_single_and_odd_levels_witness :
  pair_level ["aa"; "bb"] = Some [pair_hash "aa" "bb"]
  /\ ["aa"; "bb"] <> []
  /\ _calculate_merkle_root [Genesis.genesis_transaction]
     = Some (_hash_transaction Genesis.genesis_transaction)
  /\ merkle_of_hashes ["aa"; "bb"] = merkle_of_hashes [pair_hash "aa" "bb"]
  /\ merkle_turn (["aa"; "bb"] ++ ["cc"])
     = Some ([pair_hash "aa" "bb"] ++ [pair_hash "cc" "cc"])
  /\ merkle_of_hashes (["aa"; "bb"] ++ ["cc"])
     = merkle_of_hashes ([pair_hash "aa" "bb"] ++ [pair_hash "cc" "cc"])
  /\ merkle_of_hashes (["aa"; "bb"] ++ ["cc"])
     = merkle_of_hashes (["aa"; "bb"] ++ ["cc"; "cc"]).
Proof.
  assert (H1 : pair_level ["aa"; "bb"] = Some [pair_hash "aa" "bb"]) by reflexivity.
  assert (H2 : ["aa"; "bb"] <> ([] : list string)) by discriminate.
  split; [exact H1 | ]. split; [exact H2 | ].
  destruct (merkle_single_and_odd_levels Genesis.genesis_transaction
              [Genesis.genesis_transaction]
              ["aa"; "bb"] [pair_hash "aa" "bb"] "cc" "aa" "bb" H1 H2)
    as (W1 & _ & _ & _ & W5 & W6 & W7 & W8 & _).
  split; [exact W1 | ]. split; [exact W5 | ]. split; [exact W6 | ].
  split; [exact W7 | exact W8].
Defined.

End MerkleFacts.

(** ** The chain *)

Section ChainFacts.
Import Tx Chain.

Lemma index_last {A : Type} (l : list A) : PyStr.index l (-1) = last l.
Proof.
  unfold PyStr.index. change (-1 <? 0) with true. cbv iota.
  destruct l as [|x l] using rev_ind; [reflexivity | ].
  rewrite last_snoc, length_app. cbn [length].
  assert ((Z.of_nat (length l + 1) + -1 <? 0) = false) as -> by (apply Z.ltb_ge; lia).
  replace (Z.to_nat (Z.of_nat (length l + 1) + -1)) with (length l) by lia.
  rewrite nth_error_app2 by lia. rewrite Nat.sub_diag. reflexivity.
Qed.

Lemma index_back {A : Type} (l : list A) (k : Z) :
  0 < k <= Z.of_nat (length l) -> exists x, PyStr.index l (- k) = Some x.
Proof.
  intros Hk. unfold PyStr.index.
  assert ((- k <? 0) = true) as -> by (apply Z.ltb_lt; lia).
  assert ((Z.of_nat (length l) + - k <? 0) = false) as -> by (apply Z.ltb_ge; lia).
  destruct (nth_error l (Z.to_nat (Z.of_nat (length l) + - k))) as [x|] eqn:E;
    [eexists; reflexivity | ].
  apply nth_error_None in E. lia.
Qed.

Lemma validate_total (b : Block.t) (now : float) :
  exists r, Block.validate b now = Some r.
Proof.
  unfold Block.validate.
  destruct (merkle_root_total (Block.transactions b)) as [root ->].
  repeat match goal with |- context [if ?c then _ else _] => destruct c end;
    eexists; reflexivity.
Qed.

Lemma init_shape (d : Z) (btt t1 t2 : float) :
  exists genesis,
    Blockchain.init d btt t1 t2
    = Some {| Blockchain.chain := [genesis];
              Blockchain.difficulty := d;
              Blockchain.block_time_target := btt;
              Blockchain.utxo_set :=
                Blockchain.apply_transaction UTXOSet.init Genesis.genesis_transaction;
              Blockchain.pending_transactions := [];
              Blockchain.mempool := ∅;
              Blockchain.difficulty_adjustment_interval := 2016;
              Blockchain.last_adjustment_block := 0 |}
    /\ Block.index genesis = 0
    /\ Block.transactions genesis = [Genesis.genesis_transaction].
Proof.
  unfold Blockchain.init, Genesis.create_genesis_block, Block.init.
  destruct (merkle_root_total [Genesis.genesis_transaction]) as [root ->].
  eexists. split; [reflexivity | ]. split; reflexivity.
Qed.

Lemma adjust_frame (bc bc' : Blockchain.t) :
  Blockchain._adjust_difficulty bc = Some bc' ->
  Blockchain.chain bc' = Blockchain.chain bc
  /\ Blockchain.utxo_set bc' = Blockchain.utxo_set bc
  /\ Blockchain.pending_transactions bc' = Blockchain.pending_transactions bc
  /\ Blockchain.mempool bc' = Blockchain.mempool bc
  /\ Blockchain.block_time_target bc' = Blockchain.block_time_target bc
  /\ Blockchain.difficulty_adjustment_interval bc'
     = Blockchain.difficulty_adjustment_interval bc.
Proof.
  unfold Blockchain._adjust_difficulty.
  destruct (Z.of_nat (length (Blockchain.chain bc))
            <? Blockchain.difficulty_adjustment_interval bc);
    [intros [= <-]; repeat split | ].
  destruct (Z.of_nat (length (Blockchain.chain bc)) - Blockchain.last_adjustment_block bc
            <? Blockchain.difficulty_adjustment_interval bc);
    [intros [= <-]; repeat split | ].
  destruct (PyStr.index (Blockchain.chain bc) (- _)); [ | discriminate].
  destruct (PyStr.index (Blockchain.chain bc) (-1)); [ | discriminate].
  intros [= <-]. repeat split.
Qed.

Lemma adjust_total (bc : Blockchain.t) :
  0 < Blockchain.difficulty_adjustment_interval bc ->
  exists bc', Blockchain._adjust_difficulty bc = Some bc'.
Proof.
  intros Hpos. unfold Blockchain._adjust_difficulty.
  destruct (Z.of_nat (length (Blockchain.chain bc))
            <? Blockchain.difficulty_adjustment_interval bc) eqn:E1;
    [eexists; reflexivity | ].
  destruct (Z.of_nat (length (Blockchain.chain bc)) - Blockchain.last_adjustment_block bc
            <? Blockchain.difficulty_adjustment_interval bc) eqn:E2;
    [eexists; reflexivity | ].
  apply Z.ltb_ge in E1.
  destruct (index_back (Blockchain.chain bc) (Blockchain.difficulty_adjustment_interval bc))
    as [x ->]; [lia | ].
  rewrite index_last.
  destruct (Blockchain.chain bc) as [|y l] using rev_ind; [cbn in E1; lia | ].
  rewrite last_snoc. eexists; reflexivity.
Qed.

(** What one call of add_block does to a chain that has a tip. *)
Lemma add_block_cases (bc : Blockchain.t) (block tip : Block.t) (now : float) :
  last (Blockchain.chain bc) = Some tip ->
  0 < Blockchain.difficulty_adjustment_interval bc ->
  Blockchain.add_block bc block now = Some (bc, false)
  \/ (exists bc',
        Blockchain.add_block bc block now = Some (bc', true)
        /\ Blockchain.chain bc' = Blockchain.chain bc ++ [block]
        /\ Blockchain.difficulty_adjustment_interval bc'
           = Blockchain.difficulty_adjustment_interval bc
        /\ Block.previous_hash block = Block.hash tip
        /\ Block.index block = Z.of_nat (length (Blockchain.chain bc))).
Proof.
  intros Htip Hpos. unfold Blockchain.add_block.
  destruct (validate_total block now) as [[|] ->]; [ | left; reflexivity].
  rewrite index_last, Htip.
  destruct (String.eqb _ _) eqn:Eh; cbn [negb]; [ | left; reflexivity].
  destruct (Block.index block =? Z.of_nat (length (Blockchain.chain bc))) eqn:Ei;
    cbn [negb]; [ | left; reflexivity].
  destruct (forallb _ _); cbn [negb]; [ | left; reflexivity].
  right.
  match goal with |- context [Blockchain._adjust_difficulty ?x] => set (bc1 := x) end.
  destruct (adjust_total bc1) as [bc2 Hadj]; [exact Hpos | ].
  rewrite Hadj. exists bc2.
  destruct (adjust_frame _ _ Hadj) as [Hc [_ [_ [_ [_ Hi]]]]].
  split; [reflexivity | ]. split; [exact Hc | ]. split; [exact Hi | ].
  split; [apply String.eqb_eq; exact Eh | apply Z.eqb_eq; exact Ei].
Qed.

Lemma add_block_rejects (bc : Blockchain.t) (block tip : Block.t) (now : float) :
  last (Blockchain.chain bc) = Some tip ->
  Block.previous_hash block <> Block.hash tip
  \/ Block.index block <> Z.of_nat (length (Blockchain.chain bc)) ->
  Blockchain.add_block bc block now = Some (bc, false).
Proof.
  intros Htip Hbad. unfold Blockchain.add_block.
  destruct (validate_total block now) as [[|] ->]; [ | reflexivity].
  rewrite index_last, Htip.
  destruct (String.eqb _ _) eqn:Eh; cbn [negb]; [ | reflexivity].
  destruct (Block.index block =? Z.of_nat (length (Blockchain.chain bc))) eqn:Ei;
    cbn [negb]; [ | reflexivity].
  apply String.eqb_eq in Eh. apply Z.eqb_eq in Ei. destruct Hbad; contradiction.
Qed.

Lemma linked_snoc (c : list Block.t) (tip block : Block.t) :
  linked c -> last c = Some tip ->
  Block.previous_hash block = Block.hash tip ->
  Block.index block = Z.of_nat (length c) ->
  linked (c ++ [block]).
Proof.
  intros Hl Htip Hp Hi i previous current Hprev Hcur.
  destruct (decide (S i < length c)%nat) as [Hlt|Hge].
  - rewrite lookup_app_l in Hprev, Hcur by lia. exact (Hl i previous current Hprev Hcur).
  - assert (Hlen : S i = length c).
    { apply lookup_lt_Some in Hcur. rewrite length_app in Hcur. cbn in Hcur. lia. }
    rewrite lookup_app_r in Hcur by lia.
    replace (S i - length c)%nat with 0%nat in Hcur by lia. injection Hcur as <-.
    rewrite lookup_app_l in Hprev by lia.
    rewrite last_lookup in Htip. rewrite <- Hlen in Htip. cbn [Nat.pred] in Htip.
    rewrite Hprev in Htip. injection Htip as ->.
    split; [exact Hp | ]. rewrite Hi, Hlen. reflexivity.
Qed.

Lemma add_blocks_ok (calls : list (Block.t * float)) :
  forall bc, chain_ok bc -> exists bc', add_blocks bc calls = Some bc' /\ chain_ok bc'.
Proof.
  induction calls as [|[block now] calls IH]; intros bc Hok; cbn [add_blocks].
  - exists bc. split; [reflexivity | exact Hok].
  - destruct Hok as [[tip Htip] [Hpos Hl]].
    destruct (add_block_cases bc block tip now Htip Hpos)
      as [-> | [bc' [-> [Hc [Hi [Hp Hx]]]]]].
    + apply IH. split; [exists tip; exact Htip | split; assumption].
    + apply IH. split; [ | split].
      * exists block. rewrite Hc. apply last_snoc.
      * rewrite Hi. exact Hpos.
      * rewrite Hc. exact (linked_snoc _ _ _ Hl Htip Hp Hx).
Qed.

(** C10. From the genesis chain, every sequence of add_block calls runs to
    the end and leaves a chain in which each block from position 1 on names
    its predecessor's hash and carries its own position as index; and in the
    state reached, add_block returns False and changes nothing for a block
    whose previous_hash is not the tip's hash or whose index is not the
    chain's length. *)
Theorem chain_stays_linked
    (difficulty : Z) (block_time_target t_init t_set : float)
    (calls : list (Block.t * float)) :
  exists bc0 bc tip,
    Blockchain.init difficulty block_time_target t_init t_set = Some bc0
    /\ add_blocks bc0 calls = Some bc
    /\ linked (Blockchain.chain bc)
    /\ last (Blockchain.chain bc) = Some tip
    /\ forall (block : Block.t) (now : float),
         Block.previous_hash block <> Block.hash tip
         \/ Block.index block <> Z.of_nat (length (Blockchain.chain bc)) ->
         Blockchain.add_block bc block now = Some (bc, false).
Proof.
  destruct (init_shape difficulty block_time_target t_init t_set) as [g [Hinit _]].
  eexists. 
  match type of Hinit with _ = Some ?b => set (bc0 := b) in * end.
  destruct (add_blocks_ok calls bc0) as [bc [Hrun [[tip Htip] [_ Hl]]]].
  { split; [exists g; reflexivity | split; [reflexivity | ]].
    intros i previous current Hp Hc. destruct i; discriminate. }
  exists bc, tip. split; [exact Hinit | ]. split; [exact Hrun | ].
  split; [exact Hl | ]. split; [exact Htip | ].
  intros block now Hbad. exact (add_block_rejects bc block tip now Htip Hbad).
Qed.

End ChainFacts.

(** ** Supply *)

Section SupplyFacts.
Import Tx Ledger Chain Scenario.
Local Open Scope Qc_scope.

Lemma genesis_sums :
  utxo_sum genesis_utxos = Q2Qc 0
  /\ finite (UTXOSet.total_supply genesis_utxos) = true
  /\ value_of (UTXOSet.total_supply genesis_utxos) = Q2Qc 0.
Proof.
  unfold genesis_utxos. split; [ | split].
  - rewrite apply_transaction_sum by reflexivity. apply Qc_is_canon. reflexivity.
  - reflexivity.
  - apply Qc_is_canon. reflexivity.
Qed.

(** C1, as the code has it.  After the genesis block the amounts in the UTXO
    set sum to 0.  Applying, from there, blocks for the heights 1, 2, ...
    that each start with a coinbase of the reward of their height, under an
    unused transaction id, and whose other transactions spend unspent
    outputs under unused ids, leaves the sum of the amounts at the subsidies
    of those heights less the fees of the transactions (inputs minus
    outputs, which nobody collects).  The tracked total_supply is finite and
    stands for that sum whenever none of its binary64 updates on the way
    rounded. *)
Theorem supply_is_subsidies_less_fees
    (difficulty : Z) (block_time_target t_init t_set : float)
    (bc0 : Blockchain.t) (blocks : list Block.t) :
  Blockchain.init difficulty block_time_target t_init t_set = Some bc0 ->
  blocks_clean (Blockchain.utxo_set bc0) 1 blocks = true ->
  utxo_sum (Blockchain.utxo_set bc0) = Q2Qc 0
  /\ utxo_sum (fold_left Blockchain._update_utxo_set_on blocks (Blockchain.utxo_set bc0))
     = subsidies 1 (length blocks) - blocks_fees (Blockchain.utxo_set bc0) blocks
  /\ (blocks_exact (Blockchain.utxo_set bc0) blocks = true ->
      finite (UTXOSet.total_supply
                (fold_left Blockchain._update_utxo_set_on blocks (Blockchain.utxo_set bc0)))
      = true
      /\ value_of (UTXOSet.total_supply
                     (fold_left Blockchain._update_utxo_set_on blocks
                                (Blockchain.utxo_set bc0)))
         = utxo_sum (fold_left Blockchain._update_utxo_set_on blocks
                               (Blockchain.utxo_set bc0))).
Proof.
  intros Hinit Hclean.
  destruct (init_shape difficulty block_time_target t_init t_set) as [g [Hg _]].
  rewrite Hg in Hinit. injection Hinit as <-. cbn [Blockchain.utxo_set] in *.
  fold genesis_utxos in *.
  destruct genesis_sums as (G1 & G2 & G3).
  pose proof (blocks_sum blocks _ 1%Z ltac:(lia) Hclean) as B1.
  split; [exact G1 | ]. split; [rewrite B1, G1; ring | ].
  intros Hexact.
  destruct (blocks_supply blocks _ 1%Z ltac:(lia) Hclean Hexact G2) as [S1 S2].
  split; [exact S1 | ]. rewrite S2, B1, G1, G3. ring.
Qed.

End SupplyFacts.

Section SupplyExamples.
Import Tx Ledger Chain Scenario.

Lemma fresh_is_init : Blockchain.init 0 1 1700000000 1700000000 = Some (state_of fresh).
Proof.
  unfold fresh.
  destruct (init_shape 0 1 1700000000 1700000000) as [g [-> _]]. reflexivity.
Qed.

Lemma supply_is_subsidies_less_fees_witness :
  Blockchain.init 0 1 1700000000 1700000000 = Some (state_of fresh)
  /\ blocks_clean (Blockchain.utxo_set (state_of fresh)) 1 mined_blocks = true
  /\ utxo_sum (Blockchain.utxo_set (state_of fresh)) = Q2Qc 0
  /\ utxo_sum (fold_left Blockchain._update_utxo_set_on mined_blocks
                         (Blockchain.utxo_set (state_of fresh)))
     = (subsidies 1 (length mined_blocks)
        - blocks_fees (Blockchain.utxo_set (state_of fresh)) mined_blocks)%Qc
  /\ (blocks_exact (Blockchain.utxo_set (state_of fresh)) mined_blocks = true ->
      finite (UTXOSet.total_supply
                (fold_left Blockchain._update_utxo_set_on mined_blocks
                           (Blockchain.utxo_set (state_of fresh))))
      = true
      /\ value_of (UTXOSet.total_supply
                     (fold_left Blockchain._update_utxo_set_on mined_blocks
                                (Blockchain.utxo_set (state_of fresh))))
         = utxo_sum (fold_left Blockchain._update_utxo_set_on mined_blocks
                               (Blockchain.utxo_set (state_of fresh)))).
Proof.
  assert (H2 : blocks_clean (Blockchain.utxo_set (state_of fresh)) 1 mined_blocks = true)
    by (vm_compute; reflexivity).
  split; [exact fresh_is_init | ]. split; [exact H2 | ].
  exact (supply_is_subsidies_less_fees 0 1 1700000000 1700000000
           (state_of fresh) mined_blocks fresh_is_init H2).
Defined.

(** C1 as stated fails.  Right after construction, with the genesis block
    applied, the amounts sum to 0, not to the 50 coins of a subsidy at
    height 0.  After alice mined a block, paid carol 40 of her 50 coins and
    bob mined that payment, the chain has three blocks and the amounts sum
    to 90, as does total_supply: neither the 150 of three subsidies nor the
    100 of the two mined blocks. *)
Lemma supply_is_not_the_subsidies :
  Qc_eq_bool (utxo_sum (Blockchain.utxo_set (state_of fresh))) (subsidies 0 1) = false
  /\ length (Blockchain.chain (state_of state_after_bob)) = 3%nat
  /\ Qc_eq_bool (utxo_sum (Blockchain.utxo_set (state_of state_after_bob))) (Q2Qc 90) = true
  /\ PrimFloat.eqb (UTXOSet.total_supply (Blockchain.utxo_set (state_of state_after_bob))) 90
     = true
  /\ Qc_eq_bool (subsidies 0 3) (Q2Qc 150) = true
  /\ Qc_eq_bool (subsidies 1 2) (Q2Qc 100) = true.
Proof. vm_compute. repeat split. Qed.

(** The tracked total_supply need not stand for the sum of the amounts: on
    two blocks that meet every condition of the statement above, the second
    paying 0.4 out of the first coinbase, the last update of total_supply
    rounds, and the float it ends at is not the sum of the amounts. *)
Lemma total_supply_can_round :
  blocks_clean genesis_utxos 1 rounding_blocks = true
  /\ blocks_exact genesis_utxos rounding_blocks = false
  /\ Qc_eq_bool
       (value_of (UTXOSet.total_supply
                    (fold_left Blockchain._update_utxo_set_on rounding_blocks genesis_utxos)))
       (utxo_sum (fold_left Blockchain._update_utxo_set_on rounding_blocks genesis_utxos))
     = false.
Proof. vm_compute. repeat split. Qed.

End SupplyExamples.

(** ** The mempool and transaction validation *)

Section AdmissionFacts.
Import Tx Ledger Chain Scenario.

Lemma add_transaction_verdict (bc : Blockchain.t) (tx : Transaction) :
  snd (Blockchain.add_transaction bc tx) = true
  <-> Blockchain._validate_transaction bc tx = true
      /\ Blockchain.mempool bc !! get (tx_id tx) EmptyString = None.
Proof.
  unfold Blockchain.add_transaction.
  destruct (Blockchain._validate_transaction bc tx); cbn [negb snd].
  - destruct (Blockchain.mempool bc !! get (tx_id tx) EmptyString); cbn [snd].
    + split; [discriminate | intros [_ ?]; discriminate].
    + split; [intros _; split; reflexivity | reflexivity].
  - split; [discriminate | intros [? _]; discriminate].
Qed.

Lemma add_transaction_state (bc : Blockchain.t) (tx : Transaction) :
  snd (Blockchain.add_transaction bc tx) = true ->
  Blockchain.utxo_set (fst (Blockchain.add_transaction bc tx)) = Blockchain.utxo_set bc
  /\ Blockchain.mempool (fst (Blockchain.add_transaction bc tx))
     = <[get (tx_id tx) EmptyString := tx]> (Blockchain.mempool bc)
  /\ Blockchain.pending_transactions (fst (Blockchain.add_transaction bc tx))
     = Blockchain.pending_transactions bc ++ [tx]
  /\ Blockchain.chain (fst (Blockchain.add_transaction bc tx)) = Blockchain.chain bc.
Proof.
  unfold Blockchain.add_transaction.
  destruct (Blockchain._validate_transaction bc tx); cbn [negb snd]; [ | discriminate].
  destruct (Blockchain.mempool bc !! get (tx_id tx) EmptyString); cbn [snd fst];
    [discriminate | ].
  intros _. repeat split.
Qed.

Lemma validate_reads_utxo_set (bc bc' : Blockchain.t) (tx : Transaction) :
  Blockchain.utxo_set bc' = Blockchain.utxo_set bc ->
  Blockchain._validate_transaction bc' tx = Blockchain._validate_transaction bc tx.
Proof. unfold Blockchain._validate_transaction. intros ->. reflexivity. Qed.

(** C3, as the code has it.  Once a first transaction is admitted, a second
    one is admitted exactly when it validates against the chain's UTXO set,
    which admission left as it was, and its tx_id is neither the first one's
    nor already in the mempool: the inputs of mempool transactions are not
    looked at. *)
Theorem second_spend_is_admitted (bc : Blockchain.t) (tx1 tx2 : Transaction) :
  snd (Blockchain.add_transaction bc tx1) = true ->
  snd (Blockchain.add_transaction (fst (Blockchain.add_transaction bc tx1)) tx2) = true
  <-> Blockchain._validate_transaction bc tx2 = true
      /\ get (tx_id tx2) EmptyString <> get (tx_id tx1) EmptyString
      /\ Blockchain.mempool bc !! get (tx_id tx2) EmptyString = None.
Proof.
  intros H1. destruct (add_transaction_state bc tx1 H1) as [Hu [Hm _]].
  rewrite add_transaction_verdict, (validate_reads_utxo_set bc _ tx2 Hu), Hm.
  rewrite lookup_insert_None. split.
  - intros [Hv [Hnone Hne]]. repeat split; [exact Hv | congruence | exact Hnone].
  - intros [Hv [Hne Hnone]]. repeat split; [exact Hv | exact Hnone | congruence].
Qed.

Lemma second_spend_is_admitted_witness :
  snd (Blockchain.add_transaction (state_of state_after_alice) pay_carol) = true
  /\ (snd (Blockchain.add_transaction
             (fst (Blockchain.add_transaction (state_of state_after_alice) pay_carol))
             pay_dave) = true
      <-> Blockchain._validate_transaction (state_of state_after_alice) pay_dave = true
          /\ get (tx_id pay_dave) EmptyString <> get (tx_id pay_carol) EmptyString
          /\ Blockchain.mempool (state_of state_after_alice)
               !! get (tx_id pay_dave) EmptyString = None).
Proof.
  assert (H : snd (Blockchain.add_transaction (state_of state_after_alice) pay_carol) = true)
    by (vm_compute; reflexivity).
  split; [exact H | ].
  exact (second_spend_is_admitted (state_of state_after_alice) pay_carol pay_dave H).
Defined.

(** C3 as stated fails: with alice's coinbase output unspent on the chain,
    the payment to carol and the payment to dave both name it as their only
    input, and add_transaction returns True for the first and then for the
    second. *)
Lemma mempool_admits_both_spends :
  inputs pay_carol = inputs pay_dave
  /\ (snd (Blockchain.add_transaction (state_of state_after_alice) pay_carol),
      snd (Blockchain.add_transaction
             (fst (Blockchain.add_transaction (state_of state_after_alice) pay_carol))
             pay_dave))
     = (true, true).
Proof. vm_compute. split; reflexivity. Qed.




End AdmissionFacts.

(** ** Difficulty adjustment *)

Section DifficultyFacts.
Import Tx Chain Scenario.

(** C4, as the code has it.  The adjustment never raises on a chain object
    (whose interval is 2016).  It changes nothing while the chain is shorter
    than the interval or fewer than an interval's blocks were added since
    the last adjustment.  Otherwise it records the chain's length as the last
    adjustment and compares ratio = expected_time / time_span (1.0 when
    time_span is not positive), between the block an interval from the end
    and the last block, with 1.1 and 0.9: when the ratio is neither above
    1.1 nor below 0.9 the difficulty stays, otherwise it becomes
    max(1, difficulty - 1) or min(32, difficulty + 1).  A difficulty within
    1..32 stays there and changes by at most one. *)
Theorem difficulty_moves_one_step (bc : Blockchain.t) :
  0 < Blockchain.difficulty_adjustment_interval bc ->
  exists bc',
    Blockchain._adjust_difficulty bc = Some bc'
    /\ Blockchain.chain bc' = Blockchain.chain bc
    /\ (Z.of_nat (length (Blockchain.chain bc)) < Blockchain.difficulty_adjustment_interval bc
        \/ Z.of_nat (length (Blockchain.chain bc)) - Blockchain.last_adjustment_block bc
           < Blockchain.difficulty_adjustment_interval bc ->
        bc' = bc)
    /\ (Blockchain.difficulty_adjustment_interval bc <= Z.of_nat (length (Blockchain.chain bc)) ->
        Blockchain.difficulty_adjustment_interval bc
        <= Z.of_nat (length (Blockchain.chain bc)) - Blockchain.last_adjustment_block bc ->
        exists start_block end_block,
          PyStr.index (Blockchain.chain bc) (- Blockchain.difficulty_adjustment_interval bc)
          = Some start_block
          /\ PyStr.index (Blockchain.chain bc) (-1) = Some end_block
          /\ Blockchain.last_adjustment_block bc' = Z.of_nat (length (Blockchain.chain bc))
          /\ (PrimFloat.ltb 1.1 (retarget_ratio bc start_block end_block) = false ->
              PrimFloat.ltb (retarget_ratio bc start_block end_block) 0.9 = false ->
              Blockchain.difficulty bc' = Blockchain.difficulty bc)
          /\ (PrimFloat.ltb 1.1 (retarget_ratio bc start_block end_block) = true
              \/ PrimFloat.ltb (retarget_ratio bc start_block end_block) 0.9 = true ->
              Blockchain.difficulty bc' = Z.max 1 (Blockchain.difficulty bc - 1)
              \/ Blockchain.difficulty bc' = Z.min 32 (Blockchain.difficulty bc + 1))
          /\ (1 <= Blockchain.difficulty bc <= 32 ->
              1 <= Blockchain.difficulty bc' <= 32
              /\ -1 <= Blockchain.difficulty bc' - Blockchain.difficulty bc <= 1)).
Proof.
  intros Hpos. destruct (adjust_total bc Hpos) as [bc' Hadj]. exists bc'.
  split; [exact Hadj | ]. destruct (adjust_frame bc bc' Hadj) as [Hc _].
  split; [exact Hc | ].
  unfold Blockchain._adjust_difficulty in Hadj.
  destruct (Z.of_nat (length (Blockchain.chain bc))
            <? Blockchain.difficulty_adjustment_interval bc) eqn:E1.
  { injection Hadj as <-. apply Z.ltb_lt in E1. split; [reflexivity | lia]. }
  destruct (Z.of_nat (length (Blockchain.chain bc)) - Blockchain.last_adjustment_block bc
            <? Blockchain.difficulty_adjustment_interval bc) eqn:E2.
  { injection Hadj as <-. apply Z.ltb_lt in E2. split; [reflexivity | lia]. }
  apply Z.ltb_ge in E1, E2.
  destruct (PyStr.index (Blockchain.chain bc) (- _)) as [start_block|]; [ | discriminate].
  destruct (PyStr.index (Blockchain.chain bc) (-1)) as [end_block|]; [ | discriminate].
  injection Hadj as <-.
  cbn [Blockchain.with_difficulty Blockchain.difficulty Blockchain.last_adjustment_block].
  fold (retarget_ratio bc start_block end_block).
  split; [lia | ]. intros _ _. exists start_block, end_block.
  split; [reflexivity | ]. split; [reflexivity | ]. split; [reflexivity | ].
  destruct (PrimFloat.ltb 1.1 (retarget_ratio bc start_block end_block));
    [ | destruct (PrimFloat.ltb (retarget_ratio bc start_block end_block) 0.9)];
    (split; [intros; try discriminate; reflexivity | ]);
    (split; [intros [? | ?]; try discriminate; tauto | lia]).
Qed.

Lemma difficulty_moves_one_step_witness :
  0 < Blockchain.difficulty_adjustment_interval slow_chain
  /\ exists bc', Blockchain._adjust_difficulty slow_chain = Some bc'
                 /\ Blockchain.chain bc' = Blockchain.chain slow_chain.
Proof.
  assert (H : 0 < Blockchain.difficulty_adjustment_interval slow_chain) by reflexivity.
  split; [exact H | ].
  destruct (difficulty_moves_one_step slow_chain H) as [bc' [H1 [H2 _]]].
  exists bc'. split; [exact H1 | exact H2].
Defined.

(** C4 as stated fails.  On a chain of 2016 blocks taking 8064 seconds from
    first to last, four times the 2016 seconds expected, the claim makes the
    new target four times the old one.  The code raises difficulty from 4 to
    5, which divides the target by 16. *)
Lemma retarget_is_not_the_clamped_ratio :
  (option_map Block.timestamp (PyStr.index (Blockchain.chain slow_chain) (-2016)),
   option_map Block.timestamp (PyStr.index (Blockchain.chain slow_chain) (-1)),
   PrimFloat.mul (Blockchain.block_time_target slow_chain) (PyStr.float_of_int 2016))
  = (Some 0%float, Some 8064%float, 2016%float)
  /\ Blockchain.difficulty slow_chain = 4
  /\ option_map Blockchain.difficulty (Blockchain._adjust_difficulty slow_chain) = Some 5
  /\ (target_of 5 =? 4 * target_of 4) = false
  /\ 16 * target_of 5 = target_of 4.
Proof.
  split; [vm_compute; reflexivity | ]. split; [reflexivity | ].
  split; [vm_compute; reflexivity | ]. split; vm_compute; reflexivity.
Qed.

End DifficultyFacts.

(** ** The script engine *)

Section ScriptFacts.
Import ScriptEngine.

(** C7 fails on the code: OP_RETURN pops the stack and returns True, so the
    run goes on.  A script of one pushed item, OP_RETURN and one more item
    evaluates to True. *)
Theorem op_return_script_succeeds :
  execute "sig OP_RETURN addr" = Some true
  /\ forall (top : item) (rest : list item),
       _execute_operation (top :: rest) "OP_RETURN" = Some (true, rest).
Proof. split; [vm_compute; reflexivity | intros; reflexivity]. Qed.

End ScriptFacts.

(** ** Signature verification *)

Section SignatureFacts.
Import Tx Signature Scenario.

(** C8, as the code has it.  verify_signature returns what the key object's
    verify decides on the SHA-256 of the sorted JSON dump: True when it
    returns, False when it raises InvalidSignature.  For an elliptic-curve
    key that is: the signature decodes to a pair (r, s), both within
    1 .. n - 1, that satisfies the ECDSA equation on the SHA-256 of that
    hash.  No bound on s other than s < n is applied. *)
Theorem verification_is_the_key_verdict
    (tx : Transaction) (signature : list byte) (public_key : PublicKey) (Q : point) :
  (verify_signature tx signature public_key = Some true
   <-> verify public_key signature (SHA256.sha256 (PyBytes.encode (tx_json tx))) = Returns)
  /\ (verify_signature tx signature public_key = Some false
      <-> verify public_key signature (SHA256.sha256 (PyBytes.encode (tx_json tx)))
          = RaisesInvalidSignature)
  /\ (verify_signature tx signature (EllipticCurvePublicKey Q) = Some true
      <-> exists r s,
            der_decode signature = Some (r, s)
            /\ 1 <= r < n /\ 1 <= s < n
            /\ ecdsa_equation Q (digest_of tx) r s = true).
Proof.
  unfold verify_signature. split; [ | split].
  - destruct (verify public_key signature _); split; congruence.
  - destruct (verify public_key signature _); split; congruence.
  - cbn [verify EllipticCurvePublicKey]. unfold ecdsa_verify, digest_of.
    destruct (der_decode signature) as [[r s]|].
    + destruct (1 <=? r) eqn:E1, (r <? n) eqn:E2, (1 <=? s) eqn:E3, (s <? n) eqn:E4;
        cbn [andb];
        try (split; [discriminate | intros [r' [s' [[= <- <-] [? [? _]]]]]; lia]).
      destruct (ecdsa_equation Q _ r s) eqn:Ee.
      * split; [ | reflexivity]. intros _. exists r, s. repeat split; try lia. exact Ee.
      * split; [discriminate | ]. intros [r' [s' [[= <- <-] [_ [_ He]]]]]. congruence.
    + split; [discriminate | intros [r' [s' [? _]]]; discriminate].
Qed.

(** C8 as stated fails: the signature made on the transaction with the
    private key, its S replaced by n - S, has S above n / 2, and
    verify_signature returns True on it. *)
Lemma high_s_signature_verifies :
  (high_s high_s_signature, verify_signature signed_tx high_s_signature public_key)
  = (true, Some true).
Proof. vm_compute. reflexivity. Qed.

End SignatureFacts.

(** ** The block hash *)

Section HashExamples.
Import Scenario.

(** C2 as stated fails: for the genesis header the hash operation returns
    297b..., the double SHA-256 of the serialized header is 1fe4... *)
Lemma header_hash_is_not_double_sha256 :
  (option_map BlockHeader.hash genesis_header,
   option_map (fun h => PyBytes.hex (Hashing.double_sha256 (BlockHeader.serialize h)))
              genesis_header)
  = (Some "297b068f668f9a7266e5c92c29a403d25c25f442399bd5b1a91df0d22ddf99b7",
     Some "1fe49f00932b0ae55b74a4327bc131054e6ef3cb0ef0d172e02e09db9b5135a3").
Proof. vm_compute. reflexivity. Qed.

End HashExamples.

(** ** The UTXO set: lookups, entries, the address index *)

Section UtxoSetFacts.
Import Tx Ledger UtxoInv.

(** X1. get_utxo after add_utxo and after remove_utxo: the outpoint written
    holds the data given, the outpoint removed is gone, every other outpoint
    reads as before. *)
Theorem utxo_lookup_tracks_updates
    (s : UTXOSet.t) (id id' : string) (i i' : Z) (u : UTXO.t) :
  UTXOSet.get_utxo (UTXOSet.add_utxo s id i u) id' i'
  = (if decide (id = id' /\ i = i') then Some u else UTXOSet.get_utxo s id' i')
  /\ UTXOSet.get_utxo (UTXOSet.remove_utxo s id i) id' i'
     = (if decide (id = id' /\ i = i') then None else UTXOSet.get_utxo s id' i').
Proof. split; [apply get_utxo_add | apply get_utxo_remove]. Qed.

(** X2. remove_utxo of an outpoint that is not in the set leaves the whole set,
    its address index and total_supply as they were. *)
Theorem remove_missing_utxo (s : UTXOSet.t) (id : string) (i : Z) :
  UTXOSet.get_utxo s id i = None -> UTXOSet.remove_utxo s id i = s.
Proof.
  unfold UTXOSet.get_utxo, UTXOSet.remove_utxo. intros Hget.
  destruct (UTXOSet.utxos s !! id) as [inner|]; [ | reflexivity].
  cbn [default from_option Datatypes.id] in Hget. rewrite Hget. reflexivity.
Qed.

Lemma remove_missing_utxo_witness :
  UTXOSet.get_utxo UTXOSet.init "ab" 0 = None
  /\ UTXOSet.remove_utxo UTXOSet.init "ab" 0 = UTXOSet.init.
Proof.
  assert (H : UTXOSet.get_utxo UTXOSet.init "ab" 0 = None) by reflexivity.
  split; [exact H | exact (remove_missing_utxo UTXOSet.init "ab" 0 H)].
Defined.

(** X3. add_utxo on an outpoint that is already in the set overwrites it: the
    amounts in the set change by the new amount less the old one, while
    total_supply has the whole new amount added. *)
Theorem overwritten_utxo_stays_in_supply
    (s : UTXOSet.t) (id : string) (i : Z) (old u : UTXO.t) :
  UTXOSet.get_utxo s id i = Some old ->
  utxo_sum (UTXOSet.add_utxo s id i u)
  = (utxo_sum s - value_of (UTXO.amount old) + value_of (UTXO.amount u))%Qc
  /\ UTXOSet.total_supply (UTXOSet.add_utxo s id i u)
     = PrimFloat.add (UTXOSet.total_supply s) (UTXO.amount u)
  /\ UTXOSet.get_utxo (UTXOSet.add_utxo s id i u) id i = Some u.
Proof.
  intros Hget. split; [ | split; [reflexivity | ]].
  - unfold UTXOSet.get_utxo, utxo_sum, UTXOSet.add_utxo in *. cbn [UTXOSet.utxos].
    destruct (UTXOSet.utxos s !! id) as [m|] eqn:Hm;
      cbn [default from_option Datatypes.id] in *;
      [ | rewrite lookup_empty in Hget; discriminate].
    rewrite (outer_sum_replace _ _ m) by exact Hm.
    rewrite <- (insert_delete_eq m), inner_sum_insert by apply lookup_delete_eq.
    rewrite (inner_sum_delete m i old Hget). ring.
  - rewrite get_utxo_add. rewrite decide_True by (split; reflexivity). reflexivity.
Qed.

Lemma overwritten_utxo_stays_in_supply_witness :
  let old := {| UTXO.address := "a"; UTXO.amount := 5; UTXO.script_pubkey := "";
                UTXO.tx_id := "t"; UTXO.output_index := 0 |} in
  let new := {| UTXO.address := "b"; UTXO.amount := 7; UTXO.script_pubkey := "";
                UTXO.tx_id := "t"; UTXO.output_index := 0 |} in
  let s := UTXOSet.add_utxo UTXOSet.init "t" 0 old in
  UTXOSet.get_utxo s "t" 0 = Some old
  /\ utxo_sum (UTXOSet.add_utxo s "t" 0 new)
     = (utxo_sum s - value_of (UTXO.amount old) + value_of (UTXO.amount new))%Qc
  /\ UTXOSet.total_supply (UTXOSet.add_utxo s "t" 0 new)
     = PrimFloat.add (UTXOSet.total_supply s) (UTXO.amount new)
  /\ UTXOSet.get_utxo (UTXOSet.add_utxo s "t" 0 new) "t" 0 = Some new.
Proof.
  intros old new s.
  assert (H : UTXOSet.get_utxo s "t" 0 = Some old) by (vm_compute; reflexivity).
  split; [exact H | exact (overwritten_utxo_stays_in_supply s "t" 0 old new H)].
Defined.

Lemma add_utxo_no_empty (s : UTXOSet.t) (id : string) (i : Z) (u : UTXO.t) :
  no_empty_entry s -> no_empty_entry (UTXOSet.add_utxo s id i u).
Proof.
  intros Hs id' inner. unfold UTXOSet.add_utxo. cbn [UTXOSet.utxos].
  destruct (decide (id = id')) as [<-|Hne].
  - rewrite lookup_insert_eq. intros [= <-]. apply insert_non_empty.
  - rewrite lookup_insert_ne by exact Hne. apply Hs.
Qed.

Lemma remove_utxo_no_empty (s : UTXOSet.t) (id : string) (i : Z) :
  no_empty_entry s -> no_empty_entry (UTXOSet.remove_utxo s id i).
Proof.
  intros Hs id' inner. unfold UTXOSet.remove_utxo.
  destruct (UTXOSet.utxos s !! id) as [m|] eqn:Hm; [ | apply Hs].
  destruct (m !! i) as [u|]; [ | apply Hs]. cbn [UTXOSet.utxos].
  destruct (decide (delete i m = ∅)) as [He|He].
  - destruct (decide (id = id')) as [<-|Hne].
    + rewrite lookup_delete_eq. discriminate.
    + rewrite lookup_delete_ne by exact Hne. apply Hs.
  - destruct (decide (id = id')) as [<-|Hne].
    + rewrite lookup_insert_eq. intros [= <-]. exact He.
    + rewrite lookup_insert_ne by exact Hne. apply Hs.
Qed.

Lemma add_utxo_indexed (s : UTXOSet.t) (id : string) (i : Z) (u : UTXO.t) :
  indexed s -> indexed (UTXOSet.add_utxo s id i u).
Proof.
  intros Hs id' i' u' Hget Haddr. rewrite get_utxo_add in Hget.
  unfold UTXOSet.add_utxo. cbn [UTXOSet.address_utxos].
  destruct (decide (id = id' /\ i = i')) as [[<- <-]|Hne].
  - injection Hget as <-.
    destruct (String.eqb (UTXO.address u) EmptyString) eqn:Ea;
      [apply String.eqb_eq in Ea; contradiction | ].
    rewrite lookup_insert_eq. cbn [default from_option Datatypes.id]. set_solver.
  - pose proof (Hs id' i' u' Hget Haddr) as Hin.
    destruct (String.eqb (UTXO.address u) EmptyString); [exact Hin | ].
    destruct (decide (UTXO.address u = UTXO.address u')) as [Heq|Hd].
    + rewrite Heq, lookup_insert_eq. cbn [default from_option Datatypes.id]. set_solver.
    + rewrite lookup_insert_ne by exact Hd. exact Hin.
Qed.

Lemma remove_utxo_indexed (s : UTXOSet.t) (id : string) (i : Z) :
  indexed s -> indexed (UTXOSet.remove_utxo s id i).
Proof.
  intros Hs id' i' u' Hget Haddr. rewrite get_utxo_remove in Hget.
  destruct (decide (id = id' /\ i = i')) as [|Hne]; [discriminate | ].
  pose proof (Hs id' i' u' Hget Haddr) as Hin.
  unfold UTXOSet.remove_utxo.
  destruct (UTXOSet.utxos s !! id) as [m|]; [ | exact Hin].
  destruct (m !! i) as [u|]; [ | exact Hin]. cbn [UTXOSet.address_utxos].
  destruct (String.eqb (UTXO.address u) EmptyString); [exact Hin | ].
  destruct (decide (UTXO.address u = UTXO.address u')) as [Heq|Hd].
  - rewrite Heq, lookup_insert_eq. cbn [default from_option Datatypes.id].
    apply elem_of_difference. split; [exact Hin | ].
    rewrite elem_of_singleton. intros [= -> ->]. apply Hne. split; reflexivity.
  - rewrite lookup_insert_ne by exact Hd. exact Hin.
Qed.

Lemma apply_transaction_keeps (P : UTXOSet.t -> Prop) :
  (forall s id i u, P s -> P (UTXOSet.add_utxo s id i u)) ->
  (forall s id i, P s -> P (UTXOSet.remove_utxo s id i)) ->
  forall (blocks : list Block.t) (s : UTXOSet.t),
    P s -> P (fold_left Blockchain._update_utxo_set_on blocks s).
Proof.
  intros Hadd Hrem.
  assert (Hspend : forall ins s, P s -> P (fold_left Blockchain.spend_input ins s)).
  { induction ins as [|x ins IH]; intros s Hs; cbn [fold_left]; [exact Hs | ].
    apply IH. unfold Blockchain.spend_input.
    destruct (Blockchain.addressable x); [apply Hrem | ]; exact Hs. }
  assert (Hout : forall outs s id i, P s -> P (Blockchain.create_outputs s id i outs)).
  { induction outs as [|o outs IH]; intros s id i Hs; cbn [Blockchain.create_outputs];
      [exact Hs | ].
    apply IH, Hadd, Hs. }
  assert (Htxs : forall txs s, P s -> P (fold_left Blockchain.apply_transaction txs s)).
  { induction txs as [|tx txs IH]; intros s Hs; cbn [fold_left]; [exact Hs | ].
    apply IH. unfold Blockchain.apply_transaction. apply Hout, Hspend, Hs. }
  induction blocks as [|b blocks IH]; intros s Hs; cbn [fold_left]; [exact Hs | ].
  apply IH. unfold Blockchain._update_utxo_set_on. apply Htxs, Hs.
Qed.

(** X4. Whatever blocks are applied to the empty UTXO set, no transaction id is
    left with an empty dictionary of outputs: remove_utxo deletes the entry
    of a transaction with its last output. *)
Theorem utxo_entries_never_empty (blocks : list Block.t) :
  no_empty_entry (fold_left Blockchain._update_utxo_set_on blocks UTXOSet.init).
Proof.
  apply apply_transaction_keeps.
  - intros. apply add_utxo_no_empty. assumption.
  - intros. apply remove_utxo_no_empty. assumption.
  - intros id inner H. unfold UTXOSet.init in H. cbn [UTXOSet.utxos] in H.
    rewrite lookup_empty in H. discriminate.
Qed.

(** X5. Whatever blocks are applied to the empty UTXO set, get_utxos_for_address
    lists every unspent output under the address it carries. *)
Theorem unspent_outputs_are_listed
    (blocks : list Block.t) (id : string) (i : Z) (u : UTXO.t) :
  UTXOSet.get_utxo (fold_left Blockchain._update_utxo_set_on blocks UTXOSet.init) id i
  = Some u ->
  UTXO.address u <> EmptyString ->
  In (id, i, u)
     (UTXOSet.get_utxos_for_address
        (fold_left Blockchain._update_utxo_set_on blocks UTXOSet.init) (UTXO.address u)).
Proof.
  set (s := fold_left Blockchain._update_utxo_set_on blocks UTXOSet.init).
  intros Hget Haddr.
  assert (Hs : indexed s).
  { apply apply_transaction_keeps.
    - intros. apply add_utxo_indexed. assumption.
    - intros. apply remove_utxo_indexed. assumption.
    - intros id' i' u' H. unfold UTXOSet.get_utxo, UTXOSet.init in H.
      cbn [UTXOSet.utxos] in H. rewrite lookup_empty in H.
      cbn [default from_option Datatypes.id] in H. rewrite lookup_empty in H.
      discriminate. }
  pose proof (Hs id i u Hget Haddr) as Hin.
  unfold UTXOSet.get_utxos_for_address, UTXOSet.address_entries.
  apply in_flat_map. exists (id, i). split.
  - apply list_elem_of_In, elem_of_elements. exact Hin.
  - cbn [fst snd]. rewrite Hget. left. reflexivity.
Qed.

Lemma unspent_outputs_are_listed_witness :
  let blocks := [Examples.block_with 0 "00" [Genesis.genesis_transaction]] in
  let s := fold_left Blockchain._update_utxo_set_on blocks UTXOSet.init in
  UTXOSet.get_utxo s Genesis.zero_hash 0 = Some Examples.genesis_utxo
  /\ UTXO.address Examples.genesis_utxo <> EmptyString
  /\ In (Genesis.zero_hash, 0, Examples.genesis_utxo)
        (UTXOSet.get_utxos_for_address s (UTXO.address Examples.genesis_utxo)).
Proof.
  intros blocks s.
  assert (H1 : UTXOSet.get_utxo s Genesis.zero_hash 0 = Some Examples.genesis_utxo)
    by (vm_compute; reflexivity).
  assert (H2 : UTXO.address Examples.genesis_utxo <> EmptyString) by discriminate.
  split; [exact H1 | ]. split; [exact H2 | ].
  exact (unspent_outputs_are_listed blocks Genesis.zero_hash 0 Examples.genesis_utxo H1 H2).
Defined.

End UtxoSetFacts.

(** ** The mempool, candidate blocks and chain validation *)

Section NodeFacts.
Import Tx Ledger Chain.

(** X6. A rejected add_transaction leaves the node as it was; an admitted
    transaction is rejected when submitted again, and that second call
    changes nothing. *)
Theorem submission_is_remembered (bc : Blockchain.t) (tx : Transaction) :
  (snd (Blockchain.add_transaction bc tx) = false ->
   fst (Blockchain.add_transaction bc tx) = bc)
  /\ (snd (Blockchain.add_transaction bc tx) = true ->
      Blockchain.add_transaction (fst (Blockchain.add_transaction bc tx)) tx
      = (fst (Blockchain.add_transaction bc tx), false)).
Proof.
  split.
  - unfold Blockchain.add_transaction.
    destruct (Blockchain._validate_transaction bc tx); cbn [negb]; [ | reflexivity].
    destruct (Blockchain.mempool bc !! _); [reflexivity | discriminate].
  - intros H. destruct (add_transaction_state bc tx H) as [Hu [Hm _]].
    apply add_transaction_verdict in H. destruct H as [Hv _].
    set (bc' := fst (Blockchain.add_transaction bc tx)) in *.
    unfold Blockchain.add_transaction.
    rewrite (validate_reads_utxo_set bc bc' tx Hu), Hv. cbn [negb].
    rewrite Hm, lookup_insert_eq. reflexivity.
Qed.

Lemma list_size_snoc (acc : list Transaction) (tx : Transaction) :
  Blockchain.list_size (acc ++ [tx])
  = Blockchain.list_size acc + Blockchain.tx_size tx
    + match acc with [] => 0 | _ => 2 end.
Proof.
  destruct acc as [|a acc].
  - unfold Blockchain.list_size. cbn [app fold_left length]. lia.
  - unfold Blockchain.list_size. cbn [app].
    rewrite app_comm_cons, fold_left_app, length_app. cbn [fold_left length]. lia.
Qed.

Lemma take_pending_spec (copy : list Transaction) :
  forall acc,
    Blockchain.list_size acc <= Blockchain.max_block_size + 2 ->
    Blockchain.list_size (Blockchain.take_pending copy acc) <= Blockchain.max_block_size + 2
    /\ exists taken rest,
         Blockchain.take_pending copy acc = acc ++ taken
         /\ copy = taken ++ rest
         /\ match rest with
            | [] => True
            | tx :: _ =>
                Blockchain.max_block_size
                < Blockchain.list_size (Blockchain.take_pending copy acc)
                  + Blockchain.tx_size tx
            end.
Proof.
  induction copy as [|tx copy IH]; intros acc Hacc; cbn [Blockchain.take_pending].
  - split; [exact Hacc | ]. exists [], []. rewrite app_nil_r. repeat split.
  - destruct (Blockchain.max_block_size <? _) eqn:E.
    + split; [exact Hacc | ]. exists [], (tx :: copy). rewrite app_nil_r.
      split; [reflexivity | split; [reflexivity | apply Z.ltb_lt; exact E]].
    + apply Z.ltb_ge in E.
      destruct (IH (acc ++ [tx])) as [Hsz [taken [rest [Ht [Hc Hr]]]]].
      { rewrite list_size_snoc. destruct acc; lia. }
      split; [exact Hsz | ]. exists (tx :: taken), rest.
      split; [rewrite Ht, <- app_assoc; reflexivity | ].
      split; [rewrite Hc; reflexivity | exact Hr].
Qed.

(** X7. create_block takes a prefix of the pending transactions, as long as the
    next one fits: the JSON dump of the list taken is at most two bytes over
    the 1,000,000-byte limit, and either nothing is left or the first
    transaction left would not have passed the size test. *)
Theorem candidate_block_is_a_bounded_prefix (pending : list Transaction) :
  Blockchain.list_size (Blockchain.take_pending pending []) <= Blockchain.max_block_size + 2
  /\ exists rest,
       pending = Blockchain.take_pending pending [] ++ rest
       /\ match rest with
          | [] => True
          | tx :: _ =>
              Blockchain.max_block_size
              < Blockchain.list_size (Blockchain.take_pending pending [])
                + Blockchain.tx_size tx
          end.
Proof.
  destruct (take_pending_spec pending []) as [Hsz [taken [rest [Ht [Hc Hr]]]]].
  { cbv [Blockchain.list_size Blockchain.max_block_size]. lia. }
  split; [exact Hsz | ]. exists rest. cbn [app] in Ht. rewrite Ht at 1.
  split; [exact Hc | exact Hr].
Qed.

Lemma candidate_prefix (pending : list Transaction) :
  exists rest, pending = Blockchain.take_pending pending [] ++ rest.
Proof.
  destruct (take_pending_spec pending []) as [_ [taken [rest [Ht [Hc _]]]]].
  { cbv [Blockchain.list_size Blockchain.max_block_size]. lia. }
  exists rest. rewrite Ht. exact Hc.
Qed.

Lemma create_block_shape
    (bc : Blockchain.t) (miner : string) (t1 t2 : float) (tip : Block.t) :
  last (Blockchain.chain bc) = Some tip ->
  Z.of_nat (length (Blockchain.chain bc)) < 1024 * Blockchain.halving_interval ->
  exists bc' block coinbase,
    Blockchain.create_block bc miner t1 t2 = Some (bc', block)
    /\ Blockchain._create_coinbase_transaction bc miner t1 = Some coinbase
    /\ Block.transactions block
       = coinbase :: Blockchain.take_pending (Blockchain.pending_transactions bc) []
    /\ Blockchain.take_pending (Blockchain.pending_transactions bc) []
       ++ Blockchain.pending_transactions bc'
       = Blockchain.pending_transactions bc
    /\ Blockchain.mempool bc' = Blockchain.mempool bc
    /\ Blockchain.chain bc' = Blockchain.chain bc
    /\ Blockchain.utxo_set bc' = Blockchain.utxo_set bc
    /\ Blockchain.difficulty_adjustment_interval bc'
       = Blockchain.difficulty_adjustment_interval bc
    /\ Block.index block = Z.of_nat (length (Blockchain.chain bc))
    /\ Block.previous_hash block = Block.hash tip
    /\ Block.difficulty block = Blockchain.difficulty bc
    /\ inputs coinbase = Some []
    /\ exists reward,
         Blockchain.block_reward
           (Z.of_nat (length (Blockchain.chain bc)) / Blockchain.halving_interval)
         = Some reward
         /\ outputs coinbase
            = Some [ {| address := Some miner;
                        amount := Some reward;
                        script_pubkey := Some (Blockchain.p2pkh_script miner) |} ].
Proof.
  intros Htip Hlen.
  destruct (candidate_prefix (Blockchain.pending_transactions bc)) as [rest Hrest].
  unfold Blockchain.create_block, Blockchain._create_coinbase_transaction.
  cbv zeta. cbn [Blockchain.chain].
  assert (Hh : (1024 <=? Z.of_nat (length (Blockchain.chain bc)) / Blockchain.halving_interval)
               = false).
  { apply Z.leb_gt. apply Z.div_lt_upper_bound; [reflexivity | lia]. }
  unfold Blockchain.block_reward.
  rewrite Hh, index_last, Htip.
  unfold Block.init.
  match goal with
  | |- context [Block._calculate_merkle_root ?l] =>
      destruct (merkle_root_total l) as [root Hroot]; rewrite Hroot
  end.
  eexists. eexists. eexists. split; [reflexivity | ]. split; [reflexivity | ].
  cbn [Block.transactions Block.index Block.previous_hash Block.difficulty
       Blockchain.pending_transactions Blockchain.mempool Blockchain.chain
       Blockchain.utxo_set Blockchain.difficulty_adjustment_interval inputs outputs].
  split; [reflexivity | ].
  split; [ | repeat split; eexists; split; reflexivity].
  set (taken := Blockchain.take_pending _ []) in *.
  rewrite Hrest. change skipn with (@drop Transaction).
  rewrite drop_app_length. reflexivity.
Qed.

(** X8. The candidate block of create_block, on a chain below 1024 halvings: it
    extends the tip at the next index with the node's difficulty; its first
    transaction is the coinbase, with no inputs and one output paying the
    miner the subsidy of that height under the pay-to-public-key-hash script;
    the transactions taken follow, and are gone from the pending list, while
    the mempool keeps them. *)
Theorem candidate_block_contents
    (bc : Blockchain.t) (miner : string) (t1 t2 : float) (tip : Block.t) :
  last (Blockchain.chain bc) = Some tip ->
  Z.of_nat (length (Blockchain.chain bc)) < 1024 * Blockchain.halving_interval ->
  exists bc' block coinbase,
    Blockchain.create_block bc miner t1 t2 = Some (bc', block)
    /\ Block.transactions block
       = coinbase :: Blockchain.take_pending (Blockchain.pending_transactions bc) []
    /\ inputs coinbase = Some []
    /\ (exists reward,
          outputs coinbase
          = Some [ {| address := Some miner;
                      amount := Some reward;
                      script_pubkey := Some (Blockchain.p2pkh_script miner) |} ]
          /\ finite reward = true
          /\ value_of reward = subsidy (Z.of_nat (length (Blockchain.chain bc))))
    /\ Block.index block = Z.of_nat (length (Blockchain.chain bc))
    /\ Block.previous_hash block = Block.hash tip
    /\ Block.difficulty block = Blockchain.difficulty bc
    /\ Blockchain.take_pending (Blockchain.pending_transactions bc) []
       ++ Blockchain.pending_transactions bc'
       = Blockchain.pending_transactions bc
    /\ Blockchain.mempool bc' = Blockchain.mempool bc.
Proof.
  intros Htip Hlen.
  destruct (create_block_shape bc miner t1 t2 tip Htip Hlen)
    as (bc' & block & coinbase & H1 & _ & H3 & H4 & H5 & _ & _ & _ & H9 & H10 & H11 & H12
        & reward & Hr & H13).
  exists bc', block, coinbase.
  split; [exact H1 | ]. split; [exact H3 | ]. split; [exact H12 | ]. split.
  { exists reward. split; [exact H13 | ].
    assert (Hq : 0 <= Z.of_nat (length (Blockchain.chain bc)) / Blockchain.halving_interval
                 < 1024).
    { split; [apply Z.div_pos; [lia | reflexivity]
             | apply Z.div_lt_upper_bound; [reflexivity | lia]]. }
    pose proof (rewards_are_exact _ Hq) as Hx. unfold reward_is_exact in Hx.
    rewrite Hr in Hx. apply andb_prop in Hx. destruct Hx as [Hf Hv].
    split; [exact Hf | apply Qc_eq_bool_correct; exact Hv]. }
  repeat split; assumption.
Qed.

Lemma candidate_block_contents_witness :
  last (Blockchain.chain Examples.tiny_chain)
  = Some (Examples.block_with 0 "00" [Genesis.genesis_transaction])
  /\ Z.of_nat (length (Blockchain.chain Examples.tiny_chain)) < 1024 * Blockchain.halving_interval
  /\ exists bc' block coinbase,
       Blockchain.create_block Examples.tiny_chain "miner" 0 0 = Some (bc', block)
       /\ Block.transactions block
          = coinbase :: Blockchain.take_pending
                          (Blockchain.pending_transactions Examples.tiny_chain) []
       /\ Block.index block = 1.
Proof.
  assert (H1 : last (Blockchain.chain Examples.tiny_chain)
               = Some (Examples.block_with 0 "00" [Genesis.genesis_transaction]))
    by reflexivity.
  assert (H2 : Z.of_nat (length (Blockchain.chain Examples.tiny_chain))
               < 1024 * Blockchain.halving_interval) by reflexivity.
  split; [exact H1 | ]. split; [exact H2 | ].
  destruct (candidate_block_contents Examples.tiny_chain "miner" 0 0 _ H1 H2)
    as (bc' & block & coinbase & Hc & Ht & _ & _ & Hi & _).
  exists bc', block, coinbase. split; [exact Hc | ]. split; [exact Ht | exact Hi].
Defined.

Lemma add_block_outcome (bc : Blockchain.t) (block tip : Block.t) (now : float) :
  last (Blockchain.chain bc) = Some tip ->
  0 < Blockchain.difficulty_adjustment_interval bc ->
  exists bc' ok,
    Blockchain.add_block bc block now = Some (bc', ok)
    /\ (ok = true
        <-> Block.validate block now = Some true
            /\ Block.previous_hash block = Block.hash tip
            /\ Block.index block = Z.of_nat (length (Blockchain.chain bc))
            /\ forallb (Blockchain._validate_transaction bc)
                       (skipn 1 (Block.transactions block)) = true)
    /\ (if ok
        then Blockchain.chain bc' = Blockchain.chain bc ++ [block]
             /\ Blockchain.utxo_set bc'
                = Blockchain._update_utxo_set_on (Blockchain.utxo_set bc) block
             /\ Blockchain.pending_transactions bc' = Blockchain.pending_transactions bc
             /\ Blockchain.mempool bc' = Blockchain.mempool bc
        else bc' = bc).
Proof.
  intros Htip Hpos. unfold Blockchain.add_block.
  destruct (validate_total block now) as [[|] ->].
  2:{ exists bc, false. split; [reflexivity | ]. split; [ | reflexivity].
      split; [discriminate | intros [? _]; discriminate]. }
  rewrite index_last, Htip.
  destruct (String.eqb _ _) eqn:Eh; cbn [negb].
  2:{ exists bc, false. split; [reflexivity | ]. split; [ | reflexivity].
      apply String.eqb_neq in Eh.
      split; [discriminate | intros (_ & ? & _); contradiction]. }
  destruct (Block.index block =? Z.of_nat (length (Blockchain.chain bc))) eqn:Ei;
    cbn [negb].
  2:{ exists bc, false. split; [reflexivity | ]. split; [ | reflexivity].
      apply Z.eqb_neq in Ei.
      split; [discriminate | intros (_ & _ & ? & _); contradiction]. }
  destruct (forallb _ _) eqn:Ef; cbn [negb].
  2:{ exists bc, false. split; [reflexivity | ]. split; [ | reflexivity].
      split; [discriminate | intros (_ & _ & _ & ?); discriminate]. }
  match goal with |- context [Blockchain._adjust_difficulty ?x] => set (bc1 := x) end.
  destruct (adjust_total bc1) as [bc2 Hadj]; [exact Hpos | ].
  rewrite Hadj. exists bc2, true.
  destruct (adjust_frame _ _ Hadj) as (Hc & Hu & Hp & Hm & _).
  split; [reflexivity | ]. split.
  - split; [ | reflexivity]. intros _.
    apply String.eqb_eq in Eh. apply Z.eqb_eq in Ei. repeat split; assumption.
  - rewrite Hc, Hu, Hp, Hm. repeat split.
Qed.

(** X9. add_block, on a chain with a tip: it returns True exactly when the block
    passes validate, names the tip's hash, carries the chain's length as
    index, and every transaction after the first passes
    _validate_transaction; the first one, the coinbase, is not looked at.
    On True the block is appended and its transactions are applied to the
    UTXO set, the pending list and the mempool staying as they were; on
    False nothing changes. *)
Theorem add_block_verdict (bc : Blockchain.t) (block tip : Block.t) (now : float) :
  last (Blockchain.chain bc) = Some tip ->
  0 < Blockchain.difficulty_adjustment_interval bc ->
  exists bc' ok,
    Blockchain.add_block bc block now = Some (bc', ok)
    /\ (ok = true
        <-> Block.validate block now = Some true
            /\ Block.previous_hash block = Block.hash tip
            /\ Block.index block = Z.of_nat (length (Blockchain.chain bc))
            /\ Forall (fun tx => Blockchain._validate_transaction bc tx = true)
                      (skipn 1 (Block.transactions block)))
    /\ (ok = true ->
        Blockchain.chain bc' = Blockchain.chain bc ++ [block]
        /\ Blockchain.utxo_set bc'
           = fold_left Blockchain.apply_transaction (Block.transactions block)
                       (Blockchain.utxo_set bc)
        /\ Blockchain.pending_transactions bc' = Blockchain.pending_transactions bc
        /\ Blockchain.mempool bc' = Blockchain.mempool bc)
    /\ (ok = false -> bc' = bc).
Proof.
  intros Htip Hpos.
  destruct (add_block_outcome bc block tip now Htip Hpos) as (bc' & ok & Hr & Hiff & Hst).
  exists bc', ok. split; [exact Hr | ]. split.
  - rewrite Hiff, List.Forall_forall, forallb_forall. reflexivity.
  - split; intros ->; exact Hst.
Qed.

Lemma add_block_verdict_witness :
  last (Blockchain.chain Examples.tiny_chain)
  = Some (Examples.block_with 0 "00" [Genesis.genesis_transaction])
  /\ 0 < Blockchain.difficulty_adjustment_interval Examples.tiny_chain
  /\ exists bc' ok,
       Blockchain.add_block Examples.tiny_chain (Examples.block_with 5 "11" []) 0
       = Some (bc', ok)
       /\ (ok = false -> bc' = Examples.tiny_chain).
Proof.
  assert (H1 : last (Blockchain.chain Examples.tiny_chain)
               = Some (Examples.block_with 0 "00" [Genesis.genesis_transaction]))
    by reflexivity.
  assert (H2 : 0 < Blockchain.difficulty_adjustment_interval Examples.tiny_chain)
    by reflexivity.
  split; [exact H1 | ]. split; [exact H2 | ].
  destruct (add_block_verdict Examples.tiny_chain (Examples.block_with 5 "11" []) _ 0 H1 H2)
    as (bc' & ok & Hr & _ & _ & Hf).
  exists bc', ok. split; [exact Hr | exact Hf].
Defined.

(** X10. mine_block, on a chain with a tip and below 1024 halvings, always
    returns.  Whether or not the block was mined and added, the mempool is
    what it was and the transactions taken into the candidate block are gone
    from the pending list.  When a block is returned it is the new tip and
    its transactions are applied to the UTXO set; otherwise chain and UTXO
    set are unchanged. *)
Theorem mine_block_outcome
    (bc : Blockchain.t) (miner : string) (ck : Blockchain.clock) (tip : Block.t) :
  last (Blockchain.chain bc) = Some tip ->
  0 < Blockchain.difficulty_adjustment_interval bc ->
  Z.of_nat (length (Blockchain.chain bc)) < 1024 * Blockchain.halving_interval ->
  exists bc' r,
    Blockchain.mine_block bc miner ck = Some (bc', r)
    /\ Blockchain.mempool bc' = Blockchain.mempool bc
    /\ Blockchain.take_pending (Blockchain.pending_transactions bc) []
       ++ Blockchain.pending_transactions bc'
       = Blockchain.pending_transactions bc
    /\ match r with
       | Some block =>
           Blockchain.chain bc' = Blockchain.chain bc ++ [block]
           /\ Blockchain.utxo_set bc'
              = Blockchain._update_utxo_set_on (Blockchain.utxo_set bc) block
       | None =>
           Blockchain.chain bc' = Blockchain.chain bc
           /\ Blockchain.utxo_set bc' = Blockchain.utxo_set bc
       end.
Proof.
  intros Htip Hpos Hlen.
  destruct (create_block_shape bc miner (Blockchain.at_coinbase ck) (Blockchain.at_block ck)
              tip Htip Hlen)
    as (bc1 & block & coinbase & Hcb & _ & _ & Hpend & Hmem & Hchain & Hutxo & Hint & _).
  unfold Blockchain.mine_block. rewrite Hcb.
  destruct (Block.mine block 1000000 (Blockchain.at_attempt ck)) as [mined [|]].
  - destruct (add_block_outcome bc1 mined tip (Blockchain.at_validate ck))
      as (bc2 & ok & Hr & _ & Hst); [rewrite Hchain; exact Htip | rewrite Hint; exact Hpos | ].
    rewrite Hr. destruct ok.
    + destruct Hst as (Hc2 & Hu2 & Hp2 & Hm2).
      exists bc2, (Some mined). rewrite Hm2, Hp2, Hc2, Hu2, Hchain, Hutxo.
      repeat split; assumption.
    + subst bc2. exists bc1, None. repeat split; assumption.
  - exists bc1, None. repeat split; assumption.
Qed.

Lemma mine_block_outcome_witness :
  last (Blockchain.chain Examples.tiny_chain)
  = Some (Examples.block_with 0 "00" [Genesis.genesis_transaction])
  /\ 0 < Blockchain.difficulty_adjustment_interval Examples.tiny_chain
  /\ Z.of_nat (length (Blockchain.chain Examples.tiny_chain)) < 1024 * Blockchain.halving_interval
  /\ exists bc' r,
       Blockchain.mine_block Examples.tiny_chain "miner" (Scenario.clock_at 0) = Some (bc', r)
       /\ Blockchain.mempool bc' = Blockchain.mempool Examples.tiny_chain.
Proof.
  assert (H1 : last (Blockchain.chain Examples.tiny_chain)
               = Some (Examples.block_with 0 "00" [Genesis.genesis_transaction]))
    by reflexivity.
  assert (H2 : 0 < Blockchain.difficulty_adjustment_interval Examples.tiny_chain)
    by reflexivity.
  assert (H3 : Z.of_nat (length (Blockchain.chain Examples.tiny_chain))
               < 1024 * Blockchain.halving_interval) by reflexivity.
  split; [exact H1 | ]. split; [exact H2 | ]. split; [exact H3 | ].
  destruct (mine_block_outcome Examples.tiny_chain "miner" (Scenario.clock_at 0) _ H1 H2 H3)
    as (bc' & r & Hr & Hm & _).
  exists bc', r. split; [exact Hr | exact Hm].
Defined.

Lemma validate_from_total (now : Z -> float) (rest : list Block.t) :
  forall (k : Z) (previous : Block.t),
    exists r, Blockchain.validate_from now k previous rest = Some r.
Proof.
  induction rest as [|cur rest IH]; intros k previous; cbn [Blockchain.validate_from].
  - eexists; reflexivity.
  - destruct (validate_total cur (now k)) as [[|] ->]; [ | eexists; reflexivity].
    destruct (negb _); [eexists; reflexivity | apply IH].
Qed.

Lemma validate_from_spec (now : Z -> float) (rest : list Block.t) :
  forall (k : Z) (previous : Block.t),
    Blockchain.validate_from now k previous rest = Some true
    <-> forall (j : nat) (p c : Block.t),
          (previous :: rest) !! j = Some p -> (previous :: rest) !! S j = Some c ->
          Block.validate c (now (k + Z.of_nat j)) = Some true
          /\ Block.previous_hash c = Block.hash p.
Proof.
  induction rest as [|cur rest IH]; intros k previous; cbn [Blockchain.validate_from].
  - split; [ | reflexivity]. intros _ j p c Hp Hc. destruct j; discriminate.
  - destruct (Block.validate cur (now k)) as [[|]|] eqn:Hv.
    + destruct (String.eqb _ _) eqn:Eh; cbn [negb].
      * rewrite IH. split.
        -- intros H j p c Hp Hc. destruct j as [|j].
           ++ cbn in Hp, Hc. injection Hp as <-. injection Hc as <-.
              rewrite Z.add_0_r. split; [exact Hv | apply String.eqb_eq; exact Eh].
           ++ replace (k + Z.of_nat (S j)) with (k + 1 + Z.of_nat j) by lia.
              apply (H j p c); assumption.
        -- intros H j p c Hp Hc.
           replace (k + 1 + Z.of_nat j) with (k + Z.of_nat (S j)) by lia.
           apply (H (S j) p c); assumption.
      * split; [discriminate | ]. intros H.
        destruct (H 0%nat previous cur eq_refl eq_refl) as [_ He].
        apply String.eqb_neq in Eh. contradiction.
    + split; [discriminate | ]. intros H.
      destruct (H 0%nat previous cur eq_refl eq_refl) as [Hv' _].
      rewrite Z.add_0_r in Hv'. congruence.
    + split; [discriminate | ]. intros H.
      destruct (H 0%nat previous cur eq_refl eq_refl) as [Hv' _].
      rewrite Z.add_0_r in Hv'. congruence.
Qed.

(** X11. validate_chain always returns, and it returns True exactly when every
    block from position 1 on passes validate and names the hash of the block
    before it.  The block at position 0 is not validated, and indices are
    not compared with positions. *)
Theorem validate_chain_checks_links (bc : Blockchain.t) (now : Z -> float) :
  (exists r, Blockchain.validate_chain bc now = Some r)
  /\ (Blockchain.validate_chain bc now = Some true
      <-> forall (i : nat) (previous current : Block.t),
            Blockchain.chain bc !! i = Some previous ->
            Blockchain.chain bc !! S i = Some current ->
            Block.validate current (now (Z.of_nat (S i))) = Some true
            /\ Block.previous_hash current = Block.hash previous).
Proof.
  unfold Blockchain.validate_chain.
  destruct (Blockchain.chain bc) as [|first rest].
  - split; [eexists; reflexivity | ]. split; [ | reflexivity].
    intros _ i p c Hp. discriminate.
  - split; [apply validate_from_total | ].
    rewrite validate_from_spec. split; intros H i p c Hp Hc.
    + replace (Z.of_nat (S i)) with (1 + Z.of_nat i) by lia. apply (H i p c); assumption.
    + replace (1 + Z.of_nat i) with (Z.of_nat (S i)) by lia. apply (H i p c); assumption.
Qed.

End NodeFacts.

(** ** The block reward *)

Section RewardFacts.
Import Ledger Supply.
Local Open Scope Qc_scope.


Lemma inject_mul (a b : Z) :
  Q2Qc (inject_Z (a * b)) = Q2Qc (inject_Z a) * Q2Qc (inject_Z b).
Proof.
  apply Qc_is_canon. cbn [this Qcmult Q2Qc]. rewrite !Qred_correct.
  rewrite inject_Z_mult. reflexivity.
Qed.

Lemma inject_pos (a : Z) : (0 < a)%Z -> 0 < Q2Qc (inject_Z a).
Proof.
  intros Ha. unfold Qclt. cbn [this Q2Qc]. rewrite !Qred_correct.
  unfold Qlt. cbn. lia.
Qed.

Lemma power_of_two_nonzero (q : Z) : (0 <= q)%Z -> Q2Qc (inject_Z (2 ^ q)) <> 0.
Proof.
  intros Hq. apply not_eq_sym, Qclt_not_eq, inject_pos. apply Z.pow_pos_nonneg; lia.
Qed.

Lemma era_reward_succ (q : Z) :
  (0 <= q)%Z -> era_reward (q + 1) = era_reward q / Q2Qc 2.
Proof.
  intros Hq. unfold era_reward.
  rewrite Z.pow_add_r, Z.pow_1_r, inject_mul by lia.
  pose proof (power_of_two_nonzero q Hq) as Hnz.
  change (Q2Qc (inject_Z 2)) with (Q2Qc 2).
  assert (H2 : Q2Qc 2 <> 0) by discriminate.
  field. split; assumption.
Qed.






Lemma reward_stands_for_era (q : Z) :
  (0 <= q < 1024)%Z ->
  exists reward,
    Blockchain.block_reward q = Some reward
    /\ finite reward = true /\ value_of reward = era_reward q.
Proof.
  intros Hq. pose proof (rewards_are_exact q Hq) as H. unfold reward_is_exact in H.
  destruct (Blockchain.block_reward q) as [reward|]; [ | discriminate].
  apply andb_prop in H. destruct H as [Hf Hv]. apply Qc_eq_bool_correct in Hv.
  exists reward. split; [reflexivity | ]. split; [exact Hf | exact Hv].
Qed.



(** X12. The block reward, as the code computes it: 50.0 / 2 ** halvings is a
    finite float that stands for 50 / 2 ^ halvings, so it is 50 with no
    halving and half the reward before with one halving more, up to 1023
    halvings; from 1024 halvings on the computation raises. *)
Theorem block_reward_halves (halvings : Z) :
  ((0 <= halvings < 1023)%Z ->
   exists reward next,
     Blockchain.block_reward halvings = Some reward
     /\ Blockchain.block_reward (halvings + 1) = Some next
     /\ finite reward = true /\ finite next = true
     /\ value_of next = value_of reward / Q2Qc 2
     /\ (halvings = 0%Z -> value_of reward = Q2Qc 50))
  /\ ((1024 <= halvings)%Z -> Blockchain.block_reward halvings = None).
Proof.
  split.
  - intros Hq.
    destruct (reward_stands_for_era halvings) as (r & Hr & Hf & Hv); [lia | ].
    destruct (reward_stands_for_era (halvings + 1)) as (r' & Hr' & Hf' & Hv'); [lia | ].
    exists r, r'. split; [exact Hr | ]. split; [exact Hr' | ].
    split; [exact Hf | ]. split; [exact Hf' | ].
    split; [rewrite Hv, Hv'; apply era_reward_succ; lia | ].
    intros ->. rewrite Hv. apply Qc_is_canon. reflexivity.
  - intros Hq. unfold Blockchain.block_reward.
    apply Z.leb_le in Hq. rewrite Hq. reflexivity.
Qed.



End RewardFacts.

(** ** Blocks: the Merkle root, mining and validation *)

Section BlockFacts.
Import Tx Block Mining.

(** X14. _calculate_merkle_root returns on every transaction list: the pairing
    loop never reads past the end of a level.  On the empty list the root is
    empty_digest, the SHA-256 of the empty byte string in hex. *)
Theorem merkle_root_always_returns (txs : list Transaction) :
  exists root,
    _calculate_merkle_root txs = Some root
    /\ (txs = [] -> root = empty_digest).
Proof.
  destruct txs as [|tx txs].
  - exists empty_digest. split; [reflexivity | intros _; reflexivity].
  - destruct (merkle_root_total (tx :: txs)) as [root Hroot]. exists root.
    split; [exact Hroot | discriminate].
Qed.

Lemma odd_level_root (pre level : list string) (x : string) :
  pair_level pre = Some level -> pre <> [] ->
  merkle_of_hashes (pre ++ [x]) = merkle_of_hashes (pre ++ [x; x]).
Proof.
  intros Hpre Hne.
  assert (Hlen : length pre = (2 * length level)%nat) by (apply pair_level_length; exact Hpre).
  assert (Hpos : (0 < length level)%nat) by (destruct pre; [congruence | cbn in Hlen; lia]).
  assert (Hdup : pair_level (pre ++ [x; x]) = Some (level ++ [pair_hash x x]))
    by (rewrite (pair_level_app pre level _ Hpre); reflexivity).
  assert (H1 : merkle_of_hashes (pre ++ [x])
               = merkle_of_hashes (level ++ [pair_hash x x])).
  { apply root_after_turn; [ | | apply odd_level_turn; exact Hpre];
      rewrite !length_app; cbn [length]; lia. }
  assert (H2 : merkle_of_hashes (pre ++ [x; x])
               = merkle_of_hashes (level ++ [pair_hash x x])).
  { apply root_after_turn; [ | | apply even_level_turn; exact Hdup];
      rewrite !length_app; cbn [length]; lia. }
  rewrite H1, H2. reflexivity.
Qed.

(** X15. A transaction list of odd length, three or more, and the list with its
    last transaction repeated have the same Merkle root, so Block(...) gives
    both the same header hash. *)
Theorem repeated_last_transaction_keeps_the_hash
    (txs : list Transaction) (tx : Transaction)
    (index : Z) (previous_hash : string) (difficulty nonce extra_nonce : Z) (now : float) :
  txs <> [] -> Nat.even (length txs) = true ->
  _calculate_merkle_root (txs ++ [tx]) = _calculate_merkle_root (txs ++ [tx; tx])
  /\ option_map hash (init index (txs ++ [tx]) previous_hash difficulty nonce extra_nonce now)
     = option_map hash
         (init index (txs ++ [tx; tx]) previous_hash difficulty nonce extra_nonce now).
Proof.
  intros Hne Hev.
  assert (Hroot : _calculate_merkle_root (txs ++ [tx])
                  = _calculate_merkle_root (txs ++ [tx; tx])).
  { unfold _calculate_merkle_root.
    destruct txs as [|t0 txs]; [congruence | ]. cbn [app].
    change (t0 :: txs ++ [tx]) with ((t0 :: txs) ++ [tx]).
    change (t0 :: txs ++ [tx; tx]) with ((t0 :: txs) ++ [tx; tx]).
    rewrite !map_app. cbn [map].
    destruct (pair_level_even (map _hash_transaction (t0 :: txs))) as [level Hl];
      [rewrite length_map; exact Hev | ].
    apply (odd_level_root _ level); [exact Hl | discriminate]. }
  split; [exact Hroot | ]. unfold init. rewrite Hroot.
  destruct (_calculate_merkle_root (txs ++ [tx; tx])); reflexivity.
Qed.

Lemma repeated_last_transaction_keeps_the_hash_witness :
  [Genesis.genesis_transaction; Genesis.genesis_transaction] <> []
  /\ Nat.even (length [Genesis.genesis_transaction; Genesis.genesis_transaction]) = true
  /\ _calculate_merkle_root
       ([Genesis.genesis_transaction; Genesis.genesis_transaction]
        ++ [Genesis.genesis_transaction])
     = _calculate_merkle_root
         ([Genesis.genesis_transaction; Genesis.genesis_transaction]
          ++ [Genesis.genesis_transaction; Genesis.genesis_transaction]).
Proof.
  assert (H1 : [Genesis.genesis_transaction; Genesis.genesis_transaction] <> [])
    by discriminate.
  assert (H2 : Nat.even (length [Genesis.genesis_transaction; Genesis.genesis_transaction])
               = true) by reflexivity.
  split; [exact H1 | ]. split; [exact H2 | ].
  exact (proj1 (repeated_last_transaction_keeps_the_hash
                  [Genesis.genesis_transaction; Genesis.genesis_transaction]
                  Genesis.genesis_transaction 0 EmptyString 0 0 0 0 H1 H2)).
Defined.

Lemma string_of_list_app (a b : list ascii) :
  string_of_list_ascii (a ++ b) = string_of_list_ascii a +:+ string_of_list_ascii b.
Proof.
  induction a as [|c a IH]; [reflexivity | ].
  cbn [app string_of_list_ascii].
  change (String c (string_of_list_ascii a) +:+ string_of_list_ascii b)
    with (String c (string_of_list_ascii a +:+ string_of_list_ascii b)).
  f_equal. exact IH.
Qed.

Lemma list_of_string_app (a b : string) :
  list_ascii_of_string (a +:+ b) = list_ascii_of_string a ++ list_ascii_of_string b.
Proof.
  induction a as [|c a IH]; [reflexivity | ].
  change (String c a +:+ b) with (String c (a +:+ b)).
  cbn [app list_ascii_of_string]. f_equal. exact IH.
Qed.

(** X16. The proof-of-work test, for a difficulty that is not negative: the hash
    passes exactly when it starts with that many characters 0. *)
Theorem meets_target_is_leading_zeros (hash : string) (difficulty : Z) :
  0 <= difficulty ->
  meets_target hash difficulty = true
  <-> exists rest, hash = PyStr.repeat_char "0" difficulty +:+ rest.
Proof.
  intros Hd. unfold meets_target, PyStr.prefix_to, PyStr.repeat_char.
  assert ((difficulty <? 0) = false) as -> by (apply Z.ltb_ge; exact Hd).
  set (n := Z.to_nat difficulty). rewrite String.eqb_eq. split.
  - intros H. apply (f_equal list_ascii_of_string) in H.
    rewrite !list_ascii_of_string_of_list_ascii in H.
    exists (string_of_list_ascii (skipn n (list_ascii_of_string hash))).
    rewrite <- string_of_list_app, <- H, firstn_skipn, string_of_list_ascii_of_string.
    reflexivity.
  - intros [rest ->].
    rewrite list_of_string_app, list_ascii_of_string_of_list_ascii, firstn_app,
      repeat_length, Nat.sub_diag, firstn_all2 by (rewrite repeat_length; lia).
    cbn [firstn]. rewrite app_nil_r. reflexivity.
Qed.

Lemma meets_target_is_leading_zeros_witness :
  0 <= 2
  /\ (meets_target "00ab" 2 = true
      <-> exists rest, "00ab" = PyStr.repeat_char "0" 2 +:+ rest).
Proof.
  assert (H : 0 <= 2) by lia.
  split; [exact H | exact (meets_target_is_leading_zeros "00ab" 2 H)].
Defined.

Lemma attempt_header_again (b : t) (clock : Z -> float) (i j : Z) (now : float) :
  attempt_header (header (with_attempt b i now)) clock j = attempt_header (header b) clock j.
Proof. reflexivity. Qed.

Lemma mine_from_spec (clock : Z -> float) (turns : nat) :
  forall (i : Z) (b : t),
    let r := mine_from clock turns i b in
    (snd r = true ->
     exists k,
       i <= k < i + Z.of_nat turns
       /\ tries b clock k = true
       /\ (forall j, i <= j < k -> tries b clock j = false)
       /\ nonce (fst r) = k
       /\ extra_nonce (fst r) = (k / 1000) mod 1000000
       /\ header (fst r) = attempt_header (header b) clock k
       /\ hash (fst r) = BlockHeader.hash (header (fst r)))
    /\ (snd r = false -> forall j, i <= j < i + Z.of_nat turns -> tries b clock j = false)
    /\ index (fst r) = index b
    /\ transactions (fst r) = transactions b
    /\ previous_hash (fst r) = previous_hash b
    /\ timestamp (fst r) = timestamp b
    /\ difficulty (fst r) = difficulty b
    /\ merkle_root (fst r) = merkle_root b.
Proof.
  induction turns as [|turns IH]; intros i b; cbn [mine_from].
  - cbn [fst snd]. split; [discriminate | ]. split; [intros _ j Hj; lia | ].
    repeat split.
  - destruct (meets_target (hash (with_attempt b i (clock i)))
                           (difficulty (with_attempt b i (clock i)))) eqn:E.
    + cbn [fst snd]. split; [ | split; [discriminate | repeat split]].
      intros _. exists i. split; [lia | ]. split; [exact E | ].
      split; [intros j Hj; lia | ]. repeat split.
    + specialize (IH (i + 1) (with_attempt b i (clock i))). cbv zeta in IH.
      destruct IH as (Ht & Hf & H1 & H2 & H3 & H4 & H5 & H6).
      split; [ | split].
      * intros Hs. destruct (Ht Hs) as (k & Hk & Hk1 & Hk2 & Hk3 & Hk4 & Hk5 & Hk6).
        exists k. split; [lia | ]. split; [exact Hk1 | ].
        split; [ | repeat split; assumption].
        intros j Hj. destruct (Z.eq_dec j i) as [-> | Hne]; [exact E | ].
        apply Hk2. lia.
      * intros Hs j Hj. destruct (Z.eq_dec j i) as [-> | Hne]; [exact E | ].
        apply (Hf Hs). lia.
      * rewrite H1, H2, H3, H4, H5, H6. repeat split.
Qed.

(** X17. mine() tries the nonces 0, 1, 2, ... in order.  When it returns True the
    block carries the first nonce whose header hash meets the target, below
    max_iterations, with extra_nonce (nonce // 1000) % 1000000, and its hash
    is the hash of its header; when it returns False no nonce below
    max_iterations meets the target.  The block's transactions, Merkle root
    and own timestamp are not touched. *)
Theorem mine_finds_the_first_nonce (b : t) (max_iterations : Z) (clock : Z -> float) :
  (snd (mine b max_iterations clock) = true ->
   exists k,
     0 <= k < max_iterations
     /\ tries b clock k = true
     /\ (forall j, 0 <= j < k -> tries b clock j = false)
     /\ nonce (fst (mine b max_iterations clock)) = k
     /\ extra_nonce (fst (mine b max_iterations clock)) = (k / 1000) mod 1000000
     /\ hash (fst (mine b max_iterations clock))
        = BlockHeader.hash (attempt_header (header b) clock k))
  /\ (snd (mine b max_iterations clock) = false ->
      forall j, 0 <= j < max_iterations -> tries b clock j = false)
  /\ transactions (fst (mine b max_iterations clock)) = transactions b
  /\ merkle_root (fst (mine b max_iterations clock)) = merkle_root b
  /\ timestamp (fst (mine b max_iterations clock)) = timestamp b.
Proof.
  unfold mine.
  pose proof (mine_from_spec clock (Z.to_nat max_iterations) 0 b) as H. cbv zeta in H.
  destruct H as (Ht & Hf & _ & H2 & _ & H4 & _ & H6).
  split; [ | split; [ | repeat split; assumption]].
  - intros Hs. destruct (Ht Hs) as (k & Hk & Hk1 & Hk2 & Hk3 & Hk4 & Hk5 & Hk6).
    exists k. split; [lia | ]. split; [exact Hk1 | ]. split; [exact Hk2 | ].
    split; [exact Hk3 | ]. split; [exact Hk4 | ]. rewrite Hk6, Hk5. reflexivity.
  - intros Hs j Hj. apply (Hf Hs). lia.
Qed.

(** X18. A block made by Block(...) and mined with success passes validate
    exactly when its own timestamp, the clock reading at construction, is
    not more than 7200 seconds ahead of the clock, and it has a transaction
    or index 0. *)
Theorem mined_block_validates
    (index : Z) (txs : list Transaction) (previous_hash : string)
    (difficulty nonce extra_nonce : Z) (t0 now : float)
    (b : t) (max_iterations : Z) (clock : Z -> float) :
  init index txs previous_hash difficulty nonce extra_nonce t0 = Some b ->
  snd (mine b max_iterations clock) = true ->
  validate (fst (mine b max_iterations clock)) now
  = Some (negb (PrimFloat.ltb (PrimFloat.add now 7200) t0)
          && negb ((length txs =? 0)%nat && negb (index =? 0))).
Proof.
  intros Hinit Hs. unfold mine in *.
  pose proof (mine_from_spec clock (Z.to_nat max_iterations) 0 b) as H. cbv zeta in H.
  destruct H as (Ht & _ & H1 & H2 & _ & H4 & H5 & H6).
  destruct (Ht Hs) as (k & _ & Hk1 & _ & _ & _ & Hk5 & Hk6).
  unfold init in Hinit.
  destruct (_calculate_merkle_root txs) as [root|] eqn:Hroot; [ | discriminate].
  injection Hinit as <-.
  cbn [Block.index Block.transactions Block.timestamp Block.difficulty Block.merkle_root
       Block.header] in *.
  unfold validate. rewrite H1, H2, H4, H5, H6, Hroot.
  rewrite Hk6 at 1. rewrite String.eqb_refl. cbn [negb].
  unfold tries in Hk1. cbn [Block.difficulty Block.header] in Hk1.
  rewrite Hk6, Hk5, Hk1. cbn [negb]. rewrite String.eqb_refl. cbn [negb].
  destruct (PrimFloat.ltb _ _); [reflexivity | ].
  destruct ((length txs =? 0)%nat && negb (index =? 0)); reflexivity.
Qed.

Lemma mined_block_validates_witness :
  init 0 [] EmptyString 0 0 0 0 = Some Examples.built
  /\ snd (mine Examples.built 1 (fun _ => 0%float)) = true
  /\ validate (fst (mine Examples.built 1 (fun _ => 0%float))) 0
     = Some (negb (PrimFloat.ltb (PrimFloat.add 0 7200) 0)
             && negb ((length (@nil Transaction) =? 0)%nat && negb (0 =? 0))).
Proof.
  assert (H1 : init 0 [] EmptyString 0 0 0 0 = Some Examples.built)
    by (vm_compute; reflexivity).
  assert (H2 : snd (mine Examples.built 1 (fun _ => 0%float)) = true)
    by (vm_compute; reflexivity).
  split; [exact H1 | ]. split; [exact H2 | ].
  exact (mined_block_validates 0 [] EmptyString 0 0 0 0 0 Examples.built 1
           (fun _ => 0%float) H1 H2).
Defined.

End BlockFacts.

(** ** The script engine, Base58 and the byte helpers *)

Section ScriptRuns.
Import ScriptEngine Script.

Lemma unknown_operation_fails (stack : list item) (op : string) :
  String.prefix "OP_" op = true -> ~ In op known_operations ->
  _execute_operation stack op = Some (false, stack).
Proof.
  intros Hp Hk. unfold _execute_operation.
  repeat match goal with
  | |- context [String.eqb op ?k] =>
      let E := fresh "E" in
      destruct (String.eqb op k) eqn:E;
        [apply String.eqb_eq in E; exfalso; apply Hk; rewrite E; cbn; tauto | ]
  end.
  rewrite Hp. reflexivity.
Qed.

Lemma data_token_is_pushed (stack : list item) (op : string) :
  String.prefix "OP_" op = false ->
  _execute_operation stack op = Some (true, IStr op :: stack).
Proof.
  intros Hp. unfold _execute_operation.
  repeat match goal with
  | |- context [String.eqb op ?k] =>
      let E := fresh "E" in
      destruct (String.eqb op k) eqn:E;
        [apply String.eqb_eq in E; rewrite E in Hp; discriminate | ]
  end.
  rewrite Hp. reflexivity.
Qed.

Lemma unknown_operation_stops (operations : list string) (op : string) :
  In op operations ->
  String.prefix "OP_" op = true -> ~ In op known_operations ->
  forall stack stack', run operations stack <> Some (true, stack').
Proof.
  intros Hin Hp Hk.
  induction operations as [|op0 rest IH]; intros stack stack'; [destruct Hin | ].
  cbn [run]. destruct Hin as [-> | Hin].
  - rewrite (unknown_operation_fails stack op Hp Hk). discriminate.
  - destruct (_execute_operation stack op0) as [[[|] stack1]|]; try discriminate.
    apply IH. exact Hin.
Qed.

(** X19. A script in which some word starts with OP_ and is none of the six
    operations the engine knows never evaluates to True, whatever stands
    before or after that word. *)
Theorem unknown_opcode_never_succeeds (script op : string) :
  In op (split script) ->
  String.prefix "OP_" op = true -> ~ In op known_operations ->
  execute script <> Some true.
Proof.
  intros Hin Hp Hk. unfold execute.
  pose proof (unknown_operation_stops (split script) op Hin Hp Hk []) as H.
  destruct (run (split script) []) as [[[|] stack]|]; try discriminate.
  exfalso. exact (H stack eq_refl).
Qed.

Lemma unknown_opcode_never_succeeds_witness :
  In "OP_ADD" (split "2 3 OP_ADD 5")
  /\ String.prefix "OP_" "OP_ADD" = true
  /\ ~ In "OP_ADD" known_operations
  /\ execute "2 3 OP_ADD 5" <> Some true.
Proof.
  assert (H1 : In "OP_ADD" (split "2 3 OP_ADD 5")) by (vm_compute; tauto).
  assert (H2 : String.prefix "OP_" "OP_ADD" = true) by reflexivity.
  assert (H3 : ~ In "OP_ADD" known_operations)
    by (cbn; intros H; repeat destruct H as [H | H]; try discriminate; exact H).
  split; [exact H1 | ]. split; [exact H2 | ]. split; [exact H3 | ].
  exact (unknown_opcode_never_succeeds "2 3 OP_ADD 5" "OP_ADD" H1 H2 H3).
Defined.

Lemma run_on (op : string) (rest : list string) (stack stack' : list item) :
  _execute_operation stack op = Some (true, stack') ->
  run (op :: rest) stack = run rest stack'.
Proof. intros H. cbn [run]. rewrite H. reflexivity. Qed.

(** X20. The pay-to-public-key-hash run on words that are data: it ends with
    True and the int 1 on the stack exactly when the hash in the script is
    the hex of the first 20 bytes of the SHA-256 of the key pushed, and
    returns False at OP_EQUALVERIFY otherwise.  The signature is never
    looked at: OP_CHECKSIG pushes 1 whatever it pops. *)
Theorem p2pkh_run_ignores_the_signature (sig pubkey h : string) :
  String.prefix "OP_" sig = false ->
  String.prefix "OP_" pubkey = false ->
  String.prefix "OP_" h = false ->
  run (p2pkh_run sig pubkey h) []
  = if String.eqb h (hash160_hex pubkey)
    then Some (true, [IInt 1])
    else Some (false, [IStr pubkey; IStr sig]).
Proof.
  intros Hs Hk Hh. unfold p2pkh_run.
  rewrite (run_on _ _ _ _ (data_token_is_pushed [] sig Hs)).
  rewrite (run_on _ _ _ _ (data_token_is_pushed [IStr sig] pubkey Hk)).
  rewrite (run_on "OP_DUP" _ [IStr pubkey; IStr sig]
                  [IStr pubkey; IStr pubkey; IStr sig] eq_refl).
  rewrite (run_on "OP_HASH160" _ [IStr pubkey; IStr pubkey; IStr sig]
                  [IStr (hash160_hex pubkey); IStr pubkey; IStr sig] eq_refl).
  rewrite (run_on _ _ _ _ (data_token_is_pushed _ h Hh)).
  cbn [run].
  change (_execute_operation
            [IStr h; IStr (hash160_hex pubkey); IStr pubkey; IStr sig] "OP_EQUALVERIFY")
    with (if String.eqb h (hash160_hex pubkey)
          then Some (true, [IStr pubkey; IStr sig])
          else Some (false, [IStr pubkey; IStr sig])).
  destruct (String.eqb h (hash160_hex pubkey)); reflexivity.
Qed.

Lemma p2pkh_run_ignores_the_signature_witness :
  String.prefix "OP_" "s1" = false
  /\ String.prefix "OP_" "key" = false
  /\ String.prefix "OP_" "abc" = false
  /\ run (p2pkh_run "s1" "key" "abc") []
     = if String.eqb "abc" (hash160_hex "key")
       then Some (true, [IInt 1])
       else Some (false, [IStr "key"; IStr "s1"]).
Proof.
  assert (H1 : String.prefix "OP_" "s1" = false) by reflexivity.
  assert (H2 : String.prefix "OP_" "key" = false) by reflexivity.
  assert (H3 : String.prefix "OP_" "abc" = false) by reflexivity.
  split; [exact H1 | ]. split; [exact H2 | ]. split; [exact H3 | ].
  exact (p2pkh_run_ignores_the_signature "s1" "key" "abc" H1 H2 H3).
Defined.

End ScriptRuns.

Section MoreBase58.
Import PyBytes Encoding.

Lemma decode_loop_fails (encoded : string) :
  forall num,
    decode_loop encoded num = None
    <-> exists c, In c (list_ascii_of_string encoded) /\ alphabet_index c = None.
Proof.
  induction encoded as [|c r IH]; intros num; cbn [decode_loop list_ascii_of_string].
  - split; [discriminate | intros [c [[] _]]].
  - destruct (alphabet_index c) as [i|] eqn:Ec.
    + rewrite IH. split.
      * intros [d [Hd Hn]]. exists d. split; [right; exact Hd | exact Hn].
      * intros [d [[<- | Hd] Hn]]; [congruence | ]. exists d. split; assumption.
    + split; [ | reflexivity]. intros _. exists c. split; [left; reflexivity | exact Ec].
Qed.

(** X21. base58_decode raises exactly on the strings that hold a character
    outside the alphabet; on every other string it returns bytes. *)
Theorem base58_decode_rejects_foreign_characters (encoded : string) :
  base58_decode encoded = None
  <-> exists c, In c (list_ascii_of_string encoded) /\ alphabet_index c = None.
Proof.
  unfold base58_decode. destruct encoded as [|c r].
  - split; [discriminate | intros [c [[] _]]].
  - rewrite <- (decode_loop_fails (String c r) 0).
    destruct (decode_loop (String c r) 0); split; congruence.
Qed.

End MoreBase58.

Section ByteHelpers.
Import PyBytes AssemblySimulator.

Lemma byte_of_Z_to_byte (z : Z) : byte_to_Z (Z_to_byte z) = z mod 256.
Proof.
  unfold Z_to_byte, byte_to_Z.
  pose proof (Z.mod_pos_bound z 256 ltac:(lia)) as Hr.
  destruct (Byte.of_N (Z.to_N (z mod 256))) as [b|] eqn:E.
  - apply Byte.to_of_N in E. rewrite E. lia.
  - apply Byte.of_N_None_iff in E. lia.
Qed.

Lemma from_bytes_to_bytes (n : nat) :
  forall v, from_bytes_big (to_bytes_big n v) = v mod 256 ^ Z.of_nat n.
Proof.
  induction n as [|n IH]; intros v.
  - cbn. rewrite Z.mod_1_r. reflexivity.
  - cbn [to_bytes_big]. rewrite from_bytes_big_snoc, IH, byte_of_Z_to_byte.
    rewrite Nat2Z.inj_succ, Z.pow_succ_r by lia.
    rewrite (Z.rem_mul_r v 256 (256 ^ Z.of_nat n)) by lia. lia.
Qed.

(** X22. The little-endian helpers undo each other: the bytes written for a value
    read back as the value modulo 256 ^ length, and the int read from a byte
    string is written back, at its length, as that byte string. *)
Theorem little_endian_round_trip (value : Z) (length : nat) (data : list byte) :
  little_endian_to_int (int_to_little_endian value length) = value mod 256 ^ Z.of_nat length
  /\ int_to_little_endian (little_endian_to_int data) (List.length data) = data.
Proof.
  rewrite !int_to_little_endian_spec, !little_endian_to_int_spec.
  unfold SHA3.from_bytes_little, SHA3.to_bytes_little. split.
  - rewrite rev_involutive. apply from_bytes_to_bytes.
  - rewrite <- (length_rev data), to_bytes_from_bytes. apply rev_involutive.
Qed.

End ByteHelpers.

